(** * ai_meme: the caption generator, the text overlay renderer, the template
    catalog and the application shell of [app.py], embedded in Rocq.

    The Python script is translated function by function.  Library calls whose
    results the script cannot compute itself (the text-generation pipeline,
    Pillow, the file system, the Streamlit widgets) are fields of a [World]
    record; the calls that act on the world or whose number matters, and
    every Streamlit output, are recorded as [event]s, so that a component is
    invoked, is not invoked or is invoked once according to the list of
    events of a run.  Python exceptions are
    values of [exn]; [st.stop()] and running out of fuel are outcomes of their
    own.  Python's [textwrap.fill] (CPython 3.11, Lib/textwrap.py), which the
    renderer calls, is a pure function and is embedded as such.

    Text is modelled by ASCII strings: a [string] is a Python [str] whose code
    points are below 128. *)

From Stdlib Require Import ZArith List String Ascii Bool Lia.
From Stdlib Require Import SpecFloat DecimalString.
Import ListNotations.

Local Open Scope string_scope.
Local Open Scope Z_scope.

(** ** Python values: exceptions, strings, floats *)

Module Py.

(** The exception classes the script and its libraries raise.  All of them
    derive from [Exception]; [FileNotFoundError] derives from [OSError], of
    which [IOError] is an alias. *)
Inductive exn_class :=
| FileNotFoundError
| OSError
| ValueError
| ZeroDivisionError
| OverflowError
| IndexError
| KeyError
| RuntimeError.

Record exn := Exn { exn_cls : exn_class; exn_msg : string }.

(** [isinstance(e, OSError)], which is what [except IOError] tests. *)
Definition is_OSError (e : exn) : bool :=
  match exn_cls e with
  | FileNotFoundError | OSError => true
  | _ => false
  end.

(** [isinstance(e, FileNotFoundError)] *)
Definition is_FileNotFoundError (e : exn) : bool :=
  match exn_cls e with
  | FileNotFoundError => true
  | _ => false
  end.

(** The result of a library call: a value or a raised exception. *)
Inductive result (A : Type) :=
| Ok (a : A)
| Raise (e : exn).
Arguments Ok {A} a.
Arguments Raise {A} e.

(** *** str *)

Definition len (s : string) : Z := Z.of_nat (String.length s).

(** [not s] *)
Definition is_empty (s : string) : bool :=
  match s with
  | EmptyString => true
  | String _ _ => false
  end.

(** [sub in s] *)
Fixpoint str_contains (sub s : string) : bool :=
  String.prefix sub s ||
  match s with
  | EmptyString => false
  | String _ s' => str_contains sub s'
  end.

Fixpoint str_rev_onto (s acc : string) : string :=
  match s with
  | EmptyString => acc
  | String c s' => str_rev_onto s' (String c acc)
  end.

Definition str_rev (s : string) : string := str_rev_onto s EmptyString.

(** [s.endswith(suffix)] *)
Definition endswith (s suffix : string) : bool :=
  String.prefix (str_rev suffix) (str_rev s).

(** [s.endswith((t1, t2, ...))] *)
Definition endswith_any (s : string) (suffixes : list string) : bool :=
  existsb (endswith s) suffixes.

(** [str.replace(old, new)] for a non-empty [old]: one pass from the left,
    every occurrence found is replaced and the scan resumes behind it.
    [skip] counts the characters of an occurrence still to be dropped. *)
Fixpoint replace_scan (old new s : string) (skip : nat) : string :=
  match s with
  | EmptyString => EmptyString
  | String c s' =>
      match skip with
      | S k => replace_scan old new s' k
      | O =>
          if String.prefix old s
          then new ++ replace_scan old new s' (String.length old - 1)
          else String c (replace_scan old new s' O)
      end
  end.

(** With an empty [old], Python puts [new] before every character and at the
    end. *)
Fixpoint replace_empty (new s : string) : string :=
  match s with
  | EmptyString => new
  | String c s' => new ++ String c (replace_empty new s')
  end.

Definition replace (s old new : string) : string :=
  if is_empty old then replace_empty new s else replace_scan old new s O.

(** [repr(z)] of an [int] *)
Definition repr_int (z : Z) : string := NilZero.string_of_int (Z.to_int z).

(** [c.isspace()] on ASCII: tab, line feed, vertical tab, form feed, carriage
    return, the four separators 28..31 and the space. *)
Definition isspace (c : ascii) : bool :=
  let n := nat_of_ascii c in
  ((9 <=? n) && (n <=? 13) || (28 <=? n) && (n <=? 32))%nat.

Fixpoint lstrip (s : string) : string :=
  match s with
  | EmptyString => EmptyString
  | String c s' => if isspace c then lstrip s' else s
  end.

Fixpoint rstrip (s : string) : string :=
  match s with
  | EmptyString => EmptyString
  | String c s' =>
      let r := rstrip s' in
      if isspace c && is_empty r then EmptyString else String c r
  end.

(** [s.strip()] *)
Definition strip (s : string) : string := rstrip (lstrip s).

Definition upper_char (c : ascii) : ascii :=
  let n := nat_of_ascii c in
  if ((97 <=? n) && (n <=? 122))%nat then ascii_of_nat (n - 32) else c.

(** [s.upper()] *)
Fixpoint upper (s : string) : string :=
  match s with
  | EmptyString => EmptyString
  | String c s' => String (upper_char c) (upper s')
  end.

(** [sep.join(parts)] *)
Fixpoint join (sep : string) (parts : list string) : string :=
  match parts with
  | [] => EmptyString
  | [p] => p
  | p :: rest => p ++ sep ++ join sep rest
  end.

Fixpoint str_firstn (n : nat) (s : string) : string :=
  match n, s with
  | S k, String c s' => String c (str_firstn k s')
  | _, _ => EmptyString
  end.

Fixpoint str_skipn (n : nat) (s : string) : string :=
  match n, s with
  | S k, String _ s' => str_skipn k s'
  | _, _ => s
  end.

(** The index a slice bound [i] stands for in a string of length [n]:
    negative bounds count from the end, and all are clipped to [0..n]. *)
Definition slice_index (n i : Z) : nat :=
  Z.to_nat (Z.min n (if i <? 0 then Z.max 0 (n + i) else i)).

(** [s[:stop]] *)
Definition slice_to (s : string) (stop : Z) : string :=
  str_firstn (slice_index (len s) stop) s.

(** [s[start:]] *)
Definition slice_from (s : string) (start : Z) : string :=
  str_skipn (slice_index (len s) start) s.

(** Index of the last [c] in [s], counted from [i]; [-1] when there is none. *)
Fixpoint rfind_from (c : ascii) (s : string) (i : Z) : Z :=
  match s with
  | EmptyString => -1
  | String d s' =>
      let r := rfind_from c s' (i + 1) in
      if 0 <=? r then r else if Ascii.eqb c d then i else -1
  end.

(** [s.rfind(c, 0, stop)] for a one-character [c] *)
Definition rfind (s : string) (c : ascii) (stop : Z) : Z :=
  rfind_from c (slice_to s stop) 0.

(** [any(d != c for d in s)] *)
Fixpoint any_other (c : ascii) (s : string) : bool :=
  match s with
  | EmptyString => false
  | String d s' => negb (Ascii.eqb d c) || any_other c s'
  end.

(** [s.expandtabs(tabsize)]: [col] is the column counter, reset by a line
    feed or a carriage return. *)
Fixpoint spaces (n : nat) : string :=
  match n with
  | O => EmptyString
  | S k => String " " (spaces k)
  end.

Fixpoint expandtabs_from (tabsize : Z) (col : Z) (s : string) : string :=
  match s with
  | EmptyString => EmptyString
  | String c s' =>
      if Ascii.eqb c "009"
      then
        if 0 <? tabsize
        then let incr := tabsize - col mod tabsize in
             spaces (Z.to_nat incr) ++ expandtabs_from tabsize (col + incr) s'
        else expandtabs_from tabsize col s'
      else
        String c
          (expandtabs_from tabsize
             (if Ascii.eqb c "010" || Ascii.eqb c "013" then 0 else col + 1) s')
  end.

Definition expandtabs (s : string) (tabsize : Z) : string :=
  expandtabs_from tabsize 0 s.

(** *** float: IEEE 754 binary64, as the Standard Library specifies it *)

Definition prec : Z := 53.
Definition emax : Z := 1024.

Definition float := spec_float.

(** [float(z)] as the interpreter converts an [int] operand: rounded to
    nearest even, [OverflowError] beyond the largest float. *)
Definition float_of_int (z : Z) : result float :=
  match binary_normalize prec emax z 0 false with
  | S754_infinity _ => Raise (Exn OverflowError "int too large to convert to float")
  | f => Ok f
  end.

(** [a / b] on two [int]s: the correctly rounded quotient. *)
Definition int_truediv (a b : Z) : result float :=
  if b =? 0 then Raise (Exn ZeroDivisionError "division by zero")
  else
    let s := xorb (a <? 0) (b <? 0) in
    if a =? 0 then Ok (S754_zero s)
    else
      let '(q, e, l) := SFdiv_core_binary prec emax (Z.abs a) 0 (Z.abs b) 0 in
      match binary_round_aux prec emax s q e l with
      | S754_infinity _ =>
          Raise (Exn OverflowError "integer division result too large for a float")
      | f => Ok f
      end.

Definition float_is_zero (x : float) : bool :=
  match x with
  | S754_zero _ => true
  | _ => false
  end.

(** [x * y] on floats *)
Definition float_mul (x y : float) : float := SFmul prec emax x y.

(** [x + y] on floats *)
Definition float_add (x y : float) : float := SFadd prec emax x y.

(** [x / y] on floats *)
Definition float_truediv (x y : float) : result float :=
  if float_is_zero y then Raise (Exn ZeroDivisionError "float division by zero")
  else Ok (SFdiv prec emax x y).

(** [int(x)]: truncation towards zero. *)
Definition int_of_float (x : float) : result Z :=
  match x with
  | S754_zero _ => Ok 0
  | S754_finite s m e =>
      Ok (cond_Zopp s (if 0 <=? e then Z.shiftl (Zpos m) e else Z.shiftr (Zpos m) (- e)))
  | S754_infinity _ => Raise (Exn OverflowError "cannot convert float infinity to integer")
  | S754_nan => Raise (Exn ValueError "cannot convert float NaN to integer")
  end.

(** The literal [0.9]: 0x1.ccccccccccccdp-1 *)
Definition float_0_9 : float := S754_finite false 8106479329266893 (-53).

End Py.

(** ** textwrap.fill

    [textwrap.fill(text, width)] with the default options of [TextWrapper]:
    tabs expanded to 8 columns, whitespace replaced by spaces, long words
    broken, whitespace dropped at line ends, breaks allowed after hyphens,
    no indent, no line limit. *)

Module Textwrap.
Import Py.

(** [_whitespace = '\t\n\x0b\x0c\r '] *)
Definition is_whitespace (c : ascii) : bool :=
  let n := nat_of_ascii c in
  ((9 <=? n) && (n <=? 13) || (n =? 32))%nat.

(** [\w] of the regular expressions, on ASCII *)
Definition is_word_char (c : ascii) : bool :=
  let n := nat_of_ascii c in
  ((48 <=? n) && (n <=? 57) || (65 <=? n) && (n <=? 90)
   || (97 <=? n) && (n <=? 122) || (n =? 95))%nat.

Definition is_digit (c : ascii) : bool :=
  let n := nat_of_ascii c in ((48 <=? n) && (n <=? 57))%nat.

(** [letter = r'[^\d\W]'] *)
Definition is_letter (c : ascii) : bool := is_word_char c && negb (is_digit c).

(** [word_punct]: a word character or one of the marks ! ' & . , ? and the
    double quote *)
Definition is_word_punct (c : ascii) : bool :=
  is_word_char c ||
  existsb (Ascii.eqb c) ["!"; "034"; "'"; "&"; "."; ","; "?"]%char.

Definition is_hyphen (c : ascii) : bool := Ascii.eqb c "-".

(** [text.translate(unicode_whitespace_trans)] *)
Fixpoint translate_whitespace (s : string) : string :=
  match s with
  | EmptyString => EmptyString
  | String c s' =>
      String (if is_whitespace c then " "%char else c) (translate_whitespace s')
  end.

Definition munge_whitespace (text : string) : string :=
  translate_whitespace (expandtabs text 8).

(** *** [wordsep_re.split]

    The expression has three alternatives, tried in this order where a match
    starts: a run of whitespace; a run of two or more hyphens that follows a
    word character or punctuation and precedes a word character; a shortest
    run of non-whitespace that ends after the hyphen of a hyphenated word,
    or before whitespace or the end of the text, or before such a run of
    hyphens.  Each alternative takes one character at least, and the third
    matches wherever a non-whitespace character stands, so the matches tile
    the text and the chunks are the matches.

    [before] is the text to the left of the current position, nearest
    character first (what the look-behinds inspect); [rest] is the text from
    the position on. *)

(** [(?=-{2,}\w)] at a position whose next character is known to be a hyphen
    run: [n] hyphens seen so far. *)
Fixpoint hyphens_then_word (n : nat) (rest : list ascii) : bool :=
  match rest with
  | [] => false
  | c :: rest' =>
      if is_hyphen c then hyphens_then_word (S n) rest'
      else (2 <=? n)%nat && is_word_char c
  end.

(** [(?<=wp) (?=-{2,}\w)] *)
Definition at_em_dash (before rest : list ascii) : bool :=
  match before with
  | b :: _ => is_word_punct b && hyphens_then_word 0 rest
  | [] => false
  end.

(** [-(?: (?<=lt{2}-) | (?<=lt-lt-)) (?= lt -? lt)]: the next character is a
    hyphen, two letters or letter-hyphen-letter stand before it, and a letter
    followed by a letter or by hyphen-letter stands behind it. *)
Definition at_word_hyphen (before rest : list ascii) : bool :=
  match rest with
  | h :: after =>
      is_hyphen h &&
      match before with
      | l1 :: l2 :: more =>
          is_letter l1 &&
          (is_letter l2 ||
           is_hyphen l2 && match more with l3 :: _ => is_letter l3 | [] => false end)
      | _ => false
      end &&
      match after with
      | a1 :: a2 :: more =>
          is_letter a1 &&
          (is_hyphen a2 && match more with a3 :: _ => is_letter a3 | [] => false end
           || is_letter a2)
      | _ => false
      end
  | [] => false
  end.

(** [(?=ws|\Z)] *)
Definition at_word_end (rest : list ascii) : bool :=
  match rest with
  | [] => true
  | c :: _ => is_whitespace c
  end.

(** Which alternative is being matched. *)
Inductive scan :=
| AtStart      (* between two matches *)
| InSpace      (* whitespace run *)
| InDash       (* run of hyphens *)
| InWord       (* non-whitespace run, end not yet found *)
| TakeHyphen.  (* the hyphen of a hyphenated word comes next and ends it *)

(** The alternative that matches where a match starts on character [c]. *)
Definition start_scan (before : list ascii) (c : ascii) (rest' : list ascii) : scan :=
  if is_whitespace c then InSpace
  else if at_em_dash before (c :: rest') then InDash
  else InWord.

(** One pass over the text: [cur] is the match so far, last character first. *)
Fixpoint split_scan (before cur : list ascii) (st : scan) (rest : list ascii)
  : list string :=
  match rest with
  | [] =>
      match cur with
      | [] => []
      | _ => [string_of_list_ascii (rev cur)]
      end
  | c :: rest' =>
      let st1 := match st with AtStart => start_scan before c rest' | _ => st end in
      let before' := c :: before in
      let cur' := c :: cur in
      let st2 :=
        match st1 with
        | InSpace => match rest' with
                     | d :: _ => if is_whitespace d then InSpace else AtStart
                     | [] => AtStart
                     end
        | InDash => match rest' with
                    | d :: _ => if is_hyphen d then InDash else AtStart
                    | [] => AtStart
                    end
        | InWord => if at_word_hyphen before' rest' then TakeHyphen
                    else if at_word_end rest' || at_em_dash before' rest' then AtStart
                    else InWord
        | TakeHyphen => AtStart
        | AtStart => AtStart
        end in
      match st2 with
      | AtStart => string_of_list_ascii (rev cur') :: split_scan before' [] AtStart rest'
      | _ => split_scan before' cur' st2 rest'
      end
  end.

(** [_split(text)] with [break_on_hyphens] true *)
Definition split (text : string) : list string :=
  split_scan [] [] AtStart (list_ascii_of_string text).

Definition split_chunks (text : string) : list string :=
  split (munge_whitespace text).

(** *** [_wrap_chunks]

    [chunks] is the list still to be placed, next chunk first (the script
    reverses the list and pops from its end). *)

(** The inner [while chunks:] loop: chunks are moved to the line while they
    fit. *)
Fixpoint fill_line (width cur_len : Z) (cur_line chunks : list string)
  : list string * Z * list string :=
  match chunks with
  | [] => (cur_line, cur_len, [])
  | c :: rest =>
      let l := len c in
      if cur_len + l <=? width
      then fill_line width (cur_len + l) (cur_line ++ [c])%list rest
      else (cur_line, cur_len, chunks)
  end.

(** [_handle_long_word] with [break_long_words] and [break_on_hyphens] true;
    [chunk] is the chunk that fits on no line. *)
Definition handle_long_word (chunk : string) (rest cur_line : list string)
    (cur_len width : Z) : list string * list string :=
  let space_left := if width <? 1 then 1 else width - cur_len in
  let stop :=
    if space_left <? len chunk
    then
      let hyphen := rfind chunk "-" space_left in
      if (0 <? hyphen) && any_other "-" (slice_to chunk hyphen)
      then hyphen + 1 else space_left
    else space_left in
  ((cur_line ++ [slice_to chunk stop])%list, slice_from chunk stop :: rest).

(** [c.strip() == ''] *)
Definition is_blank (c : string) : bool := is_empty (strip c).

(** [del cur_line[-1]] when the last chunk of the line is blank *)
Definition drop_trailing_blank (cur_line : list string) : list string :=
  match rev cur_line with
  | c :: before => if is_blank c then rev before else cur_line
  | [] => cur_line
  end.

(** The rest of a turn of the outer loop once the inner loop has stopped in
    [state]: a chunk that fits on no line is broken, a blank chunk at the end
    of the line is dropped, and the line, unless it is empty, is joined. *)
Definition end_line (width : Z) (state : list string * Z * list string)
  : option string * list string :=
  let '(cur_line, cur_len, chunks2) := state in
  let '(cur_line1, chunks3) :=
    match chunks2 with
    | c :: rest =>
        if width <? len c then handle_long_word c rest cur_line cur_len width
        else (cur_line, chunks2)
    | [] => (cur_line, chunks2)
    end in
  let cur_line2 := drop_trailing_blank cur_line1 in
  match cur_line2 with
  | [] => (None, chunks3)
  | _ => (Some (join "" cur_line2), chunks3)
  end.

(** One turn of the outer [while chunks:] loop, for a non-empty [chunks]:
    the line it produces, if any, and the chunks left.  A blank chunk is
    dropped at the start of every line but the first. *)
Definition wrap_step (width : Z) (have_lines : bool) (chunks : list string)
  : option string * list string :=
  let chunks1 :=
    match chunks with
    | c :: rest => if is_blank c && have_lines then rest else chunks
    | [] => chunks
    end in
  end_line width (fill_line width 0 [] chunks1).

(** The outer loop; [None] when [fuel] turns do not empty [chunks]. *)
Fixpoint wrap_loop (fuel : nat) (width : Z) (lines chunks : list string)
  : option (list string) :=
  match chunks with
  | [] => Some lines
  | _ :: _ =>
      match fuel with
      | O => None
      | S fuel' =>
          let '(line, chunks') :=
            wrap_step width (negb (match lines with [] => true | _ => false end)) chunks in
          wrap_loop fuel' width
            (match line with Some l => (lines ++ [l])%list | None => lines end) chunks'
      end
  end.

(** Every turn places a chunk or a character of one: this many turns are
    enough. *)
Definition chunks_weight (chunks : list string) : nat :=
  fold_right (fun c n => (S (String.length c) + n)%nat) O chunks.

Definition wrap_chunks (width : Z) (chunks : list string)
  : option (result (list string)) :=
  if width <=? 0
  then Some (Raise (Exn ValueError ("invalid width " ++ repr_int width ++ " (must be > 0)")))
  else option_map Ok (wrap_loop (chunks_weight chunks) width [] chunks).

(** [textwrap.wrap(text, width)] *)
Definition wrap (text : string) (width : Z) : option (result (list string)) :=
  wrap_chunks width (split_chunks text).

(** [textwrap.fill(text, width)]: [None] stands for a call that does not
    return. *)
Definition fill (text : string) (width : Z) : option (result string) :=
  match wrap text width with
  | Some (Ok lines) => Some (Ok (join (String "010" "") lines))
  | Some (Raise e) => Some (Raise e)
  | None => None
  end.

End Textwrap.

(** ** app.py *)

Module App.
Import Py.

(** *** Pillow objects *)

(** A font loaded by [ImageFont.truetype(file, size)]. *)
Record Font := { font_file : string; font_size_px : Z }.

(** One call [draw.text(xy, text, font=, fill=, align=)].  The x coordinate
    is a float and the y coordinate an int in every call of the script. *)
Record text_call := {
  tc_x : float;
  tc_y : Z;
  tc_text : string;
  tc_font : Font;
  tc_fill : string;
  tc_align : string
}.

(** An image: its size and the text drawn onto it since it was opened, in
    drawing order.  Drawing changes the pixels and never the size. *)
Record Image := {
  im_width : Z;
  im_height : Z;
  im_texts : list text_call
}.

(** [(left, top, right, bottom)] *)
Definition bbox := (Z * Z * Z * Z)%type.
Definition bbox_left (b : bbox) : Z := let '(l, _, _, _) := b in l.
Definition bbox_top (b : bbox) : Z := let '(_, t, _, _) := b in t.
Definition bbox_right (b : bbox) : Z := let '(_, _, r, _) := b in r.
Definition bbox_bottom (b : bbox) : Z := let '(_, _, _, b') := b in b'.

(** *** The text-generation pipeline *)

(** The keyword arguments of the call. *)
Record gen_config := {
  max_length : Z;
  num_return_sequences : Z;
  no_repeat_ngram_size : Z;
  num_beams : Z;
  early_stopping : bool
}.

(** A returned sequence is a dict from keys to text. *)
Definition dict := list (string * string).

(** [d[key]] *)
Fixpoint dict_get (d : dict) (key : string) : result string :=
  match d with
  | [] => Raise (Exn KeyError ("'" ++ key ++ "'"))
  | (k, v) :: d' => if String.eqb k key then Ok v else dict_get d' key
  end.

(** [l[0]] *)
Definition first {A : Type} (l : list A) : result A :=
  match l with
  | [] => Raise (Exn IndexError "list index out of range")
  | a :: _ => Ok a
  end.

(** *** The world outside the script *)

Record World := {
  (** [load_model()]: the pipeline, or the exception of a failed load *)
  load_model : result (string -> gen_config -> result (list dict));
  (** [os.listdir] *)
  listdir : string -> result (list string);
  (** [Image.open] *)
  image_open : string -> result Image;
  (** [ImageDraw.Draw] *)
  image_draw : Image -> result unit;
  (** [ImageFont.truetype] *)
  truetype : string -> Z -> result Font;
  (** [font.getbbox] *)
  getbbox : Font -> string -> result bbox;
  (** [draw.textbbox((0, 0), text, font=font)] *)
  textbbox : Image -> string -> Font -> result bbox;
  (** whether a call of [draw.text] raises *)
  text : Image -> text_call -> result unit;
  (** [image.save] *)
  save : Image -> string -> result unit;
  (** [st.image(path)]: Streamlit reads the file and encodes it for the page *)
  show_file : string -> result unit;
  (** [open(path, "rb")] *)
  open_rb : string -> result unit
}.

(** *** Events of a run *)

Inductive event :=
(* calls out of the script *)
| EvGenerate (prompt : string) (cfg : gen_config)
| EvListdir (dir : string)
| EvImageOpen (path : string)
| EvTruetype (file : string) (size : Z)
| EvText (call : text_call)
| EvSave (img : Image) (path : string)
(* Streamlit output *)
| EvTitle (s : string)
| EvMarkdown (s : string)
| EvHeader (s : string)
| EvSubheader (s : string)
| EvSpinner (s : string)
| EvError (msg : string)
| EvWarning (msg : string)
| EvInfo (msg : string)
| EvShowFile (path : string)
| EvShowImage (img : Image)
| EvDownloadButton (label data file_name mime : string).

(** *** Runs: an outcome and the events that led to it *)

Inductive outcome (A : Type) :=
| Ret (a : A)        (* normal completion *)
| Exc (e : exn)      (* an exception propagates *)
| Stopped            (* st.stop() ended the script run *)
| Diverged.          (* no result *)
Arguments Ret {A} a.
Arguments Exc {A} e.
Arguments Stopped {A}.
Arguments Diverged {A}.

Definition M (A : Type) : Type := (outcome A * list event)%type.

Definition ret {A : Type} (a : A) : M A := (Ret a, []).

Definition bind {A B : Type} (m : M A) (k : A -> M B) : M B :=
  match m with
  | (Ret a, t) => let '(r, t') := k a in (r, (t ++ t')%list)
  | (Exc e, t) => (Exc e, t)
  | (Stopped, t) => (Stopped, t)
  | (Diverged, t) => (Diverged, t)
  end.

Notation "x <- m ;; k" := (bind m (fun x => k))
  (at level 61, m at next level, right associativity).
Notation "m ;; k" := (bind m (fun _ => k))
  (at level 61, right associativity).

Definition emit (e : event) : M unit := (Ret tt, [e]).

(** The result of a library call enters the run. *)
Definition lift {A : Type} (r : result A) : M A :=
  match r with
  | Ok a => ret a
  | Raise e => (Exc e, [])
  end.

Definition st_stop {A : Type} : M A := (Stopped, []).

(** [try: body except ...]: [handler e] is the first [except] clause that
    matches [e], or [None] when none does. *)
Definition try_except {A : Type} (body : M A) (handler : exn -> option (M A)) : M A :=
  match body with
  | (Exc e, t) =>
      match handler e with
      | Some h => let '(r, t') := h in (r, (t ++ t')%list)
      | None => (Exc e, t)
      end
  | other => other
  end.

(** *** 1. Setup *)

Definition TEMPLATE_DIR : string := "templates".
Definition FONT_FILE : string := "NotoSans-VariableFont_wdth,wght.ttf".

(** *** 2. Core functions *)

Definition generation_config : gen_config :=
  {| max_length := 50;
     num_return_sequences := 1;
     no_repeat_ngram_size := 2;
     num_beams := 5;
     early_stopping := true |}.

Definition full_prompt (prompt_text : string) : string :=
  "A short, funny meme caption for an image, on the topic of " ++ prompt_text ++ ":".

(** [sequences[0]['generated_text'].replace(full_prompt, "").strip()] *)
Definition clean_up (sequences : list dict) (prompt : string) : result string :=
  match first sequences with
  | Raise e => Raise e
  | Ok d =>
      match dict_get d "generated_text" with
      | Raise e => Raise e
      | Ok raw => Ok (strip (replace raw prompt ""))
      end
  end.

Definition generate_caption
    (text_generator : string -> gen_config -> result (list dict))
    (prompt_text : string) : M string :=
  if is_empty prompt_text then ret "Please enter a topic!"
  else
    let full_prompt := full_prompt prompt_text in
    try_except
      (emit (EvGenerate full_prompt generation_config) ;;
       sequences <- lift (text_generator full_prompt generation_config) ;;
       generated_text <- lift (clean_up sequences full_prompt) ;;
       ret (if is_empty generated_text then "AI could not generate a caption."
            else generated_text))
      (fun e =>
         Some (emit (EvError ("Error during AI caption generation: " ++ exn_msg e)) ;;
               ret "Error generating text.")).

(** [int(image_width / 18)] *)
Definition font_size (image_width : Z) : result Z :=
  match int_truediv image_width 18 with
  | Ok q => int_of_float q
  | Raise e => Raise e
  end.

Definition alphabet : list string :=
  ["A"; "B"; "C"; "D"; "E"; "F"; "G"; "H"; "I"; "J"; "K"; "L"; "M";
   "N"; "O"; "P"; "Q"; "R"; "S"; "T"; "U"; "V"; "W"; "X"; "Y"; "Z"].

(** [sum(font.getbbox(char)[2] for char in chars)], from the start value
    [acc] *)
Fixpoint sum_right (w : World) (font : Font) (chars : list string) (acc : Z)
  : result Z :=
  match chars with
  | [] => Ok acc
  | char :: chars' =>
      match getbbox w font char with
      | Ok b => sum_right w font chars' (acc + bbox_right b)
      | Raise e => Raise e
      end
  end.

(** [sum(font.getbbox(char)[2] for char in 'ABC...Z') / 26] *)
Definition avg_char_width (w : World) (font : Font) : result float :=
  match sum_right w font alphabet 0 with
  | Ok total => int_truediv total 26
  | Raise e => Raise e
  end.

(** [int(image_width * 0.9 / avg_char_width)] *)
Definition chars_per_line (image_width : Z) (avg_char_width : float) : result Z :=
  match float_of_int image_width with
  | Raise e => Raise e
  | Ok fw =>
      match float_truediv (float_mul fw float_0_9) avg_char_width with
      | Raise e => Raise e
      | Ok q => int_of_float q
      end
  end.

(** [textwrap.fill(top_text.upper(), width=chars_per_line)] *)
Definition wrapped_text (top_text : string) (chars_per_line : Z) : M string :=
  match Textwrap.fill (upper top_text) chars_per_line with
  | Some r => lift r
  | None => (Diverged, [])
  end.

(** [(image_width - text_width) / 2] *)
Definition position_x (image_width text_width : Z) : result float :=
  int_truediv (image_width - text_width) 2.

Definition position_y : Z := 15.

(** [position_x + dx] *)
Definition shift_x (position_x : float) (dx : Z) : result float :=
  match float_of_int dx with
  | Ok d => Ok (float_add position_x d)
  | Raise e => Raise e
  end.

Definition outline_offsets : list (Z * Z) := [(-2, -2); (-2, 2); (2, -2); (2, 2)].

(** [draw.text(...)]: the call is recorded, and the text is on the image
    unless the call raises. *)
Definition draw_text (w : World) (img : Image) (call : text_call) : M Image :=
  emit (EvText call) ;;
  lift (text w img call) ;;
  ret {| im_width := im_width img;
         im_height := im_height img;
         im_texts := (im_texts img ++ [call])%list |}.

(** The [for dx, dy in ...] loop of the outline. *)
Fixpoint draw_outline (w : World) (img : Image) (x : float) (y : Z)
    (wrapped : string) (font : Font) (offsets : list (Z * Z)) : M Image :=
  match offsets with
  | [] => ret img
  | (dx, dy) :: offsets' =>
      x' <- lift (shift_x x dx) ;;
      img' <- draw_text w img
                {| tc_x := x'; tc_y := y + dy; tc_text := wrapped;
                   tc_font := font; tc_fill := "black"; tc_align := "center" |} ;;
      draw_outline w img' x y wrapped font offsets'
  end.

(** The [try] block of [create_image_with_text]. *)
Definition overlay (w : World) (template_path top_text : string)
  : M (option Image) :=
  emit (EvImageOpen template_path) ;;
  img <- lift (image_open w template_path) ;;
  lift (image_draw w img) ;;
  let image_width := im_width img in
  font_size <- lift (font_size image_width) ;;
  loaded <- try_except
              (emit (EvTruetype FONT_FILE font_size) ;;
               font <- lift (truetype w FONT_FILE font_size) ;;
               ret (Some font))
              (fun e =>
                 if is_OSError e
                 then Some (emit (EvError ("Font file '" ++ FONT_FILE ++
                              "' not found. Please ensure it's in your project folder.")) ;;
                            ret None)
                 else None) ;;
  match loaded with
  | None => ret None
  | Some font =>
      avg_char_width <- lift (avg_char_width w font) ;;
      chars_per_line <- lift (chars_per_line image_width avg_char_width) ;;
      wrapped_text <- wrapped_text top_text chars_per_line ;;
      text_bbox <- lift (textbbox w img wrapped_text font) ;;
      let text_width := bbox_right text_bbox - bbox_left text_bbox in
      position_x <- lift (position_x image_width text_width) ;;
      img1 <- draw_outline w img position_x position_y wrapped_text font
                outline_offsets ;;
      img2 <- draw_text w img1
                {| tc_x := position_x; tc_y := position_y; tc_text := wrapped_text;
                   tc_font := font; tc_fill := "white"; tc_align := "center" |} ;;
      ret (Some img2)
  end.

Definition create_image_with_text (w : World) (template_path top_text : string)
  : M (option Image) :=
  try_except
    (overlay w template_path top_text)
    (fun e =>
       if is_FileNotFoundError e
       then Some (emit (EvError ("Template image not found at " ++ template_path)) ;;
                  ret None)
       else Some (emit (EvError ("An error occurred during image creation: " ++ exn_msg e)) ;;
                  ret None)).

(** *** 3. Streamlit UI *)

(** What the user has entered when the script runs: the index chosen in the
    select box, the topic typed, and whether the button was clicked. *)
Record UI := {
  ui_template : nat;
  ui_prompt : string;
  ui_generate_button : bool
}.

(** Lines 21-25: the model is loaded, or the run stops with an error. *)
Definition startup_model (w : World)
  : M (string -> gen_config -> result (list dict)) :=
  match load_model w with
  | Ok text_generator => ret text_generator
  | Raise e =>
      emit (EvError ("Failed to load the model. Please check your internet connection. Error: "
                     ++ exn_msg e)) ;;
      st_stop
  end.

(** Lines 115-122: the list of templates, or the run stops with an error. *)
Definition templates (w : World) : M (list string) :=
  try_except
    (emit (EvListdir TEMPLATE_DIR) ;;
     names <- lift (listdir w TEMPLATE_DIR) ;;
     let templates := filter (fun f => endswith_any f ["png"; "jpg"; "jpeg"]) names in
     match templates with
     | [] =>
         emit (EvError ("No templates found in the '" ++ TEMPLATE_DIR ++
                        "' folder. Please add some images.")) ;;
         st_stop
     | _ => ret templates
     end)
    (fun e =>
       if is_FileNotFoundError e
       then Some (emit (EvError ("The '" ++ TEMPLATE_DIR ++
                    "' folder was not found. Please create it and add image templates.")) ;;
                  st_stop)
       else None).

(** [st.selectbox(label, options)]: the option chosen, the first one by
    default. *)
Definition selectbox (options : list string) (chosen : nat) : string :=
  nth chosen options (hd "" options).

(** [os.path.join(TEMPLATE_DIR, name)] for a file name of the directory *)
Definition path_join (dir name : string) : string := dir ++ "/" ++ name.

(** [caption and "Error" not in caption] *)
Definition caption_ok (caption : string) : bool :=
  negb (is_empty caption) && negb (str_contains "Error" caption).

(** Lines 143-166: the branch taken when the button has been clicked. *)
Definition generate_clicked
    (w : World) (text_generator : string -> gen_config -> result (list dict))
    (template_path prompt : string) : M unit :=
  emit (EvSpinner "AI is thinking...") ;;
  caption <- generate_caption text_generator prompt ;;
  if caption_ok caption
  then
    final_image <- create_image_with_text w template_path caption ;;
    match final_image with
    | Some img =>
        emit (EvShowImage img) ;;
        emit (EvSave img "meme_output.png") ;;
        lift (save w img "meme_output.png") ;;
        lift (open_rb w "meme_output.png") ;;
        emit (EvDownloadButton "Download Meme" "meme_output.png" "ai_meme.png" "image/png")
    | None => emit (EvWarning "Could not generate the final image.")
    end
  else emit (EvError caption).

(** One run of the script.  The emoji of the title, the header and the
    spinner text are left out of the strings. *)
Definition script (w : World) (ui : UI) : M unit :=
  text_generator <- startup_model w ;;
  emit (EvTitle "AI Meme & Poster Creator") ;;
  emit (EvMarkdown "Create fun content in seconds. Just choose a template, enter a topic, and let the AI do the work!") ;;
  templates <- templates w ;;
  emit (EvHeader "Controls") ;;
  let selected_template := selectbox templates (ui_template ui) in
  let prompt := ui_prompt ui in
  let generate_button := ui_generate_button ui in
  emit (EvSubheader "Template") ;;
  let template_path := path_join TEMPLATE_DIR selected_template in
  emit (EvShowFile template_path) ;;
  lift (show_file w template_path) ;;
  emit (EvSubheader "Your AI-Generated Meme") ;;
  if generate_button
  then generate_clicked w text_generator template_path prompt
  else emit (EvInfo "Click the 'Generate Meme!' button to create your masterpiece.").

End App.

(** ** Observations on runs, and the wrap the specification describes *)

Module Obs.
Import Py App.

Definition is_generate (e : event) : bool :=
  match e with EvGenerate _ _ => true | _ => false end.

Definition is_image_open (e : event) : bool :=
  match e with EvImageOpen _ => true | _ => false end.

Definition is_truetype (e : event) : bool :=
  match e with EvTruetype _ _ => true | _ => false end.

Definition is_shown (e : event) : bool :=
  match e with EvShowFile _ | EvShowImage _ => true | _ => false end.

(** How often the text-generation pipeline was called. *)
Definition generator_calls (t : list event) : nat :=
  List.length (filter is_generate t).

(** How often the font was loaded. *)
Definition font_loads (t : list event) : nat :=
  List.length (filter is_truetype t).

(** The renderer opens the template before anything else and nothing else
    in the script opens an image: the renderer was invoked in a run exactly
    when the run has an [EvImageOpen]. *)
Definition renderer_invoked (t : list event) : bool := existsb is_image_open t.

(** What the page displays as images, in order. *)
Definition shown (t : list event) : list event := filter is_shown t.

(** The [draw.text] calls of a run, in order. *)
Fixpoint text_calls (t : list event) : list text_call :=
  match t with
  | [] => []
  | EvText c :: t' => c :: text_calls t'
  | _ :: t' => text_calls t'
  end.

(** A run settles when it ends in a value or in an exception. *)
Definition settles {A : Type} (m : M A) : Prop :=
  match fst m with
  | Ret _ | Exc _ => True
  | Stopped | Diverged => False
  end.

(** The name ends with png, jpg or jpeg. *)
Definition image_suffix (f : string) : Prop :=
  exists p, f = p ++ "png" \/ f = p ++ "jpg" \/ f = p ++ "jpeg".

(** [sub] occurs in [s]. *)
Definition has_substring (sub s : string) : Prop := exists a b, s = a ++ sub ++ b.

(** [ts] is [names] without the names that do not satisfy [P]: the names
    kept stand in the order, and as many times, as in [names]. *)
Inductive selection (P : string -> Prop) : list string -> list string -> Prop :=
| selection_nil : selection P [] []
| selection_keep (f : string) (names ts : list string) :
    P f -> selection P names ts -> selection P (f :: names) (f :: ts)
| selection_drop (f : string) (names ts : list string) :
    ~ P f -> selection P names ts -> selection P (f :: names) ts.


(** A [draw.text] call of the renderer: centre-aligned text at [(x, y)]. *)
Definition caption_call (x : float) (y : Z) (wrapped : string) (font : Font)
    (fill : string) : text_call :=
  {| tc_x := x; tc_y := y; tc_text := wrapped; tc_font := font;
     tc_fill := fill; tc_align := "center" |}.

(** *** Greedy line fill with whole words, in the words of the specification:
    words are accumulated onto the current line while it fits, else a new
    line starts.  [cur] is the current line, which holds a word already. *)
Fixpoint greedy_lines (width : Z) (cur : string) (words : list string)
  : list string :=
  match words with
  | [] => [cur]
  | w :: words' =>
      if len cur + 1 + len w <=? width
      then greedy_lines width (cur ++ " " ++ w) words'
      else cur :: greedy_lines width w words'
  end.

Definition greedy_fill (words : list string) (width : Z) : string :=
  match words with
  | [] => ""
  | w :: words' => join (String "010" "") (greedy_lines width w words')
  end.

(** The words of a text: its maximal runs of non-whitespace.  [cur] is the
    word being read, last character first. *)
Fixpoint words_scan (cur : list ascii) (s : string) : list string :=
  match s with
  | EmptyString =>
      match cur with
      | [] => []
      | _ => [string_of_list_ascii (rev cur)]
      end
  | String c s' =>
      if isspace c
      then match cur with
           | [] => words_scan [] s'
           | _ => string_of_list_ascii (rev cur) :: words_scan [] s'
           end
      else words_scan (c :: cur) s'
  end.

(** [text.split()] *)
Definition words (text : string) : list string := words_scan [] text.

(** A character that is neither whitespace nor a hyphen. *)
Definition plain_char (c : ascii) : bool :=
  negb (isspace c) && negb (Textwrap.is_hyphen c).

Fixpoint forall_chars (p : ascii -> bool) (s : string) : bool :=
  match s with
  | EmptyString => true
  | String c s' => p c && forall_chars p s'
  end.

(** A non-empty word without whitespace and without hyphens. *)
Definition plain_word (w : string) : bool :=
  negb (is_empty w) && forall_chars plain_char w.

(** A character of a text made of plain words and single spaces. *)
Definition spaced_char (c : ascii) : bool := plain_char c || Ascii.eqb c " ".

(** The chunks of words joined by single spaces, behind the first word. *)
Definition spaced (words : list string) : list string :=
  flat_map (fun v => [" "; v]) words.

Definition plain_chars (u : list ascii) : Prop :=
  Forall (fun c => plain_char c = true) u.

(** A plain word that fits a line of [width] characters. *)
Definition fits (width : Z) (w : string) : Prop :=
  plain_word w = true /\ len w <= width.

(** The second half of the rounding of a float operation, [binary_round_aux]
    of the Standard Library: a mantissa that rounding has made one bit too
    long is shifted, and the float is built. *)
Definition renormalize (m1 e1 : Z) : spec_float :=
  let '(mrs, e) := shr_fexp prec emax m1 e1 loc_Exact in
  match shr_m mrs with
  | Z0 => S754_zero false
  | Zpos m => if e <=? emax - prec then S754_finite false m e else S754_infinity false
  | Zneg _ => S754_nan
  end.

(** The sum of the right edges of a list of boxes. *)
Definition sum_of_rights (boxes : list bbox) : Z :=
  fold_right (fun b n => bbox_right b + n) 0 boxes.

(** Whether an event is an error banner, and how many a run shows. *)
Definition is_error (e : event) : bool :=
  match e with EvError _ => true | _ => false end.

Definition error_count (t : list event) : nat := List.length (filter is_error t).

Definition is_save (e : event) : bool :=
  match e with EvSave _ _ => true | _ => false end.

(** A text without its whitespace characters. *)
Fixpoint drop_spaces (s : string) : string :=
  match s with
  | EmptyString => EmptyString
  | String c s' => if isspace c then drop_spaces s' else String c (drop_spaces s')
  end.

(** An ASCII lower-case letter. *)
Definition is_lower (c : ascii) : bool :=
  let n := nat_of_ascii c in ((97 <=? n) && (n <=? 122))%nat.

(** The number of characters of a list of chunks. *)
Definition total_len (chunks : list string) : Z :=
  fold_right (fun c n => len c + n) 0 chunks.

End Obs.

(** ** Concrete worlds, for running the script *)

Module Demo.
Import Py App.

(** A pipeline that echoes the prompt and continues it. *)
Definition echo_generator (continuation : string)
  : string -> gen_config -> result (list dict) :=
  fun prompt _ => Ok [[("generated_text", prompt ++ continuation)]].

(** A pipeline that fails. *)
Definition failing_generator : string -> gen_config -> result (list dict) :=
  fun _ _ => Raise (Exn RuntimeError "CUDA out of memory").

(** A pipeline whose continuation is the prompt with the prompt inside it,
    after its first character. *)
Definition nesting_generator : string -> gen_config -> result (list dict) :=
  fun prompt _ =>
    Ok [[("generated_text",
          prompt ++ str_firstn 1 prompt ++ prompt ++ str_skipn 1 prompt)]].

(** A monospaced font: every glyph is 6/10 of the font size wide. *)
Definition glyph_width (font : Font) : Z := font_size_px font * 6 / 10.

(** A world with one 800x600 template behind every path, the font present,
    and three files in the template directory. *)
Definition world (generator : string -> gen_config -> result (list dict)) : World :=
  {| load_model := Ok generator;
     listdir := fun _ => Ok ["drake.png"; "notes.txt"; "cat.jpeg"; "README"];
     image_open := fun _ => Ok {| im_width := 800; im_height := 600; im_texts := [] |};
     image_draw := fun _ => Ok tt;
     truetype := fun file size => Ok {| font_file := file; font_size_px := size |};
     getbbox := fun font s => Ok (0, 0, glyph_width font * len s, font_size_px font);
     textbbox := fun _ s font => Ok (0, 10, glyph_width font * len s, 10 + font_size_px font);
     text := fun _ _ => Ok tt;
     save := fun _ _ => Ok tt;
     show_file := fun _ => Ok tt;
     open_rb := fun _ => Ok tt |}.

Definition coffee_world : World := world (echo_generator " coffee is my lifeline").

(** The same world without the font file. *)
Definition no_font_world : World :=
  {| load_model := load_model coffee_world;
     listdir := listdir coffee_world;
     image_open := image_open coffee_world;
     image_draw := image_draw coffee_world;
     truetype := fun _ _ => Raise (Exn OSError "cannot open resource");
     getbbox := getbbox coffee_world;
     textbbox := textbbox coffee_world;
     text := text coffee_world;
     save := save coffee_world;
     show_file := show_file coffee_world;
     open_rb := open_rb coffee_world |}.

(** The same world with a template 40 pixels wide, whose glyphs are 60 wide:
    no character fits a line. *)
Definition narrow_world : World :=
  {| load_model := load_model coffee_world;
     listdir := listdir coffee_world;
     image_open := fun _ => Ok {| im_width := 40; im_height := 30; im_texts := [] |};
     image_draw := image_draw coffee_world;
     truetype := truetype coffee_world;
     getbbox := fun _ _ => Ok (0, 0, 60, 60);
     textbbox := textbbox coffee_world;
     text := text coffee_world;
     save := save coffee_world;
     show_file := show_file coffee_world;
     open_rb := open_rb coffee_world |}.

(** The same world with an empty template directory, and without one. *)
Definition empty_dir_world : World :=
  {| load_model := load_model coffee_world;
     listdir := fun _ => Ok ["notes.txt"; "photo.PNG"];
     image_open := image_open coffee_world;
     image_draw := image_draw coffee_world;
     truetype := truetype coffee_world;
     getbbox := getbbox coffee_world;
     textbbox := textbbox coffee_world;
     text := text coffee_world;
     save := save coffee_world;
     show_file := show_file coffee_world;
     open_rb := open_rb coffee_world |}.

Definition no_dir_world : World :=
  {| load_model := load_model coffee_world;
     listdir := fun _ => Raise (Exn FileNotFoundError
                  "[Errno 2] No such file or directory: 'templates'");
     image_open := image_open coffee_world;
     image_draw := image_draw coffee_world;
     truetype := truetype coffee_world;
     getbbox := getbbox coffee_world;
     textbbox := textbbox coffee_world;
     text := text coffee_world;
     save := save coffee_world;
     show_file := show_file coffee_world;
     open_rb := open_rb coffee_world |}.

(** The meme of the coffee world for the caption "coffee is my lifeline". *)
Definition coffee_run : M (option Image) :=
  Eval vm_compute in
    create_image_with_text coffee_world "templates/drake.png" "coffee is my lifeline".

Definition blank_image : Image := {| im_width := 0; im_height := 0; im_texts := [] |}.

Definition coffee_meme : Image :=
  match fst coffee_run with
  | Ret (Some img) => img
  | _ => blank_image
  end.

(** The run of the coffee world for a caption of one word of 34 letters,
    longer than the 27 characters of a line. *)
Definition long_word : string := "supercalifragilisticexpialidocious".

Definition long_word_run : M (option Image) :=
  Eval vm_compute in
    create_image_with_text coffee_world "templates/drake.png" long_word.

Definition long_word_meme : Image :=
  match fst long_word_run with
  | Ret (Some img) => img
  | _ => blank_image
  end.

Definition click (topic : string) : UI :=
  {| ui_template := 0; ui_prompt := topic; ui_generate_button := true |}.

(** Pipelines that return no sequence, a sequence without the text, the
    prompt followed by blanks only, and a text without the prompt. *)
Definition empty_generator : string -> gen_config -> result (list dict) :=
  fun _ _ => Ok [].

Definition keyless_generator : string -> gen_config -> result (list dict) :=
  fun _ _ => Ok [[("text", "so true")]].

Definition plain_generator : string -> gen_config -> result (list dict) :=
  fun _ _ => Ok [[("generated_text", "  so true  ")]].

(** The coffee world with one capability replaced by a failing one: the model
    cannot be downloaded; the template directory cannot be read; the template
    has been removed; the rendered image cannot be written. *)
Definition offline_world : World :=
  {| load_model := Raise (Exn OSError "We couldn't connect to 'https://huggingface.co'");
     listdir := listdir coffee_world;
     image_open := image_open coffee_world;
     image_draw := image_draw coffee_world;
     truetype := truetype coffee_world;
     getbbox := getbbox coffee_world;
     textbbox := textbbox coffee_world;
     text := text coffee_world;
     save := save coffee_world;
     show_file := show_file coffee_world;
     open_rb := open_rb coffee_world |}.

Definition locked_dir_world : World :=
  {| load_model := load_model coffee_world;
     listdir := fun _ => Raise (Exn OSError "[Errno 13] Permission denied: 'templates'");
     image_open := image_open coffee_world;
     image_draw := image_draw coffee_world;
     truetype := truetype coffee_world;
     getbbox := getbbox coffee_world;
     textbbox := textbbox coffee_world;
     text := text coffee_world;
     save := save coffee_world;
     show_file := show_file coffee_world;
     open_rb := open_rb coffee_world |}.

Definition no_template_world : World :=
  {| load_model := load_model coffee_world;
     listdir := listdir coffee_world;
     image_open := fun path =>
       Raise (Exn FileNotFoundError ("[Errno 2] No such file or directory: '" ++ path ++ "'"));
     image_draw := image_draw coffee_world;
     truetype := truetype coffee_world;
     getbbox := getbbox coffee_world;
     textbbox := textbbox coffee_world;
     text := text coffee_world;
     save := save coffee_world;
     show_file := show_file coffee_world;
     open_rb := open_rb coffee_world |}.

Definition full_disk_world : World :=
  {| load_model := load_model coffee_world;
     listdir := listdir coffee_world;
     image_open := image_open coffee_world;
     image_draw := image_draw coffee_world;
     truetype := truetype coffee_world;
     getbbox := getbbox coffee_world;
     textbbox := textbbox coffee_world;
     text := text coffee_world;
     save := fun _ _ => Raise (Exn OSError "[Errno 28] No space left on device");
     show_file := show_file coffee_world;
     open_rb := open_rb coffee_world |}.

(** The coffee world with a font whose glyphs have no width. *)
Definition zero_width_world : World :=
  {| load_model := load_model coffee_world;
     listdir := listdir coffee_world;
     image_open := image_open coffee_world;
     image_draw := image_draw coffee_world;
     truetype := truetype coffee_world;
     getbbox := fun _ _ => Ok (0, 0, 0, 0);
     textbbox := textbbox coffee_world;
     text := text coffee_world;
     save := save coffee_world;
     show_file := show_file coffee_world;
     open_rb := open_rb coffee_world |}.

(** The coffee world with template files that Streamlit cannot read as
    images. *)
Definition unshowable_world : World :=
  {| load_model := load_model coffee_world;
     listdir := listdir coffee_world;
     image_open := image_open coffee_world;
     image_draw := image_draw coffee_world;
     truetype := truetype coffee_world;
     getbbox := getbbox coffee_world;
     textbbox := textbbox coffee_world;
     text := text coffee_world;
     save := save coffee_world;
     show_file := fun path =>
       Raise (Exn OSError ("cannot identify image file '" ++ path ++ "'"));
     open_rb := open_rb coffee_world |}.

(** A run in which the button has not been clicked. *)
Definition idle (topic : string) : UI :=
  {| ui_template := 1; ui_prompt := topic; ui_generate_button := false |}.

(** The average glyph width of the coffee world: 26 at font size 44. *)
Definition coffee_avg : float :=
  match avg_char_width coffee_world {| font_file := FONT_FILE; font_size_px := 44 |} with
  | Ok a => a
  | Raise _ => S754_zero false
  end.

End Demo.

(** ** Properties *)

Import Py App Obs.

(** Proof steps for runs of the renderer: [run_in] evaluates the run in a
    hypothesis as far as the next library call; [fails_in] closes a branch
    in which a call has raised, so that the run cannot have returned an
    image; [step] splits on the result of the next call. *)
Ltac run_in H :=
  cbn [bind lift emit ret try_except draw_text draw_outline outline_offsets] in H.

Ltac fails_in H :=
  repeat match type of H with
         | context [is_FileNotFoundError ?e] => destruct (is_FileNotFoundError e); run_in H
         | context [is_OSError ?e] => destruct (is_OSError e); run_in H
         end;
  discriminate H.

Ltac step H r x := destruct r as [x | ?] eqn:?; run_in H; [| fails_in H].

(** *** Runs *)

Lemma bind_emit {B : Type} (e : event) (k : unit -> M B) :
  bind (emit e) k = (fst (k tt), e :: snd (k tt)).
Proof.
  unfold bind, emit. destruct (k tt). reflexivity.
Qed.

(** *** Caption generator *)

(** C3: for the empty topic, [generate_caption] returns the fixed message
    that asks for a topic, and the run has no event at all: the
    text-generation pipeline is called zero times, whatever it is. *)
Theorem empty_topic_no_model_call
    (text_generator : string -> gen_config -> result (list dict)) :
  generate_caption text_generator "" = (Ret "Please enter a topic!", []) /\
  generator_calls (snd (generate_caption text_generator "")) = 0%nat.
Proof.
  split; reflexivity.
Qed.

(** C5: for a non-empty topic on which the pipeline raises, [generate_caption]
    returns "Error generating text.", shows the failure with [st.error], and
    has called the pipeline exactly once. *)
Theorem generation_failure_no_retry
    (text_generator : string -> gen_config -> result (list dict))
    (topic : string) (e : exn) :
  topic <> "" ->
  text_generator (full_prompt topic) generation_config = Raise e ->
  generate_caption text_generator topic =
    (Ret "Error generating text.",
     [EvGenerate (full_prompt topic) generation_config;
      EvError ("Error during AI caption generation: " ++ exn_msg e)]) /\
  generator_calls (snd (generate_caption text_generator topic)) = 1%nat.
Proof.
  intros Hne Hraise.
  assert (Hrun : generate_caption text_generator topic =
    (Ret "Error generating text.",
     [EvGenerate (full_prompt topic) generation_config;
      EvError ("Error during AI caption generation: " ++ exn_msg e)])).
  { unfold generate_caption.
    destruct topic as [| c topic']; [congruence |].
    cbn [is_empty]. rewrite bind_emit. rewrite Hraise. reflexivity. }
  split; [exact Hrun | rewrite Hrun; reflexivity].
Qed.

Lemma generation_failure_no_retry_witness :
  "cats" <> "" /\
  generate_caption Demo.failing_generator "cats" =
    (Ret "Error generating text.",
     [EvGenerate (full_prompt "cats") generation_config;
      EvError "Error during AI caption generation: CUDA out of memory"]).
Proof.
  split; [discriminate |].
  apply (generation_failure_no_retry Demo.failing_generator "cats"
           (Exn RuntimeError "CUDA out of memory")); [discriminate | reflexivity].
Defined.

(** *** Strings *)

Lemma append_empty_r (s : string) : s ++ "" = s.
Proof.
  induction s as [| c s IH]; simpl; [reflexivity | now rewrite IH].
Qed.

Lemma append_assoc (a b c : string) : (a ++ b) ++ c = a ++ (b ++ c).
Proof.
  induction a as [| x a IH]; simpl; [reflexivity | now rewrite IH].
Qed.

Lemma prefix_append (a b : string) : String.prefix a (a ++ b) = true.
Proof.
  induction a as [| x a IH]; simpl.
  - now destruct b.
  - destruct (ascii_dec x x) as [_ | Hne]; [exact IH | now elim Hne].
Qed.

Lemma prefix_split (a s : string) :
  String.prefix a s = true -> exists b, s = a ++ b.
Proof.
  revert s. induction a as [| x a IH]; intros s H.
  - exists s. reflexivity.
  - destruct s as [| y s]; simpl in H; [discriminate |].
    destruct (ascii_dec x y) as [-> | _]; [| discriminate].
    destruct (IH s H) as [b ->]. exists b. reflexivity.
Qed.

Lemma str_rev_onto_spec (s acc : string) :
  str_rev_onto s acc = str_rev s ++ acc.
Proof.
  unfold str_rev. revert acc.
  induction s as [| c s IH]; intros acc; simpl; [reflexivity |].
  rewrite IH, (IH (String c "")), append_assoc. reflexivity.
Qed.

Lemma str_rev_append (a b : string) : str_rev (a ++ b) = str_rev b ++ str_rev a.
Proof.
  induction a as [| x a IH]; simpl.
  - now rewrite append_empty_r.
  - change (str_rev (String x (a ++ b))) with (str_rev_onto (a ++ b) (String x "")).
    change (str_rev (String x a)) with (str_rev_onto a (String x "")).
    rewrite !str_rev_onto_spec, IH, append_assoc. reflexivity.
Qed.

Lemma str_rev_involutive (s : string) : str_rev (str_rev s) = s.
Proof.
  induction s as [| c s IH]; [reflexivity |].
  change (String c s) with (String c "" ++ s) at 1.
  rewrite str_rev_append, str_rev_append, IH. reflexivity.
Qed.

(** [endswith] is the suffix relation on strings; characters are compared as
    they are, so the match is case-sensitive. *)
Lemma endswith_iff (s suffix : string) :
  endswith s suffix = true <-> exists p, s = p ++ suffix.
Proof.
  unfold endswith. split.
  - intros H. apply prefix_split in H as [b Hb].
    exists (str_rev b).
    rewrite <- (str_rev_involutive s), Hb, str_rev_append, str_rev_involutive.
    reflexivity.
  - intros [p ->]. rewrite str_rev_append. apply prefix_append.
Qed.

(** *** Template catalog *)

Lemma endswith_any_image (f : string) :
  endswith_any f ["png"; "jpg"; "jpeg"] = true <-> image_suffix f.
Proof.
  unfold endswith_any, image_suffix. simpl. rewrite !orb_true_iff, !endswith_iff.
  split.
  - intros [[p H] | [[p H] | [[p H] | H]]]; try discriminate; exists p; auto.
  - intros [p [H | [H | H]]]; [left | right; left | right; right; left]; exists p; exact H.
Qed.

Lemma templates_run (w : World) :
  templates w =
    match listdir w TEMPLATE_DIR with
    | Ok names =>
        match filter (fun f => endswith_any f ["png"; "jpg"; "jpeg"]) names with
        | [] => (Stopped,
                 [EvListdir TEMPLATE_DIR;
                  EvError "No templates found in the 'templates' folder. Please add some images."])
        | ts => (Ret ts, [EvListdir TEMPLATE_DIR])
        end
    | Raise e =>
        if is_FileNotFoundError e
        then (Stopped,
              [EvListdir TEMPLATE_DIR;
               EvError "The 'templates' folder was not found. Please create it and add image templates."])
        else (Exc e, [EvListdir TEMPLATE_DIR])
    end.
Proof.
  unfold templates. rewrite bind_emit.
  destruct (listdir w TEMPLATE_DIR) as [names | e]; simpl.
  - destruct (filter _ names); reflexivity.
  - destruct (is_FileNotFoundError e); reflexivity.
Qed.

Lemma filter_selection (names : list string) :
  selection image_suffix names
    (filter (fun f => endswith_any f ["png"; "jpg"; "jpeg"]) names).
Proof.
  induction names as [| f names IH]; [constructor |].
  cbn [filter]. destruct (endswith_any f ["png"; "jpg"; "jpeg"]) eqn:Hf.
  - apply selection_keep; [apply endswith_any_image; exact Hf | exact IH].
  - apply selection_drop; [| exact IH].
    intros Hsuf. apply endswith_any_image in Hsuf. congruence.
Qed.

(** A directory with an image name in it gives a catalog, and the script
    goes on to the controls. *)
Lemma templates_keep_images (w : World) (names : list string) :
  listdir w TEMPLATE_DIR = Ok names ->
  (exists f, In f names /\ image_suffix f) ->
  exists ts,
    templates w = (Ret ts, [EvListdir TEMPLATE_DIR]) /\
    selection image_suffix names ts /\
    forall ui text_generator,
      load_model w = Ok text_generator ->
      In (EvHeader "Controls") (snd (script w ui)).
Proof.
  intros Hdir (f & Hin & Hsuf).
  assert (Hkept : In f (filter (fun f => endswith_any f ["png"; "jpg"; "jpeg"]) names))
    by (apply filter_In; split; [exact Hin | apply endswith_any_image; exact Hsuf]).
  assert (Hrun : templates w =
                 (Ret (filter (fun f => endswith_any f ["png"; "jpg"; "jpeg"]) names),
                  [EvListdir TEMPLATE_DIR])).
  { rewrite templates_run, Hdir.
    destruct (filter _ names) as [| g gs]; [contradiction | reflexivity]. }
  eexists. split; [exact Hrun |]. split; [apply filter_selection |].
  intros ui text_generator Hload. unfold script, startup_model.
  rewrite Hload. cbn [bind ret]. rewrite !bind_emit, Hrun. cbn [bind fst snd app].
  rewrite !bind_emit. cbn [fst snd].
  right. right. right. left. reflexivity.
Qed.

(** C9: the catalog holds exactly the names of the template directory that
    end with png, jpg or jpeg, compared as they are, in directory order:
    when one name at least ends so, the listing returns them and the script
    goes on to the controls; when no name does, and when the directory does
    not exist, the run shows an error and stops there; a run whose catalog
    stops never reaches the controls, the caption generator or the
    renderer, so the script goes on with one template at least. *)
Theorem template_catalog (w : World) :
  (forall ts t, templates w = (Ret ts, t) ->
     ts <> [] /\
     exists names, listdir w TEMPLATE_DIR = Ok names /\
       ts = filter (fun f => endswith_any f ["png"; "jpg"; "jpeg"]) names /\
       forall f, In f ts <-> In f names /\ image_suffix f) /\
  (forall names, listdir w TEMPLATE_DIR = Ok names ->
     (exists f, In f names /\ image_suffix f) ->
     exists ts,
       templates w = (Ret ts, [EvListdir TEMPLATE_DIR]) /\
       selection image_suffix names ts /\
       forall ui text_generator,
         load_model w = Ok text_generator ->
         In (EvHeader "Controls") (snd (script w ui))) /\
  (forall names, listdir w TEMPLATE_DIR = Ok names ->
     (forall f, In f names -> ~ image_suffix f) ->
     templates w =
       (Stopped,
        [EvListdir TEMPLATE_DIR;
         EvError "No templates found in the 'templates' folder. Please add some images."])) /\
  (forall e, listdir w TEMPLATE_DIR = Raise e -> is_FileNotFoundError e = true ->
     templates w =
       (Stopped,
        [EvListdir TEMPLATE_DIR;
         EvError "The 'templates' folder was not found. Please create it and add image templates."])) /\
  (forall ui t, templates w = (Stopped, t) ->
     fst (script w ui) = Stopped /\
     ~ In (EvHeader "Controls") (snd (script w ui)) /\
     generator_calls (snd (script w ui)) = 0%nat /\
     renderer_invoked (snd (script w ui)) = false).
Proof.
  split; [| split; [exact (templates_keep_images w) |]].
  all: repeat split.
  - rewrite templates_run in H.
    destruct (listdir w TEMPLATE_DIR) as [names | e].
    + destruct (filter _ names) eqn:Hf; inversion H; subst. discriminate.
    + destruct (is_FileNotFoundError e); discriminate.
  - rewrite templates_run in H.
    destruct (listdir w TEMPLATE_DIR) as [names | e].
    + exists names. split; [reflexivity |].
      assert (Hts : ts = filter (fun f => endswith_any f ["png"; "jpg"; "jpeg"]) names).
      { destruct (filter _ names) eqn:Hf; inversion H; subst; reflexivity. }
      split; [exact Hts |].
      intros f. rewrite Hts, filter_In, endswith_any_image. reflexivity.
    + destruct (is_FileNotFoundError e); discriminate.
  - intros names Hdir Hnone. rewrite templates_run, Hdir.
    destruct (filter _ names) as [| f fs] eqn:Hf; [reflexivity |].
    assert (Hin : In f (filter (fun f => endswith_any f ["png"; "jpg"; "jpeg"]) names))
      by (rewrite Hf; left; reflexivity).
    apply filter_In in Hin as [Hin Hsuf]. apply endswith_any_image in Hsuf.
    now elim (Hnone f Hin).
  - intros e Hdir Hfnf. rewrite templates_run, Hdir, Hfnf. reflexivity.
  - unfold script, startup_model. destruct (load_model w); [| reflexivity].
    simpl. rewrite H. reflexivity.
  - unfold script, startup_model. destruct (load_model w) as [g | e]; simpl.
    + rewrite H. simpl. rewrite templates_run in H.
      destruct (listdir w TEMPLATE_DIR) as [names | e].
      * destruct (filter _ names); inversion H; subst. simpl.
        intros [X | [X | [X | [X | []]]]]; discriminate.
      * destruct (is_FileNotFoundError e); inversion H; subst. simpl.
        intros [X | [X | [X | [X | []]]]]; discriminate.
    + intros [X | []]; discriminate.
  - unfold script, startup_model. destruct (load_model w) as [g | e]; [| reflexivity].
    simpl. rewrite H. simpl. rewrite templates_run in H.
    destruct (listdir w TEMPLATE_DIR) as [names | e].
    + destruct (filter _ names); inversion H; subst; reflexivity.
    + destruct (is_FileNotFoundError e); inversion H; subst; reflexivity.
  - unfold script, startup_model. destruct (load_model w) as [g | e]; [| reflexivity].
    simpl. rewrite H. simpl. rewrite templates_run in H.
    destruct (listdir w TEMPLATE_DIR) as [names | e].
    + destruct (filter _ names); inversion H; subst; reflexivity.
    + destruct (is_FileNotFoundError e); inversion H; subst; reflexivity.
Qed.

(** *** textwrap: every call returns *)

Lemma length_str_skipn (n : nat) (s : string) :
  String.length (str_skipn n s) = (String.length s - n)%nat.
Proof.
  revert s. induction n as [| n IH]; intros s; simpl.
  - now rewrite Nat.sub_0_r.
  - destruct s as [| c s]; simpl; [reflexivity | apply IH].
Qed.

Lemma length_slice_from (s : string) (i : Z) :
  String.length (slice_from s i) =
  (String.length s - slice_index (len s) i)%nat.
Proof.
  apply length_str_skipn.
Qed.

Lemma chunks_weight_cons (c : string) (rest : list string) :
  Textwrap.chunks_weight (c :: rest) =
  (S (String.length c) + Textwrap.chunks_weight rest)%nat.
Proof.
  reflexivity.
Qed.

Section WrapTerminates.

Variable width : Z.
Hypothesis width_pos : 0 < width.

Lemma fill_line_weight (chunks cur_line : list string) (cur_len : Z) :
  (Textwrap.chunks_weight (snd (Textwrap.fill_line width cur_len cur_line chunks))
   <= Textwrap.chunks_weight chunks)%nat.
Proof.
  revert cur_line cur_len.
  induction chunks as [| c rest IH]; intros cur_line cur_len; simpl; [lia |].
  destruct (cur_len + len c <=? width).
  - specialize (IH (cur_line ++ [c])%list (cur_len + len c)). lia.
  - simpl. lia.
Qed.

Lemma handle_long_word_weight (c : string) (rest cur_line : list string) (cur_len : Z) :
  (Textwrap.chunks_weight (snd (Textwrap.handle_long_word c rest cur_line cur_len width))
   <= Textwrap.chunks_weight (c :: rest))%nat.
Proof.
  unfold Textwrap.handle_long_word. cbn [snd Textwrap.chunks_weight fold_right].
  rewrite length_slice_from. lia.
Qed.

(** A chunk too long for an empty line loses a character at least. *)
Lemma handle_long_word_progress (c : string) (rest : list string) :
  width < len c ->
  (Textwrap.chunks_weight (snd (Textwrap.handle_long_word c rest [] 0 width))
   < Textwrap.chunks_weight (c :: rest))%nat.
Proof.
  intros Hlong. unfold Textwrap.handle_long_word.
  destruct (width <? 1) eqn:Hw1; [apply Z.ltb_lt in Hw1; lia |].
  rewrite Z.sub_0_r.
  destruct (width <? len c) eqn:Hwl; [| apply Z.ltb_ge in Hwl; lia].
  set (stop := if _ : bool then _ else width).
  assert (Hstop : 1 <= stop).
  { subst stop.
    destruct ((0 <? rfind c "-" width) && _) eqn:Hh; [| lia].
    apply andb_true_iff in Hh as [Hh _]. apply Z.ltb_lt in Hh. lia. }
  cbn [snd Textwrap.chunks_weight fold_right]. rewrite length_slice_from.
  assert (1 <= slice_index (len c) stop)%nat.
  { unfold slice_index. destruct (stop <? 0) eqn:Hneg; [apply Z.ltb_lt in Hneg; lia |].
    lia. }
  unfold len in *. lia.
Qed.

Lemma end_line_weight (cur_line chunks2 : list string) (cur_len : Z) :
  (Textwrap.chunks_weight (snd (Textwrap.end_line width (cur_line, cur_len, chunks2)))
   <= Textwrap.chunks_weight chunks2)%nat.
Proof.
  unfold Textwrap.end_line.
  destruct chunks2 as [| c2 r2].
  - destruct (Textwrap.drop_trailing_blank cur_line); simpl; lia.
  - pose proof (handle_long_word_weight c2 r2 cur_line cur_len) as Hw.
    destruct (Z.ltb width (len c2)).
    + destruct (Textwrap.handle_long_word c2 r2 cur_line cur_len width) as [cl1 ch3].
      destruct (Textwrap.drop_trailing_blank cl1); exact Hw.
    + destruct (Textwrap.drop_trailing_blank cur_line); simpl; lia.
Qed.

Lemma wrap_step_decreases (have_lines : bool) (c : string) (rest : list string) :
  (Textwrap.chunks_weight (snd (Textwrap.wrap_step width have_lines (c :: rest)))
   < Textwrap.chunks_weight (c :: rest))%nat.
Proof.
  unfold Textwrap.wrap_step.
  destruct (Textwrap.is_blank c && have_lines).
  - pose proof (fill_line_weight rest [] 0) as Hw.
    destruct (Textwrap.fill_line width 0 [] rest) as [[cur_line cur_len] chunks2].
    pose proof (end_line_weight cur_line chunks2 cur_len) as He.
    cbn [snd] in Hw. rewrite chunks_weight_cons. lia.
  - cbn [Textwrap.fill_line app]. change (0 + len c) with (len c).
    destruct (len c <=? width) eqn:Hfit.
    + pose proof (fill_line_weight rest [c] (len c)) as Hw.
      destruct (Textwrap.fill_line width (len c) [c] rest) as [[cur_line cur_len] chunks2].
      pose proof (end_line_weight cur_line chunks2 cur_len) as He.
      cbn [snd] in Hw. rewrite chunks_weight_cons. lia.
    + apply Z.leb_gt in Hfit. unfold Textwrap.end_line.
      destruct (Z.ltb width (len c)) eqn:Hwl; [| apply Z.ltb_ge in Hwl; lia].
      pose proof (handle_long_word_progress c rest Hfit) as Hp.
      destruct (Textwrap.handle_long_word c rest [] 0 width) as [cl1 ch3].
      destruct (Textwrap.drop_trailing_blank cl1); exact Hp.
Qed.

Lemma wrap_loop_total (fuel : nat) :
  forall lines chunks,
    (Textwrap.chunks_weight chunks <= fuel)%nat ->
    exists r, Textwrap.wrap_loop fuel width lines chunks = Some r.
Proof.
  induction fuel as [| fuel IH]; intros lines chunks Hw.
  - destruct chunks as [| c rest]; [exists lines; reflexivity | simpl in Hw; lia].
  - destruct chunks as [| c rest]; [exists lines; reflexivity |].
    cbn [Textwrap.wrap_loop].
    pose proof (wrap_step_decreases
                  (negb match lines with [] => true | _ => false end) c rest) as Hdec.
    destruct (Textwrap.wrap_step width _ (c :: rest)) as [line chunks'].
    apply IH. cbn [snd] in Hdec. lia.
Qed.

End WrapTerminates.

(** [textwrap.fill] returns for every text and every width: a string, or the
    [ValueError] of a width that is not positive. *)
Lemma fill_total (text : string) (width : Z) :
  (width <= 0 /\ exists e, Textwrap.fill text width = Some (Raise e)) \/
  (0 < width /\ exists s, Textwrap.fill text width = Some (Ok s)).
Proof.
  unfold Textwrap.fill, Textwrap.wrap, Textwrap.wrap_chunks.
  destruct (width <=? 0) eqn:Hw.
  - left. apply Z.leb_le in Hw. split; [exact Hw | eauto].
  - right. apply Z.leb_gt in Hw. split; [exact Hw |].
    destruct (wrap_loop_total width Hw _ [] (Textwrap.split_chunks text) (le_n _))
      as [r ->].
    simpl. eauto.
Qed.

(** *** Renderer: runs that return *)

Lemma settles_ret {A : Type} (a : A) : settles (ret a).
Proof. exact I. Qed.

Lemma settles_emit (e : event) : settles (emit e).
Proof. exact I. Qed.

Lemma settles_lift {A : Type} (r : result A) : settles (lift r).
Proof. destruct r; exact I. Qed.

Lemma settles_bind {A B : Type} (m : M A) (k : A -> M B) :
  settles m -> (forall a, settles (k a)) -> settles (bind m k).
Proof.
  unfold settles, bind. destruct m as [[a | e | | ] t]; simpl; intros Hm Hk; auto.
  specialize (Hk a). destruct (k a) as [r t']. exact Hk.
Qed.

Lemma settles_try_except {A : Type} (body : M A) (handler : exn -> option (M A)) :
  settles body ->
  (forall e h, handler e = Some h -> settles h) ->
  settles (try_except body handler).
Proof.
  unfold settles, try_except. destruct body as [[a | e | | ] t]; simpl; intros Hb Hh; auto.
  destruct (handler e) as [h |] eqn:He; [| exact I].
  specialize (Hh e h He). destruct h as [r t']. exact Hh.
Qed.

Lemma settles_wrapped_text (top_text : string) (chars_per_line : Z) :
  settles (wrapped_text top_text chars_per_line).
Proof.
  unfold wrapped_text.
  destruct (fill_total (upper top_text) chars_per_line) as [[_ [e ->]] | [_ [s ->]]];
    exact I.
Qed.

Lemma settles_draw_text (w : World) (img : Image) (call : text_call) :
  settles (draw_text w img call).
Proof.
  unfold draw_text.
  apply settles_bind; [apply settles_emit | intros _].
  apply settles_bind; [apply settles_lift | intros _].
  apply settles_ret.
Qed.

Lemma settles_draw_outline (w : World) (x : float) (y : Z) (wrapped : string)
    (font : Font) (offsets : list (Z * Z)) :
  forall img, settles (draw_outline w img x y wrapped font offsets).
Proof.
  induction offsets as [| [dx dy] offsets IH]; intros img; simpl.
  - apply settles_ret.
  - apply settles_bind; [apply settles_lift | intros x'].
    apply settles_bind; [apply settles_draw_text | intros img'].
    apply IH.
Qed.

(** The [try] block of the renderer ends in a value or in an exception. *)
Lemma overlay_settles (w : World) (template_path top_text : string) :
  settles (overlay w template_path top_text).
Proof.
  unfold overlay.
  apply settles_bind; [apply settles_emit | intros _].
  apply settles_bind; [apply settles_lift | intros img].
  apply settles_bind; [apply settles_lift | intros _].
  apply settles_bind; [apply settles_lift | intros fs].
  apply settles_bind.
  - apply settles_try_except.
    + apply settles_bind; [apply settles_emit | intros _].
      apply settles_bind; [apply settles_lift | intros font].
      apply settles_ret.
    + intros e h. destruct (is_OSError e); [| discriminate].
      intros H. inversion H; subst. exact I.
  - intros [font |]; [| apply settles_ret].
    apply settles_bind; [apply settles_lift | intros avg].
    apply settles_bind; [apply settles_lift | intros cpl].
    apply settles_bind; [apply settles_wrapped_text | intros wrapped].
    apply settles_bind; [apply settles_lift | intros bb].
    apply settles_bind; [apply settles_lift | intros px].
    apply settles_bind; [apply settles_draw_outline | intros img1].
    apply settles_bind; [apply settles_draw_text | intros img2].
    apply settles_ret.
Qed.

(** C10: for every world, every template path and every caption,
    [create_image_with_text] returns: an image or [None].  No exception
    leaves it, and the call to [textwrap.fill] inside it always returns,
    for a zero budget (a [ValueError], caught) and for words longer than the
    budget (broken across lines) as for any other input. *)
Theorem create_image_never_raises (w : World) (template_path top_text : string) :
  exists (r : option Image) (t : list event),
    create_image_with_text w template_path top_text = (Ret r, t).
Proof.
  unfold create_image_with_text, try_except.
  pose proof (overlay_settles w template_path top_text) as Hbody.
  unfold settles in Hbody.
  destruct (overlay w template_path top_text) as [[r | e | | ] t];
    simpl in Hbody; try contradiction.
  - exists r, t. reflexivity.
  - destruct (is_FileNotFoundError e); simpl; eauto.
Qed.

(** *** Renderer: what a rendered image is made of *)

(** A run that returns an image has passed every step of the [try] block:
    the values of the steps, the image and the events of the run. *)
Lemma create_image_success (w : World) (path top_text : string) (img : Image)
    (t : list event) :
  create_image_with_text w path top_text = (Ret (Some img), t) ->
  exists tpl fs font avg cpl wrapped bb px xl xr,
    image_open w path = Ok tpl /\
    font_size (im_width tpl) = Ok fs /\
    truetype w FONT_FILE fs = Ok font /\
    avg_char_width w font = Ok avg /\
    chars_per_line (im_width tpl) avg = Ok cpl /\
    Textwrap.fill (upper top_text) cpl = Some (Ok wrapped) /\
    textbbox w tpl wrapped font = Ok bb /\
    position_x (im_width tpl) (bbox_right bb - bbox_left bb) = Ok px /\
    shift_x px (-2) = Ok xl /\
    shift_x px 2 = Ok xr /\
    let calls :=
      [caption_call xl (position_y + -2) wrapped font "black";
       caption_call xl (position_y + 2) wrapped font "black";
       caption_call xr (position_y + -2) wrapped font "black";
       caption_call xr (position_y + 2) wrapped font "black";
       caption_call px position_y wrapped font "white"] in
    img = {| im_width := im_width tpl; im_height := im_height tpl;
             im_texts := (im_texts tpl ++ calls)%list |} /\
    t = EvImageOpen path :: EvTruetype FONT_FILE fs :: map EvText calls.
Proof.
  unfold create_image_with_text, overlay. intros H. run_in H.
  step H (image_open w path) tpl.
  step H (image_draw w tpl) u.
  step H (font_size (im_width tpl)) fs.
  step H (truetype w FONT_FILE fs) font.
  step H (avg_char_width w font) avg.
  step H (chars_per_line (im_width tpl) avg) cpl.
  unfold wrapped_text in H.
  destruct (Textwrap.fill (upper top_text) cpl) as [[wrapped | e] |] eqn:Hfill; run_in H;
    [| fails_in H | fails_in H].
  step H (textbbox w tpl wrapped font) bb.
  step H (position_x (im_width tpl) (bbox_right bb - bbox_left bb)) px.
  step H (shift_x px (-2)) xl.
  match type of H with context [text w ?i ?c] => step H (text w i c) u1 end.
  match type of H with context [text w ?i ?c] => step H (text w i c) u2 end.
  step H (shift_x px 2) xr.
  match type of H with context [text w ?i ?c] => step H (text w i c) u3 end.
  match type of H with context [text w ?i ?c] => step H (text w i c) u4 end.
  match type of H with context [text w ?i ?c] => step H (text w i c) u5 end.
  inversion H; subst; clear H.
  exists tpl, fs, font, avg, cpl, wrapped, bb, px, xl, xr.
  cbn [im_width im_height im_texts app map]. rewrite <- !app_assoc.
  repeat split; try assumption.
Qed.

(** C2: when rendering succeeds, the image returned has the width and the
    height of the template that was opened. *)
Theorem rendered_size_is_template_size
    (w : World) (template_path top_text : string) (tpl img : Image) (t : list event) :
  image_open w template_path = Ok tpl ->
  create_image_with_text w template_path top_text = (Ret (Some img), t) ->
  im_width img = im_width tpl /\ im_height img = im_height tpl.
Proof.
  intros Hopen Hrun.
  apply create_image_success in Hrun
    as (tpl' & fs & font & avg & cpl & wrapped & bb & px & xl & xr & Hopen' & Hrest).
  rewrite Hopen in Hopen'. inversion Hopen'; subst tpl'.
  destruct Hrest as (_ & _ & _ & _ & _ & _ & _ & _ & _ & Himg & _).
  rewrite Himg. split; reflexivity.
Qed.

Lemma rendered_size_is_template_size_witness :
  im_width Demo.coffee_meme = 800 /\ im_height Demo.coffee_meme = 600.
Proof.
  apply (rendered_size_is_template_size Demo.coffee_world "templates/drake.png"
           "coffee is my lifeline"
           {| im_width := 800; im_height := 600; im_texts := [] |}
           Demo.coffee_meme (snd Demo.coffee_run)).
  - reflexivity.
  - vm_compute. reflexivity.
Defined.




(** *** Shell *)

(** [generate_caption] always returns a caption, and its run holds at most
    the call of the pipeline and the error shown for it. *)
Lemma generate_caption_cases
    (text_generator : string -> gen_config -> result (list dict)) (prompt : string) :
  exists caption t,
    generate_caption text_generator prompt = (Ret caption, t) /\
    (t = [] \/
     t = [EvGenerate (full_prompt prompt) generation_config] \/
     exists msg, t = [EvGenerate (full_prompt prompt) generation_config; EvError msg]).
Proof.
  unfold generate_caption. destruct (is_empty prompt).
  - exists "Please enter a topic!", []. auto.
  - rewrite bind_emit.
    destruct (text_generator (full_prompt prompt) generation_config) as [seqs | e]; simpl.
    + destruct (clean_up seqs (full_prompt prompt)) as [txt | e]; simpl; eauto 7.
    + eauto 7.
Qed.

Lemma generate_caption_quiet
    (text_generator : string -> gen_config -> result (list dict))
    (prompt caption : string) (t : list event) :
  generate_caption text_generator prompt = (Ret caption, t) ->
  renderer_invoked t = false /\ shown t = [].
Proof.
  intros H.
  destruct (generate_caption_cases text_generator prompt)
    as (c & t' & H' & [-> | [-> | [msg ->]]]);
    rewrite H in H'; inversion H'; subst; split; reflexivity.
Qed.

Lemma create_image_opens_first (w : World) (template_path top_text : string) :
  exists r t, create_image_with_text w template_path top_text =
              (Ret r, EvImageOpen template_path :: t).
Proof.
  pose proof (overlay_settles w template_path top_text) as Hbody.
  unfold create_image_with_text, try_except.
  unfold settles, overlay in *. rewrite bind_emit in *. cbn [fst snd] in *.
  match goal with
  | |- context [fst ?m] => destruct m as [[r' | e | | ] t']; cbn [fst snd] in *
  end; try contradiction.
  - eauto.
  - destruct (is_FileNotFoundError e); simpl; eauto.
Qed.

Lemma renderer_invoked_app (t1 t2 : list event) :
  renderer_invoked (t1 ++ t2) = renderer_invoked t1 || renderer_invoked t2.
Proof.
  apply existsb_app.
Qed.

Lemma shown_app (t1 t2 : list event) : shown (t1 ++ t2) = (shown t1 ++ shown t2)%list.
Proof.
  apply filter_app.
Qed.

(** The run of the branch of the button, from the runs of its two calls. *)
Lemma generate_clicked_run
    (w : World) (text_generator : string -> gen_config -> result (list dict))
    (template_path prompt caption : string) (t1 : list event) :
  generate_caption text_generator prompt = (Ret caption, t1) ->
  (caption_ok caption = false ->
   generate_clicked w text_generator template_path prompt =
     (Ret tt, EvSpinner "AI is thinking..." :: t1 ++ [EvError caption])%list) /\
  (caption_ok caption = true ->
   forall r t2, create_image_with_text w template_path caption = (Ret r, t2) ->
   match r with
   | None =>
       generate_clicked w text_generator template_path prompt =
         (Ret tt, EvSpinner "AI is thinking..." :: t1 ++ t2 ++
                  [EvWarning "Could not generate the final image."])%list
   | Some img =>
       exists o t3,
         generate_clicked w text_generator template_path prompt =
           (o, EvSpinner "AI is thinking..." :: t1 ++ t2 ++
               EvShowImage img :: EvSave img "meme_output.png" :: t3)%list
   end).
Proof.
  intros Hcap. unfold generate_clicked. rewrite bind_emit, Hcap.
  cbn [bind fst snd]. split.
  - intros ->. cbn [emit fst snd]. reflexivity.
  - intros -> r t2 Hrun. rewrite Hrun. cbn [bind fst snd].
    destruct r as [img |].
    + cbn [emit bind fst snd].
      destruct (save w img "meme_output.png") as [[] | e];
        cbn [lift ret bind emit app fst snd]; [| eauto].
      destruct (open_rb w "meme_output.png") as [[] | e];
        cbn [lift ret bind emit app fst snd]; eauto.
    + cbn [emit bind fst snd]. reflexivity.
Qed.

(** [sub in s] holds exactly when [sub] occurs in [s]. *)
Lemma str_contains_unfold (sub s : string) :
  str_contains sub s =
  String.prefix sub s || match s with EmptyString => false | String _ s' => str_contains sub s' end.
Proof.
  destruct s; reflexivity.
Qed.

Lemma str_contains_iff (sub s : string) :
  str_contains sub s = true <-> has_substring sub s.
Proof.
  unfold has_substring. split.
  - induction s as [| c s IH]; rewrite str_contains_unfold; intros H;
      apply orb_true_iff in H as [H | H].
    + apply prefix_split in H as [b ->]. exists "", b. reflexivity.
    + discriminate H.
    + apply prefix_split in H as [b ->]. exists "", b. reflexivity.
    + destruct (IH H) as (a & b & ->). exists (String c a), b. reflexivity.
  - intros (a & b & ->). induction a as [| c a IH].
    + rewrite str_contains_unfold. cbn [append]. now rewrite prefix_append.
    + rewrite str_contains_unfold. cbn [append]. rewrite IH. apply orb_true_r.
Qed.

(** The test of line 149 in words: the caption is not empty and "Error" does
    not occur in it. *)
Lemma caption_ok_iff (caption : string) :
  caption_ok caption = true <-> caption <> "" /\ ~ has_substring "Error" caption.
Proof.
  unfold caption_ok. rewrite andb_true_iff, !negb_true_iff.
  rewrite <- (str_contains_iff "Error" caption). split.
  - intros [Hne Hno]. split; [destruct caption; [discriminate Hne | discriminate] |].
    rewrite Hno. discriminate.
  - intros [Hne Hno]. split; [destruct caption; [congruence | reflexivity] |].
    destruct (str_contains "Error" caption); [now elim Hno | reflexivity].
Qed.

(** C1 (as amended): on a click the shell runs the caption generator first,
    and runs the renderer on the selected template exactly when the caption
    is non-empty and "Error" does not occur in it; when the caption is empty
    or "Error" occurs in it, the shell shows the caption as an error and the
    run ends without the renderer.  For the generation-failure string the
    renderer is not invoked. *)
Theorem renderer_runs_iff_caption_ok
    (w : World) (text_generator : string -> gen_config -> result (list dict))
    (template_path prompt caption : string) (t1 : list event) :
  generate_caption text_generator prompt = (Ret caption, t1) ->
  (caption <> "" /\ ~ has_substring "Error" caption ->
   exists r t2 t3,
     create_image_with_text w template_path caption =
       (Ret r, EvImageOpen template_path :: t2) /\
     snd (generate_clicked w text_generator template_path prompt) =
       (EvSpinner "AI is thinking..." :: t1 ++ EvImageOpen template_path :: t2 ++ t3)%list) /\
  (caption = "" \/ has_substring "Error" caption ->
   generate_clicked w text_generator template_path prompt =
     (Ret tt, EvSpinner "AI is thinking..." :: t1 ++ [EvError caption])%list) /\
  (renderer_invoked (snd (generate_clicked w text_generator template_path prompt)) = true
   <-> caption <> "" /\ ~ has_substring "Error" caption) /\
  (caption = "Error generating text." ->
   renderer_invoked (snd (generate_clicked w text_generator template_path prompt)) = false).
Proof.
  intros Hcap.
  destruct (generate_clicked_run w text_generator template_path prompt caption t1 Hcap)
    as [Hbad Hgood].
  destruct (generate_caption_quiet _ _ _ _ Hcap) as [Hquiet _].
  destruct (create_image_opens_first w template_path caption) as (r & t2 & Hrun).
  assert (Hyes : caption_ok caption = true ->
    exists t3, snd (generate_clicked w text_generator template_path prompt) =
      (EvSpinner "AI is thinking..." :: t1 ++ EvImageOpen template_path :: t2 ++ t3)%list).
  { intros Hok. specialize (Hgood Hok r _ Hrun). destruct r as [img |].
    - destruct Hgood as (o & t3 & ->). cbn [snd app]. eauto.
    - rewrite Hgood. cbn [snd app]. eauto. }
  assert (Hinvoked :
    renderer_invoked (snd (generate_clicked w text_generator template_path prompt)) =
    caption_ok caption).
  { destruct (caption_ok caption) eqn:Hok.
    + destruct (Hyes eq_refl) as [t3 ->].
      cbn [renderer_invoked existsb is_image_open].
      change (existsb is_image_open ?t) with (renderer_invoked t).
      rewrite renderer_invoked_app. cbn. now rewrite orb_true_r.
    + rewrite (Hbad eq_refl). cbn [snd renderer_invoked existsb is_image_open].
      change (existsb is_image_open ?t) with (renderer_invoked t).
      rewrite renderer_invoked_app, Hquiet. reflexivity. }
  assert (Hno : caption = "" \/ has_substring "Error" caption -> caption_ok caption = false).
  { intros Hfail. destruct (caption_ok caption) eqn:Hok; [| reflexivity].
    apply caption_ok_iff in Hok as [Hne Hsub]. destruct Hfail; contradiction. }
  split; [| split; [| split]].
  - intros Hpass. apply caption_ok_iff in Hpass.
    destruct (Hyes Hpass) as [t3 Ht]. eauto.
  - intros Hfail. exact (Hbad (Hno Hfail)).
  - rewrite Hinvoked. apply caption_ok_iff.
  - intros ->. rewrite Hinvoked. reflexivity.
Qed.

Lemma renderer_runs_iff_caption_ok_witness :
  renderer_invoked
    (snd (generate_clicked Demo.coffee_world (Demo.echo_generator " coffee is my lifeline")
            "templates/drake.png" "monday mornings")) = true.
Proof.
  destruct (renderer_runs_iff_caption_ok Demo.coffee_world
              (Demo.echo_generator " coffee is my lifeline")
              "templates/drake.png" "monday mornings" "coffee is my lifeline"
              [EvGenerate (full_prompt "monday mornings") generation_config])
    as (_ & _ & Hiff & _).
  - vm_compute. reflexivity.
  - apply Hiff. split; [discriminate |].
    intros Hsub. apply str_contains_iff in Hsub. vm_compute in Hsub. discriminate Hsub.
Defined.

(** C1 as stated fails: the message returned for the empty topic does not
    contain "Error", so the shell passes it to the renderer, which draws it
    on the template. *)
Lemma empty_topic_message_is_rendered :
  ~ (forall (w : World) (text_generator : string -> gen_config -> result (list dict))
            (template_path prompt caption : string) (t : list event),
       generate_caption text_generator prompt = (Ret caption, t) ->
       caption = "Error generating text." \/ caption = "Please enter a topic!" ->
       renderer_invoked (snd (generate_clicked w text_generator template_path prompt))
       = false).
Proof.
  intros H.
  specialize (H Demo.coffee_world Demo.failing_generator "templates/drake.png" ""
                "Please enter a topic!" [] eq_refl (or_intror eq_refl)).
  vm_compute in H. discriminate H.
Qed.

(** *** Missing font *)

(** A run of the script that has loaded the model and listed the templates:
    it ends at [st.image(template_path)] when that call raises, and goes on
    to the second column otherwise. *)
Lemma script_run
    (w : World) (ui : UI) (text_generator : string -> gen_config -> result (list dict))
    (ts : list string) (tl : list event) :
  load_model w = Ok text_generator ->
  templates w = (Ret ts, tl) ->
  script w ui =
    let template_path := path_join TEMPLATE_DIR (selectbox ts (ui_template ui)) in
    let first_column :=
      (EvTitle "AI Meme & Poster Creator"
       :: EvMarkdown "Create fun content in seconds. Just choose a template, enter a topic, and let the AI do the work!"
       :: tl ++
       [EvHeader "Controls"; EvSubheader "Template"; EvShowFile template_path])%list in
    match show_file w template_path with
    | Raise e => (Exc e, first_column)
    | Ok _ =>
        let '(o, t) :=
          if ui_generate_button ui
          then generate_clicked w text_generator template_path (ui_prompt ui)
          else emit (EvInfo "Click the 'Generate Meme!' button to create your masterpiece.") in
        (o, (first_column ++ EvSubheader "Your AI-Generated Meme" :: t)%list)
    end.
Proof.
  intros Hload Htpl. unfold script, startup_model.
  rewrite Hload, Htpl. cbn [bind ret emit app]. cbv zeta.
  destruct (show_file w (path_join TEMPLATE_DIR (selectbox ts (ui_template ui))))
    as [[] | e]; cbn [lift ret bind app fst snd].
  - destruct (if ui_generate_button ui then _ else _) as [o t].
    rewrite <- app_assoc. reflexivity.
  - reflexivity.
Qed.

(** C8: when the font cannot be loaded ([truetype] raises an [OSError]),
    the renderer shows the font message with [st.error] and returns [None];
    the font was asked for once.  The shell then shows a warning and no
    image, so the template, displayed before the click is handled, is the
    only image on the page. *)
Theorem missing_font_gives_no_image
    (w : World) (template_path top_text : string) (tpl : Image) (size : Z) (e : exn) :
  image_open w template_path = Ok tpl ->
  image_draw w tpl = Ok tt ->
  font_size (im_width tpl) = Ok size ->
  truetype w FONT_FILE size = Raise e ->
  is_OSError e = true ->
  let render_events :=
    [EvImageOpen template_path;
     EvTruetype FONT_FILE size;
     EvError "Font file 'NotoSans-VariableFont_wdth,wght.ttf' not found. Please ensure it's in your project folder."] in
  create_image_with_text w template_path top_text = (Ret None, render_events) /\
  font_loads render_events = 1%nat /\
  (forall text_generator prompt t1,
     generate_caption text_generator prompt = (Ret top_text, t1) ->
     caption_ok top_text = true ->
     generate_clicked w text_generator template_path prompt =
       (Ret tt, EvSpinner "AI is thinking..." :: t1 ++ render_events ++
                [EvWarning "Could not generate the final image."])%list) /\
  (forall ui text_generator ts tl t1,
     load_model w = Ok text_generator ->
     templates w = (Ret ts, tl) ->
     ui_generate_button ui = true ->
     template_path = path_join TEMPLATE_DIR (selectbox ts (ui_template ui)) ->
     generate_caption text_generator (ui_prompt ui) = (Ret top_text, t1) ->
     caption_ok top_text = true ->
     shown (snd (script w ui)) = [EvShowFile template_path]).
Proof.
  intros Hopen Hdraw Hsize Hfont Hos render_events.
  assert (Hrender :
    create_image_with_text w template_path top_text = (Ret None, render_events)).
  { unfold create_image_with_text, overlay. rewrite bind_emit, Hopen.
    cbn [lift ret bind]. rewrite Hdraw. cbn [lift ret bind]. rewrite Hsize.
    cbn [lift ret bind]. rewrite bind_emit, Hfont.
    cbn [lift ret bind try_except fst snd]. rewrite Hos. reflexivity. }
  assert (Hclicked : forall text_generator prompt t1,
     generate_caption text_generator prompt = (Ret top_text, t1) ->
     caption_ok top_text = true ->
     generate_clicked w text_generator template_path prompt =
       (Ret tt, EvSpinner "AI is thinking..." :: t1 ++ render_events ++
                [EvWarning "Could not generate the final image."])%list).
  { intros text_generator prompt t1 Hcap Hok.
    destruct (generate_clicked_run w text_generator template_path prompt top_text t1 Hcap)
      as [_ Hgood].
    exact (Hgood Hok None render_events Hrender). }
  repeat split.
  - exact Hrender.
  - exact Hclicked.
  - intros ui text_generator ts tl t1 Hload Htpl Hclick Hpath Hcap Hok.
    rewrite (script_run w ui text_generator ts tl Hload Htpl). cbv zeta.
    rewrite <- Hpath, Hclick, (Hclicked _ _ _ Hcap Hok).
    assert (Htl : shown tl = []).
    { rewrite templates_run in Htpl.
      destruct (listdir w TEMPLATE_DIR) as [names | e'].
      - destruct (filter _ names); inversion Htpl; reflexivity.
      - destruct (is_FileNotFoundError e'); discriminate. }
    destruct (generate_caption_quiet _ _ _ _ Hcap) as [_ Hq].
    assert (Hfirst : forall rest,
      shown (EvTitle "AI Meme & Poster Creator"
             :: EvMarkdown "Create fun content in seconds. Just choose a template, enter a topic, and let the AI do the work!"
             :: tl ++ EvHeader "Controls" :: EvSubheader "Template"
                :: EvShowFile template_path :: rest)%list
      = EvShowFile template_path :: shown rest).
    { intros rest. unfold shown in *. cbn [filter is_shown].
      rewrite filter_app, Htl. reflexivity. }
    destruct (show_file w template_path) as [[] | e']; cbn [snd app].
    + rewrite <- app_assoc. cbn [app]. rewrite Hfirst. f_equal.
      unfold shown in *. cbn [filter is_shown]. rewrite filter_app, Hq. reflexivity.
    + cbn [app]. rewrite Hfirst. reflexivity.
Qed.

Lemma missing_font_gives_no_image_witness :
  create_image_with_text Demo.no_font_world "templates/drake.png" "x" =
    (Ret None,
     [EvImageOpen "templates/drake.png";
      EvTruetype FONT_FILE 44;
      EvError "Font file 'NotoSans-VariableFont_wdth,wght.ttf' not found. Please ensure it's in your project folder."]).
Proof.
  apply (missing_font_gives_no_image Demo.no_font_world "templates/drake.png" "x"
           {| im_width := 800; im_height := 600; im_texts := [] |} 44
           (Exn OSError "cannot open resource"));
    vm_compute; reflexivity.
Defined.

(** *** Caption clean-up *)

Lemma replace_scan_skip (old new u c : string) :
  replace_scan old new (u ++ c) (String.length u) = replace_scan old new c O.
Proof.
  induction u as [| x u IH]; simpl; [reflexivity | exact IH].
Qed.

(** An occurrence at the start is replaced and the scan resumes behind it. *)
Lemma replace_scan_head (old new c : string) :
  old <> "" ->
  replace_scan old new (old ++ c) O = new ++ replace_scan old new c O.
Proof.
  intros Hne. destruct old as [| x o]; [congruence |].
  change (String x o ++ c) with (String x (o ++ c)).
  cbn [replace_scan].
  change (String x (o ++ c)) with (String x o ++ c) at 1.
  rewrite prefix_append.
  replace (String.length (String x o) - 1)%nat with (String.length o)
    by (cbn [String.length]; lia).
  rewrite replace_scan_skip. reflexivity.
Qed.

Lemma str_contains_tail (sub : string) (x : ascii) (s : string) :
  str_contains sub (String x s) = false -> str_contains sub s = false.
Proof.
  cbn [str_contains]. intros H. apply orb_false_iff in H as [_ H]. exact H.
Qed.

Lemma str_contains_head (sub s : string) :
  str_contains sub s = false -> String.prefix sub s = false.
Proof.
  destruct s; cbn [str_contains]; intros H; apply orb_false_iff in H as [H _]; exact H.
Qed.

(** A text without an occurrence is left as it is. *)
Lemma replace_scan_absent (old new s : string) :
  str_contains old s = false -> replace_scan old new s O = s.
Proof.
  induction s as [| x s IH]; intros H; [reflexivity |].
  cbn [replace_scan]. rewrite (str_contains_head _ _ H).
  rewrite IH; [reflexivity | exact (str_contains_tail _ _ _ H)].
Qed.

Lemma str_contains_lstrip (sub s : string) :
  str_contains sub s = false -> str_contains sub (lstrip s) = false.
Proof.
  induction s as [| x s IH]; intros H; [exact H |].
  cbn [lstrip]. destruct (isspace x); [| exact H].
  apply IH. exact (str_contains_tail _ _ _ H).
Qed.

Lemma prefix_nonempty_of_empty (sub : string) :
  sub <> "" -> String.prefix sub "" = false.
Proof.
  destruct sub; [congruence | reflexivity].
Qed.

Lemma prefix_rstrip (sub s : string) :
  sub <> "" -> String.prefix sub (rstrip s) = true -> String.prefix sub s = true.
Proof.
  intros Hne. revert sub Hne.
  induction s as [| x s IH]; intros sub Hne H; [exact H |].
  cbn [rstrip] in H.
  destruct (isspace x && is_empty (rstrip s)).
  - rewrite prefix_nonempty_of_empty in H by exact Hne. discriminate.
  - destruct sub as [| y sub']; [congruence |].
    cbn [String.prefix] in *. destruct (ascii_dec y x); [| discriminate].
    destruct sub' as [| z sub'']; [now destruct (rstrip s); destruct s |].
    apply IH; [discriminate | exact H].
Qed.

Lemma str_contains_rstrip (sub s : string) :
  sub <> "" -> str_contains sub s = false -> str_contains sub (rstrip s) = false.
Proof.
  intros Hne. induction s as [| x s IH]; intros H; [exact H |].
  destruct (str_contains sub (rstrip (String x s))) eqn:Hc; [| reflexivity].
  exfalso.
  pose proof (str_contains_head _ _ H) as Hhead.
  pose proof (IH (str_contains_tail _ _ _ H)) as Htail.
  cbn [rstrip] in Hc.
  destruct (isspace x && is_empty (rstrip s)) eqn:Hsp.
  - cbn [str_contains] in Hc. rewrite prefix_nonempty_of_empty in Hc by exact Hne.
    discriminate.
  - cbn [str_contains] in Hc. rewrite Htail, orb_false_r in Hc.
    assert (Hp : String.prefix sub (rstrip (String x s)) = true).
    { cbn [rstrip]. rewrite Hsp. exact Hc. }
    apply prefix_rstrip in Hp; [congruence | exact Hne].
Qed.

Lemma str_contains_strip (sub s : string) :
  sub <> "" -> str_contains sub s = false -> str_contains sub (strip s) = false.
Proof.
  intros Hne H. unfold strip.
  apply str_contains_rstrip; [exact Hne |]. apply str_contains_lstrip. exact H.
Qed.

Lemma full_prompt_nonempty (topic : string) : full_prompt topic <> "".
Proof.
  discriminate.
Qed.

(** C4 (as amended): for a non-empty topic on which the pipeline returns,
    [generate_caption] returns the raw output with every occurrence of the
    prompt removed in one pass from the left and the surrounding whitespace
    trimmed, or "AI could not generate a caption." when nothing is left; when
    the raw output is the prompt followed by a continuation that does not
    contain the prompt, what is returned is the trimmed continuation (or the
    fallback) and does not contain the prompt. *)
Theorem caption_is_cleaned_output
    (text_generator : string -> gen_config -> result (list dict))
    (topic : string) (d : dict) (others : list dict) (raw : string) :
  topic <> "" ->
  text_generator (full_prompt topic) generation_config = Ok (d :: others) ->
  dict_get d "generated_text" = Ok raw ->
  let cleaned := strip (replace raw (full_prompt topic) "") in
  let caption := if is_empty cleaned then "AI could not generate a caption." else cleaned in
  generate_caption text_generator topic =
    (Ret caption, [EvGenerate (full_prompt topic) generation_config]) /\
  (forall continuation,
     raw = full_prompt topic ++ continuation ->
     str_contains (full_prompt topic) continuation = false ->
     cleaned = strip continuation /\
     str_contains (full_prompt topic) caption = false).
Proof.
  intros Hne Hgen Hraw cleaned caption. split.
  - unfold generate_caption. destruct topic as [| c topic']; [congruence |].
    cbn [is_empty]. rewrite bind_emit, Hgen.
    unfold clean_up. cbn [first lift ret bind]. rewrite Hraw. reflexivity.
  - intros continuation -> Habsent.
    assert (Hclean : cleaned = strip continuation).
    { subst cleaned. unfold replace.
      destruct (is_empty (full_prompt topic)) eqn:He; [discriminate He |].
      rewrite replace_scan_head by apply full_prompt_nonempty.
      rewrite replace_scan_absent by exact Habsent. reflexivity. }
    split; [exact Hclean |].
    subst caption. rewrite Hclean.
    destruct (is_empty (strip continuation)); [reflexivity |].
    apply str_contains_strip; [apply full_prompt_nonempty | exact Habsent].
Qed.

Lemma caption_is_cleaned_output_witness :
  generate_caption (Demo.echo_generator " coffee is my lifeline") "monday mornings" =
    (Ret "coffee is my lifeline",
     [EvGenerate (full_prompt "monday mornings") generation_config]).
Proof.
  apply (caption_is_cleaned_output (Demo.echo_generator " coffee is my lifeline")
           "monday mornings"
           [("generated_text", full_prompt "monday mornings" ++ " coffee is my lifeline")]
           [] (full_prompt "monday mornings" ++ " coffee is my lifeline"));
    [discriminate | reflexivity | reflexivity].
Defined.

(** C4 as stated fails: the prompt is removed in one pass, and when an
    occurrence stands inside another one the two halves around it join into
    a new occurrence, which is returned. *)
Lemma prompt_survives_clean_up :
  ~ (forall (text_generator : string -> gen_config -> result (list dict))
            (topic raw caption : string) (t : list event),
       topic <> "" ->
       text_generator (full_prompt topic) generation_config =
         Ok [[("generated_text", raw)]] ->
       generate_caption text_generator topic = (Ret caption, t) ->
       str_contains (full_prompt topic) caption = false).
Proof.
  intros H.
  specialize (H Demo.nesting_generator "x"
                (full_prompt "x" ++ "A" ++ full_prompt "x" ++
                 " short, funny meme caption for an image, on the topic of x:")
                (full_prompt "x")
                [EvGenerate (full_prompt "x") generation_config]).
  assert (Hne : "x" <> "") by discriminate.
  specialize (H Hne eq_refl eq_refl).
  vm_compute in H. discriminate H.
Qed.

(** *** textwrap on plain words *)

Lemma plain_char_facts (c : ascii) :
  plain_char c = true ->
  Textwrap.is_whitespace c = false /\ Textwrap.is_hyphen c = false /\
  isspace c = false /\ Ascii.eqb c "009" = false.
Proof.
  destruct c as [[] [] [] [] [] [] [] []]; vm_compute; intros H;
    try discriminate H; repeat split.
Qed.

Lemma forall_chars_append (p : ascii -> bool) (a b : string) :
  forall_chars p (a ++ b) = forall_chars p a && forall_chars p b.
Proof.
  induction a as [| x a IH]; simpl; [reflexivity |].
  rewrite IH. apply andb_assoc.
Qed.

Lemma spaced_join (words : list string) :
  Forall (fun w => plain_word w = true) words ->
  forall_chars spaced_char (join " " words) = true.
Proof.
  induction 1 as [| w ws Hw _ IH]; [reflexivity |].
  assert (Hpw : forall_chars spaced_char w = true).
  { unfold plain_word in Hw. apply andb_true_iff in Hw as [_ Hw].
    clear -Hw. induction w as [| c w IHw]; [reflexivity |].
    simpl in *. apply andb_true_iff in Hw as [Hc Hw].
    unfold spaced_char at 1. rewrite Hc. simpl. auto. }
  destruct ws as [| v ws]; [exact Hpw |].
  change (join " " (w :: v :: ws)) with (w ++ " " ++ join " " (v :: ws)).
  rewrite !forall_chars_append, Hpw, IH. reflexivity.
Qed.

Lemma expandtabs_spaced (s : string) (tabsize col : Z) :
  forall_chars spaced_char s = true -> expandtabs_from tabsize col s = s.
Proof.
  revert col. induction s as [| c s IH]; intros col H; [reflexivity |].
  simpl in H. apply andb_true_iff in H as [Hc Hs].
  cbn [expandtabs_from].
  assert (Ht : Ascii.eqb c "009" = false).
  { unfold spaced_char in Hc. apply orb_true_iff in Hc as [Hc | Hc].
    - apply plain_char_facts in Hc. tauto.
    - apply Ascii.eqb_eq in Hc. subst c. reflexivity. }
  rewrite Ht, IH by exact Hs. reflexivity.
Qed.

Lemma translate_spaced (s : string) :
  forall_chars spaced_char s = true -> Textwrap.translate_whitespace s = s.
Proof.
  induction s as [| c s IH]; intros H; [reflexivity |].
  simpl in H. apply andb_true_iff in H as [Hc Hs].
  cbn [Textwrap.translate_whitespace]. rewrite IH by exact Hs.
  unfold spaced_char in Hc. apply orb_true_iff in Hc as [Hc | Hc].
  - apply plain_char_facts in Hc as (-> & _). reflexivity.
  - apply Ascii.eqb_eq in Hc. subst c. reflexivity.
Qed.

Lemma munge_spaced (s : string) :
  forall_chars spaced_char s = true -> Textwrap.munge_whitespace s = s.
Proof.
  intros H. unfold Textwrap.munge_whitespace, expandtabs.
  rewrite expandtabs_spaced by exact H. apply translate_spaced. exact H.
Qed.

Lemma hyphens_then_word_plain (c : ascii) (rest : list ascii) :
  Textwrap.is_hyphen c = false -> Textwrap.hyphens_then_word 0 (c :: rest) = false.
Proof.
  intros H. cbn [Textwrap.hyphens_then_word]. rewrite H. reflexivity.
Qed.

Lemma at_em_dash_plain (before : list ascii) (c : ascii) (rest : list ascii) :
  Textwrap.is_hyphen c = false -> Textwrap.at_em_dash before (c :: rest) = false.
Proof.
  intros H. unfold Textwrap.at_em_dash. destruct before; [reflexivity |].
  rewrite hyphens_then_word_plain by exact H. apply andb_false_r.
Qed.

Lemma at_word_hyphen_plain (before : list ascii) (c : ascii) (rest : list ascii) :
  Textwrap.is_hyphen c = false -> Textwrap.at_word_hyphen before (c :: rest) = false.
Proof.
  intros H. unfold Textwrap.at_word_hyphen. rewrite H. reflexivity.
Qed.

Lemma split_scan_step (before cur : list ascii) (st : Textwrap.scan)
    (c : ascii) (rest' : list ascii) :
  Textwrap.split_scan before cur st (c :: rest') =
    let st1 := match st with
               | Textwrap.AtStart => Textwrap.start_scan before c rest'
               | _ => st
               end in
    let st2 :=
      match st1 with
      | Textwrap.InSpace =>
          match rest' with
          | d :: _ => if Textwrap.is_whitespace d then Textwrap.InSpace else Textwrap.AtStart
          | [] => Textwrap.AtStart
          end
      | Textwrap.InDash =>
          match rest' with
          | d :: _ => if Textwrap.is_hyphen d then Textwrap.InDash else Textwrap.AtStart
          | [] => Textwrap.AtStart
          end
      | Textwrap.InWord =>
          if Textwrap.at_word_hyphen (c :: before) rest' then Textwrap.TakeHyphen
          else if Textwrap.at_word_end rest' || Textwrap.at_em_dash (c :: before) rest'
               then Textwrap.AtStart
               else Textwrap.InWord
      | Textwrap.TakeHyphen => Textwrap.AtStart
      | Textwrap.AtStart => Textwrap.AtStart
      end in
    match st2 with
    | Textwrap.AtStart =>
        string_of_list_ascii (rev (c :: cur))
        :: Textwrap.split_scan (c :: before) [] Textwrap.AtStart rest'
    | _ => Textwrap.split_scan (c :: before) (c :: cur) st2 rest'
    end.
Proof.
  reflexivity.
Qed.

(** Inside a plain word the scan goes on to the end of the word, which is one
    chunk. *)
Lemma split_scan_word (u : list ascii) :
  plain_chars u ->
  forall (c : ascii) (before cur rest : list ascii) (st : Textwrap.scan),
    plain_char c = true ->
    (rest = [] \/ exists r, rest = " "%char :: r) ->
    (st = Textwrap.InWord \/ st = Textwrap.AtStart) ->
    Textwrap.split_scan before cur st (c :: u ++ rest) =
      string_of_list_ascii (rev cur ++ c :: u)
      :: Textwrap.split_scan (rev (c :: u) ++ before) [] Textwrap.AtStart rest.
Proof.
  induction 1 as [| d u Hd Hu IH]; intros c before cur rest st Hc Hrest Hst;
    rewrite split_scan_step; cbv zeta;
    pose proof Hc as Hc'; apply plain_char_facts in Hc' as (Hws & Hhy & _);
    match goal with
    | |- context [Textwrap.start_scan before c ?r] =>
        assert (Hst1 : match st with
                       | Textwrap.AtStart => Textwrap.start_scan before c r
                       | _ => st
                       end = Textwrap.InWord)
          by (destruct Hst as [-> | ->]; [reflexivity |];
              unfold Textwrap.start_scan;
              rewrite Hws, at_em_dash_plain by exact Hhy; reflexivity);
        rewrite Hst1
    end.
  - cbn [app].
    assert (Hend : Textwrap.at_word_hyphen (c :: before) rest = false /\
                   Textwrap.at_word_end rest = true).
    { destruct Hrest as [-> | [r ->]]; split; reflexivity. }
    destruct Hend as [-> ->]. cbn [orb]. reflexivity.
  - pose proof Hd as Hd'. apply plain_char_facts in Hd' as (Hdws & Hdhy & _).
    cbn [app].
    rewrite at_word_hyphen_plain by exact Hdhy.
    rewrite at_em_dash_plain by exact Hdhy.
    cbn [Textwrap.at_word_end]. rewrite Hdws. cbn [orb].
    rewrite (IH d (c :: before) (c :: cur) rest Textwrap.InWord Hd Hrest (or_introl eq_refl)).
    cbn [rev]. rewrite <- !app_assoc. reflexivity.
Qed.

Lemma split_scan_space (before : list ascii) (c : ascii) (rest : list ascii) :
  Textwrap.is_whitespace c = false ->
  Textwrap.split_scan before [] Textwrap.AtStart (" "%char :: c :: rest) =
    " " :: Textwrap.split_scan (" "%char :: before) [] Textwrap.AtStart (c :: rest).
Proof.
  intros H. rewrite split_scan_step. cbv zeta.
  change (Textwrap.start_scan before " " (c :: rest)) with Textwrap.InSpace.
  cbv iota. rewrite H. reflexivity.
Qed.

Lemma list_ascii_of_string_append (a b : string) :
  list_ascii_of_string (a ++ b) = (list_ascii_of_string a ++ list_ascii_of_string b)%list.
Proof.
  induction a as [| x a IH]; simpl; [reflexivity | now rewrite IH].
Qed.

Lemma plain_word_chars (w : string) :
  plain_word w = true ->
  exists c u, list_ascii_of_string w = c :: u /\ plain_char c = true /\ plain_chars u.
Proof.
  unfold plain_word. destruct w as [| c w]; [discriminate |].
  cbn [is_empty negb andb forall_chars]. intros H.
  apply andb_true_iff in H as [Hc Hw].
  exists c, (list_ascii_of_string w). repeat split; [exact Hc |].
  clear -Hw. induction w as [| d w IH]; [constructor |].
  cbn [forall_chars] in Hw. apply andb_true_iff in Hw as [Hd Hw].
  constructor; [exact Hd | exact (IH Hw)].
Qed.

(** The chunks of plain words joined by single spaces are the words and the
    spaces between them. *)
Lemma split_scan_spaced (ws : list string) :
  Forall (fun w => plain_word w = true) ws ->
  forall (w : string) (before : list ascii),
    plain_word w = true ->
    Textwrap.split_scan before [] Textwrap.AtStart (list_ascii_of_string (join " " (w :: ws)))
    = w :: spaced ws.
Proof.
  induction 1 as [| v ws Hv Hws IH]; intros w before Hw.
  - destruct (plain_word_chars w Hw) as (c & u & Hwu & Hc & Hu).
    cbn [join spaced flat_map]. rewrite Hwu.
    rewrite <- (app_nil_r u) at 1.
    rewrite (split_scan_word u Hu c before [] [] Textwrap.AtStart Hc)
      by (auto).
    cbn [rev app Textwrap.split_scan]. rewrite <- Hwu, string_of_list_ascii_of_string.
    reflexivity.
  - destruct (plain_word_chars w Hw) as (c & u & Hwu & Hc & Hu).
    destruct (plain_word_chars v Hv) as (c' & u' & Hvu & Hc' & Hu').
    change (join " " (w :: v :: ws)) with (w ++ " " ++ join " " (v :: ws)).
    rewrite list_ascii_of_string_append, Hwu.
    change (list_ascii_of_string (" " ++ join " " (v :: ws)))
      with (" "%char :: list_ascii_of_string (join " " (v :: ws))).
    change ((c :: u) ++ ?r)%list with (c :: u ++ r)%list.
    rewrite (split_scan_word u Hu c before [] _ Textwrap.AtStart Hc)
      by (eauto).
    cbn [rev app]. rewrite <- Hwu, string_of_list_ascii_of_string.
    f_equal.
    assert (Hhead : exists r, list_ascii_of_string (join " " (v :: ws)) = c' :: r).
    { destruct ws as [| x ws]; cbn [join].
      - rewrite Hvu. eauto.
      - rewrite list_ascii_of_string_append, Hvu. cbn [app]. eauto. }
    destruct Hhead as [r Hr]. rewrite Hr.
    apply plain_char_facts in Hc' as (Hws' & _).
    rewrite split_scan_space by exact Hws'.
    rewrite <- Hr, IH by exact Hv. reflexivity.
Qed.

Lemma len_append (a b : string) : len (a ++ b) = len a + len b.
Proof.
  unfold len. induction a as [| x a IH]; cbn [append String.length]; lia.
Qed.

Lemma join_empty_snoc (l : list string) (x : string) :
  join "" (l ++ [x]) = join "" l ++ x.
Proof.
  induction l as [| a l IH]; [reflexivity |].
  destruct l as [| b l].
  - cbn [app join]. reflexivity.
  - change ((a :: b :: l) ++ [x])%list with (a :: (b :: l) ++ [x])%list.
    change (join "" (a :: ((b :: l) ++ [x])%list))
      with (a ++ "" ++ join "" ((b :: l) ++ [x])%list).
    rewrite IH. cbn [join append]. now rewrite append_assoc.
Qed.

Lemma drop_trailing_blank_snoc (l : list string) (x : string) :
  Textwrap.drop_trailing_blank (l ++ [x]) =
  if Textwrap.is_blank x then l else (l ++ [x])%list.
Proof.
  unfold Textwrap.drop_trailing_blank. rewrite rev_unit.
  destruct (Textwrap.is_blank x); [apply rev_involutive | reflexivity].
Qed.

Lemma plain_word_not_blank (w : string) :
  plain_word w = true -> Textwrap.is_blank w = false.
Proof.
  unfold plain_word. destruct w as [| c w]; [discriminate |].
  cbn [is_empty negb andb forall_chars]. intros H.
  apply andb_true_iff in H as [Hc _].
  apply plain_char_facts in Hc as (_ & _ & Hsp & _).
  unfold Textwrap.is_blank, strip. cbn [lstrip]. rewrite Hsp.
  cbn [rstrip]. rewrite Hsp. reflexivity.
Qed.

Lemma plain_word_len (w : string) : plain_word w = true -> 1 <= len w.
Proof.
  unfold plain_word, len. destruct w; [discriminate |].
  cbn [String.length]. lia.
Qed.

Section GreedyWords.

Variable width : Z.
Hypothesis width_pos : 0 < width.

Lemma wrap_loop_new_line (ws : list string) (v : string) :
  fits width v ->
  (forall pre last lines fuel,
     Textwrap.is_blank last = false ->
     let cur_line := (pre ++ [last])%list in
     let e := Textwrap.end_line width
                (Textwrap.fill_line width (len (join "" cur_line)) cur_line (spaced ws)) in
     (Textwrap.chunks_weight (snd e) <= fuel)%nat ->
     Textwrap.wrap_loop fuel width
       (match fst e with Some l => lines ++ [l] | None => lines end)%list (snd e)
     = Some (lines ++ greedy_lines width (join "" cur_line) ws)%list) ->
  forall chunks lines cur fuel,
    chunks = v :: spaced ws \/ chunks = " " :: v :: spaced ws ->
    (Textwrap.chunks_weight chunks <= fuel)%nat ->
    Textwrap.wrap_loop fuel width (lines ++ [cur])%list chunks
    = Some ((lines ++ [cur]) ++ greedy_lines width v ws)%list.
Proof.
  intros [Hplain Hlen] IH chunks lines cur fuel Hchunks Hfuel.
  assert (Hstep : Textwrap.wrap_step width true chunks =
            Textwrap.end_line width
              (Textwrap.fill_line width (len (join "" ([] ++ [v])%list)) ([] ++ [v])%list
                 (spaced ws))).
  { unfold Textwrap.wrap_step.
    assert (Hch1 : match chunks with
                   | c :: rest => if Textwrap.is_blank c && true then rest else chunks
                   | [] => chunks
                   end = v :: spaced ws).
    { destruct Hchunks as [-> | ->].
      - rewrite (plain_word_not_blank v Hplain). reflexivity.
      - reflexivity. }
    rewrite Hch1. cbn [Textwrap.fill_line app join].
    change (0 + len v) with (len v).
    destruct (len v <=? width) eqn:Hfit; [reflexivity | apply Z.leb_gt in Hfit; lia]. }
  assert (Hdec : (Textwrap.chunks_weight (snd (Textwrap.wrap_step width true chunks))
                  < Textwrap.chunks_weight chunks)%nat).
  { destruct Hchunks as [-> | ->]; apply wrap_step_decreases; exact width_pos. }
  destruct fuel as [| fuel]; [lia |].
  assert (Hchunks' : exists c rest, chunks = c :: rest)
    by (destruct Hchunks as [-> | ->]; eauto).
  destruct Hchunks' as (c & rest & Hcr).
  rewrite Hcr. cbn [Textwrap.wrap_loop]. rewrite <- Hcr.
  assert (Hhave : negb match (lines ++ [cur])%list with [] => true | _ => false end = true)
    by (destruct lines; reflexivity).
  rewrite Hhave.
  specialize (IH [] v (lines ++ [cur])%list fuel (plain_word_not_blank v Hplain)).
  cbv zeta in IH. rewrite <- Hstep in IH.
  destruct (Textwrap.wrap_step width true chunks) as [line chunks'].
  cbn [fst snd] in IH, Hdec.
  apply IH. lia.
Qed.

Lemma end_line_spaced (ws : list string) :
  Forall (fits width) ws ->
  forall pre last lines fuel,
    Textwrap.is_blank last = false ->
    let cur_line := (pre ++ [last])%list in
    let e := Textwrap.end_line width
               (Textwrap.fill_line width (len (join "" cur_line)) cur_line (spaced ws)) in
    (Textwrap.chunks_weight (snd e) <= fuel)%nat ->
    Textwrap.wrap_loop fuel width
      (match fst e with Some l => lines ++ [l] | None => lines end)%list (snd e)
    = Some (lines ++ greedy_lines width (join "" cur_line) ws)%list.
Proof.
  induction 1 as [| v ws Hv Hws IH]; intros pre last lines fuel Hlast cur_line e.
  - subst e. cbn [spaced flat_map Textwrap.fill_line]. unfold Textwrap.end_line.
    subst cur_line. rewrite drop_trailing_blank_snoc, Hlast.
    destruct (pre ++ [last])%list eqn:Hcl; [destruct pre; discriminate |].
    rewrite <- Hcl. cbn [fst snd greedy_lines]. intros _.
    destruct fuel; reflexivity.
  - pose proof Hv as [Hplain Hlen].
    pose proof (plain_word_len v Hplain) as Hlen1.
    pose proof (plain_word_not_blank v Hplain) as Hvb.
    set (n := len (join "" cur_line)) in *.
    change (spaced (v :: ws)) with (" " :: v :: spaced ws) in e.
    cbn [Textwrap.fill_line] in e. change (len " ") with 1 in e.
    cbn [greedy_lines]. fold n.
    destruct (n + 1 <=? width) eqn:Hsp.
    + destruct (n + 1 + len v <=? width) eqn:Hfit.
      * (* the word joins the line *)
        subst e cur_line.
        specialize (IH (pre ++ [last] ++ [" "])%list v lines fuel Hvb).
        cbv zeta in IH.
        replace ((pre ++ [last] ++ [" "]) ++ [v])%list
          with (((pre ++ [last]) ++ [" "]) ++ [v])%list in IH
          by (now rewrite <- !app_assoc).
        rewrite (join_empty_snoc ((pre ++ [last]) ++ [" "])%list v) in IH.
        rewrite (join_empty_snoc (pre ++ [last])%list " ") in IH.
        rewrite !len_append in IH. change (len " ") with 1 in IH. fold n in IH.
        rewrite append_assoc in IH.
        exact IH.
      * (* the space fits, the word does not *)
        subst e. unfold Textwrap.end_line.
        destruct (width <? len v) eqn:Hlong; [apply Z.ltb_lt in Hlong; lia |].
        rewrite drop_trailing_blank_snoc. change (Textwrap.is_blank " ") with true.
        cbv iota.
        subst cur_line.
        destruct (pre ++ [last])%list eqn:Hcl; [destruct pre; discriminate |].
        rewrite <- Hcl. cbn [fst snd]. intros Hfuel.
        rewrite (wrap_loop_new_line ws v Hv IH (v :: spaced ws) lines
                   (join "" (pre ++ [last])%list) fuel (or_introl eq_refl) Hfuel).
        now rewrite <- app_assoc.
    + (* the line is full *)
      subst e. unfold Textwrap.end_line. change (len " ") with 1.
      destruct (width <? 1) eqn:Hw1; [apply Z.ltb_lt in Hw1; lia |].
      subst cur_line. rewrite drop_trailing_blank_snoc, Hlast.
      destruct (pre ++ [last])%list eqn:Hcl; [destruct pre; discriminate |].
      rewrite <- Hcl. cbn [fst snd]. intros Hfuel.
      assert (Hnofit : (n + 1 + len v <=? width) = false)
        by (apply Z.leb_gt; apply Z.leb_gt in Hsp; lia).
      rewrite Hnofit.
      rewrite (wrap_loop_new_line ws v Hv IH (" " :: v :: spaced ws) lines
                 (join "" (pre ++ [last])%list) fuel (or_intror eq_refl) Hfuel).
      now rewrite <- app_assoc.
Qed.

(** On plain words that fit the width, joined by single spaces,
    [textwrap.fill] is the greedy fill with whole words. *)
Lemma fill_plain_words (words : list string) :
  Forall (fits width) words ->
  Textwrap.fill (join " " words) width = Some (Ok (greedy_fill words width)).
Proof.
  intros Hwords.
  unfold Textwrap.fill, Textwrap.wrap, Textwrap.wrap_chunks, Textwrap.split_chunks.
  destruct (width <=? 0) eqn:Hw; [apply Z.leb_le in Hw; lia |].
  rewrite munge_spaced
    by (apply spaced_join; eapply Forall_impl; [| exact Hwords]; intros w [Hp _]; exact Hp).
  unfold Textwrap.split.
  destruct Hwords as [| w ws Hw0 Hws]; [reflexivity |].
  destruct Hw0 as [Hplain Hlen].
  rewrite split_scan_spaced;
    [| eapply Forall_impl; [| exact Hws]; intros v [Hp _]; exact Hp | exact Hplain].
  rewrite chunks_weight_cons. cbn [plus Textwrap.wrap_loop negb].
  unfold Textwrap.wrap_step. rewrite andb_false_r.
  cbn [Textwrap.fill_line]. change (0 + len w) with (len w).
  destruct (len w <=? width) eqn:Hfit; [| apply Z.leb_gt in Hfit; lia].
  pose proof (end_line_spaced ws Hws [] w []
                (String.length w + Textwrap.chunks_weight (spaced ws))
                (plain_word_not_blank w Hplain)) as Hsim.
  cbv zeta in Hsim. cbn [app join] in Hsim.
  pose proof (wrap_step_decreases width width_pos false w (spaced ws)) as Hdec.
  unfold Textwrap.wrap_step in Hdec. rewrite andb_false_r in Hdec.
  cbn [Textwrap.fill_line app] in Hdec. change (0 + len w) with (len w) in Hdec.
  rewrite Hfit in Hdec. rewrite chunks_weight_cons in Hdec.
  destruct (Textwrap.end_line width _) as [line chunks'].
  cbn [fst snd] in Hsim, Hdec.
  cbn [app]. rewrite Hsim by lia. reflexivity.
Qed.

End GreedyWords.

(** *** Layout of the caption *)

Lemma Zdigits2_log2 (n : Z) : 0 < n -> Zdigits2 n = Z.log2 n + 1.
Proof.
  destruct n as [| p | p]; try lia. intros _.
  destruct p as [p | p |]; cbn [Zdigits2 digits2_pos Z.log2]; try reflexivity.
  - assert (H : forall p, digits2_pos p = Pos.size p)
      by (induction p0; cbn; congruence).
    rewrite H. lia.
  - assert (H : forall p, digits2_pos p = Pos.size p)
      by (induction p0; cbn; congruence).
    rewrite H. lia.
Qed.

Lemma Zdigits2_unique (n d : Z) : 2 ^ (d - 1) <= n < 2 ^ d -> 0 < d -> Zdigits2 n = d.
Proof.
  intros Hn Hd.
  assert (0 < n) by (pose proof (Z.pow_pos_nonneg 2 (d - 1)); lia).
  rewrite Zdigits2_log2 by assumption.
  rewrite (Z.log2_unique n (d - 1)); [lia | lia |].
  replace (Z.succ (d - 1)) with d by lia. exact Hn.
Qed.

Lemma renormalize_spec (m1 e1 : Z) :
  2 ^ 52 <= m1 <= 2 ^ 53 -> -1074 <= e1 <= 970 ->
  exists m j, renormalize m1 e1 = S754_finite false m (e1 + j) /\
              0 <= j <= 1 /\ Zpos m * 2 ^ j = m1.
Proof.
  intros Hm He. unfold renormalize, shr_fexp, fexp, emin, prec, emax.
  destruct (Z.eq_dec m1 (2 ^ 53)) as [-> | Hne].
  - exists (4503599627370496)%positive, 1. 
    rewrite (Zdigits2_unique (2 ^ 53) 54) by (cbn; lia).
    rewrite Z.max_l by lia.
    replace (54 + e1 - 53 - e1) with 1 by lia.
    cbn [shr shr_record_of_loc iter_pos]. 
    change (2 ^ 53) with 9007199254740992. cbn [shr_1 shr_m].
    destruct (e1 + 1 <=? 1024 - 53) eqn:Hle; [| apply Z.leb_gt in Hle; lia].
    repeat split; lia.
  - rewrite (Zdigits2_unique m1 53) by lia.
    rewrite Z.max_l by lia.
    replace (53 + e1 - 53 - e1) with 0 by lia.
    cbn [shr shr_record_of_loc shr_m].
    destruct m1 as [| m | m]; try lia.
    exists m, 0.
    destruct (e1 <=? 1024 - 53) eqn:Hle; [| apply Z.leb_gt in Hle; lia].
    rewrite Z.add_0_r. repeat split; lia.
Qed.

Lemma binary_round_aux_renormalize (mx ex : Z) (lx : location) :
  binary_round_aux prec emax false mx ex lx =
    let '(mrs, e) := shr_fexp prec emax mx ex lx in
    renormalize (round_nearest_even (shr_m mrs) (loc_of_shr_record mrs)) e.
Proof.
  unfold binary_round_aux, renormalize.
  destruct (shr_fexp prec emax mx ex lx) as [mrs e].
  destruct (shr_fexp prec emax _ e loc_Exact) as [mrs' e'].
  reflexivity.
Qed.

Lemma loc_of_shr_record_of_loc (m : Z) (l : location) :
  loc_of_shr_record (shr_record_of_loc m l) = l.
Proof.
  destruct l as [| []]; reflexivity.
Qed.

(** Rounding a quotient of 53 or 54 bits: the float is [m * 2 ^ (ex + k)]
    with [m * 2 ^ k] within one of the quotient, and not above it unless the
    division was inexact when no bit is dropped. *)
Lemma round_quotient_spec (mx ex : Z) (lx : location) :
  2 ^ 52 <= mx < 2 ^ 54 -> -1074 <= ex <= 960 ->
  exists m k,
    binary_round_aux prec emax false mx ex lx = S754_finite false m (ex + k) /\
    0 <= k <= 2 /\
    mx - 1 <= Zpos m * 2 ^ k <= mx + 1 /\
    (k = 0 -> mx <= Zpos m /\ (Zpos m = mx + 1 -> lx <> loc_Exact)).
Proof.
  intros Hm He. rewrite binary_round_aux_renormalize.
  unfold shr_fexp, fexp, emin, prec, emax.
  destruct (Z_lt_ge_dec mx (2 ^ 53)) as [Hlt | Hge].
  - (* 53 bits: nothing is dropped *)
    rewrite (Zdigits2_unique mx 53) by lia.
    rewrite Z.max_l by lia.
    replace (53 + ex - 53 - ex) with 0 by lia.
    cbn [shr]. rewrite loc_of_shr_record_of_loc.
    assert (Hsm : shr_m (shr_record_of_loc mx lx) = mx) by (destruct lx as [| []]; reflexivity).
    rewrite Hsm.
    set (m1 := round_nearest_even mx lx).
    assert (Hm1 : mx <= m1 <= mx + 1 /\ (m1 = mx + 1 -> lx <> loc_Exact)).
    { subst m1. destruct lx as [| []]; cbn [round_nearest_even];
        try destruct (Z.even mx); split; try lia; intros; discriminate || lia. }
    destruct Hm1 as [Hb Hex].
    destruct (renormalize_spec m1 ex) as (m & j & Hr & Hj & Hmj); [lia | lia |].
    exists m, j. rewrite Hr. split; [reflexivity |]. split; [lia |].
    split; [lia |]. intros ->. rewrite Z.pow_0_r, Z.mul_1_r in Hmj.
    split; [lia |]. intros H. apply Hex. lia.
  - (* 54 bits: the last bit is dropped *)
    rewrite (Zdigits2_unique mx 54) by lia.
    rewrite Z.max_l by lia.
    replace (54 + ex - 53 - ex) with 1 by lia.
    cbn [shr iter_pos].
    set (mrs := shr_1 (shr_record_of_loc mx lx)).
    set (m1 := round_nearest_even (shr_m mrs) (loc_of_shr_record mrs)).
    assert (Hm1 : mx - 1 <= 2 * m1 <= mx + 1).
    { subst m1 mrs.
      destruct mx as [| [p | p |] | p]; try lia;
        destruct lx as [| []]; cbn [shr_record_of_loc shr_1 orb shr_m loc_of_shr_record
                                     round_nearest_even];
        try destruct (Z.even (Z.pos p)); lia. }
    destruct (renormalize_spec m1 (ex + 1)) as (m & j & Hr & Hj & Hmj); [lia | lia |].
    exists m, (1 + j). rewrite Hr. split; [f_equal; lia |]. split; [lia |].
    split; [| lia].
    rewrite Z.pow_add_r by lia. change (2 ^ 1) with 2. 
    replace (Z.pos m * (2 * 2 ^ j)) with (2 * (Z.pos m * 2 ^ j)) by ring.
    rewrite Hmj. exact Hm1.
Qed.

(** A float within one unit in the last place of [w / 18], with 32 units
    at least to the integer, truncates to the floor of [w / 18]. *)
Lemma near_floor (w m P K r q : Z) :
  0 <= w -> 32 <= P -> 0 < K ->
  w * (P * K) = 18 * q + r -> 0 <= r < 18 ->
  q - 1 <= m * K <= q + 1 ->
  (K = 1 -> q <= m /\ (m = q + 1 -> r <> 0)) ->
  m / P = w / 18.
Proof.
  intros Hw HP HK Hdiv Hr Hm Hone.
  pose proof (Z.div_mod w 18 ltac:(lia)) as Hw18.
  pose proof (Z.mod_pos_bound w 18 ltac:(lia)) as Hrho.
  set (k := w / 18) in *. set (rho := w mod 18) in *.
  symmetry. apply (Z.div_unique m P k (m - P * k)); [| lia].
  left.
  assert (Hkey : 18 * (m * K) - w * (P * K) < 18 * K /\
                 w * (P * K) - 18 * (m * K) < 18 * K).
  { destruct (Z.eq_dec K 1) as [-> | HK1].
    - destruct (Hone eq_refl) as [Hq Hup].
      destruct (Z.eq_dec m (q + 1)) as [-> | Hneq]; [specialize (Hup eq_refl) |]; lia.
    - assert (2 <= K) by lia. nia. }
  destruct Hkey as [Hup Hdown].
  assert (H1 : 18 * m - w * P < 18) by nia.
  assert (H2 : w * P - 18 * m < 18) by nia.
  split; nia.
Qed.

(** [int(image_width / 18)] is the floor of the quotient: the division
    rounds to a float within one unit in the last place of the quotient,
    and that unit is 1/32 at most. *)
Lemma font_size_floor (image_width : Z) :
  0 <= image_width < 2 ^ 51 -> font_size image_width = Ok (image_width / 18).
Proof.
  intros Hw. destruct (Z.eq_dec image_width 0) as [-> | Hne]; [reflexivity |].
  set (w := image_width) in *.
  assert (Hpos : 0 < w) by lia.
  set (d := Zdigits2 w).
  assert (Hd : 1 <= d <= 51 /\ 2 ^ (d - 1) <= w < 2 ^ d).
  { subst d. rewrite Zdigits2_log2 by exact Hpos.
    pose proof (Z.log2_spec w Hpos) as Hlog. pose proof (Z.log2_nonneg w) as Hnn.
    replace (Z.log2 w + 1 - 1) with (Z.log2 w) by lia.
    replace (Z.log2 w + 1) with (Z.succ (Z.log2 w)) by lia.
    split; [| exact Hlog].
    assert (Z.log2 w < 51); [| lia].
    apply Z.log2_lt_pow2; lia. }
  destruct Hd as [Hd Hwd].
  set (sh := 58 - d).
  assert (Hsh : 7 <= sh <= 57) by (subst sh; lia).
  pose proof (Z.div_mod (w * 2 ^ sh) 18 ltac:(lia)) as Hdiv.
  pose proof (Z.mod_pos_bound (w * 2 ^ sh) 18 ltac:(lia)) as Hr.
  set (q := w * 2 ^ sh / 18) in *. set (r := (w * 2 ^ sh) mod 18) in *.
  assert (Hm' : 2 ^ 57 <= w * 2 ^ sh < 2 ^ 58).
  { replace (2 ^ 57) with (2 ^ (d - 1) * 2 ^ sh)
      by (rewrite <- Z.pow_add_r by lia; f_equal; subst sh; lia).
    replace (2 ^ 58) with (2 ^ d * 2 ^ sh)
      by (rewrite <- Z.pow_add_r by lia; f_equal; subst sh; lia).
    pose proof (Z.pow_pos_nonneg 2 sh ltac:(lia) ltac:(lia)). nia. }
  assert (Hq : 2 ^ 52 <= q < 2 ^ 54).
  { change (2 ^ 57) with 144115188075855872 in Hm'.
    change (2 ^ 58) with 288230376151711744 in Hm'.
    change (2 ^ 52) with 4503599627370496. change (2 ^ 54) with 18014398509481984. lia. }
  set (l := if r =? 0 then loc_Exact else loc_Inexact (2 * r ?= 18)).
  assert (Hcore : SFdiv_core_binary prec emax w 0 18 0 = (q, - sh, l)).
  { unfold SFdiv_core_binary. fold d. change (Zdigits2 18) with 5.
    unfold fexp, emin, prec, emax.
    replace (Z.min (Z.max (d + 0 - (5 + 0) - 53) (3 - 1024 - 53)) (0 - 0)) with (- sh)
      by (subst sh; lia).
    replace (0 - 0 - - sh) with sh by lia.
    destruct sh as [| p | p] eqn:Hp; try lia.
    rewrite Z.shiftl_mul_pow2 by lia.
    unfold Z.div, Z.modulo in q, r.
    destruct (Z.div_eucl (w * 2 ^ Z.pos p) 18) as [q' r'] eqn:Heucl.
    cbn [fst snd] in q, r. subst q r l. reflexivity. }
  destruct (round_quotient_spec q (- sh) l Hq ltac:(lia))
    as (m & k & Hround & Hk & HU & Hk0).
  assert (Hdivf : int_truediv w 18 = Ok (S754_finite false m (- sh + k))).
  { unfold int_truediv. change (18 =? 0) with false. cbv iota.
    destruct (w =? 0) eqn:Hw0; [apply Z.eqb_eq in Hw0; lia |].
    assert (Hsign : xorb (w <? 0) (18 <? 0) = false).
    { destruct (w <? 0) eqn:Hneg; [apply Z.ltb_lt in Hneg; lia | reflexivity]. }
    rewrite Hsign. rewrite (Z.abs_eq w) by lia. change (Z.abs 18) with 18.
    rewrite Hcore, Hround. reflexivity. }
  unfold font_size. rewrite Hdivf. unfold int_of_float.
  destruct (0 <=? - sh + k) eqn:He; [apply Z.leb_le in He; lia |].
  cbn [cond_Zopp]. rewrite Z.shiftr_div_pow2 by lia. f_equal.
  assert (Hpow : 2 ^ sh = 2 ^ (- (- sh + k)) * 2 ^ k)
    by (rewrite <- Z.pow_add_r by lia; f_equal; lia).
  assert (HP : 32 <= 2 ^ (- (- sh + k))).
  { change 32 with (2 ^ 5). apply Z.pow_le_mono_r; lia. }
  assert (HK : 0 < 2 ^ k) by (apply Z.pow_pos_nonneg; lia).
  apply (near_floor w (Z.pos m) (2 ^ (- (- sh + k))) (2 ^ k) r q); try lia.
  intros HK1.
  assert (k = 0).
  { destruct (Z.eq_dec k 0) as [-> | Hk0']; [reflexivity |].
    assert (2 ^ 1 <= 2 ^ k) by (apply Z.pow_le_mono_r; lia).
    change (2 ^ 1) with 2 in *. lia. }
  subst k. destruct (Hk0 eq_refl) as [Hge Hup]. split; [exact Hge |].
  intros Hm1 Hr0. apply (Hup Hm1). subst l. rewrite Hr0. reflexivity.
Qed.

Lemma sum_right_spec (w : World) (font : Font) (chars : list string) :
  forall acc total,
    sum_right w font chars acc = Ok total ->
    exists boxes,
      Forall2 (fun char b => getbbox w font char = Ok b) chars boxes /\
      total = acc + sum_of_rights boxes.
Proof.
  induction chars as [| char chars IH]; intros acc total H.
  - inversion H; subst. exists []. split; [constructor |].
    unfold sum_of_rights. cbn [fold_right]. lia.
  - cbn [sum_right] in H. destruct (getbbox w font char) as [b | e] eqn:Hb; [| discriminate].
    destruct (IH _ _ H) as (boxes & Hall & ->).
    exists (b :: boxes). split; [constructor; assumption |].
    unfold sum_of_rights. cbn [fold_right]. lia.
Qed.

Lemma text_calls_map (calls : list text_call) : text_calls (map EvText calls) = calls.
Proof.
  induction calls as [| c calls IH]; [reflexivity | cbn; now rewrite IH].
Qed.

(** *** textwrap: no line is longer than the width *)

Lemma join_empty_cons (x : string) (l : list string) : join "" (x :: l) = x ++ join "" l.
Proof.
  destruct l as [| y l]; cbn [join]; [now rewrite append_empty_r | reflexivity].
Qed.

Lemma total_len_app (a b : list string) : total_len (a ++ b) = total_len a + total_len b.
Proof.
  unfold total_len. induction a as [| x a IH]; cbn [app fold_right]; lia.
Qed.

Lemma len_join_empty (l : list string) : len (join "" l) = total_len l.
Proof.
  induction l as [| x l IH]; [reflexivity |].
  rewrite join_empty_cons, len_append, IH. reflexivity.
Qed.

Lemma len_nonneg (s : string) : 0 <= len s.
Proof.
  unfold len. lia.
Qed.

Lemma total_len_nonneg (l : list string) : 0 <= total_len l.
Proof.
  unfold total_len. induction l as [| x l IH]; cbn [fold_right]; [lia |].
  pose proof (len_nonneg x). lia.
Qed.

Lemma length_str_firstn (n : nat) (s : string) :
  (String.length (str_firstn n s) <= n)%nat.
Proof.
  revert s. induction n as [| n IH]; intros s; [simpl; lia |].
  destruct s as [| c s]; cbn [str_firstn String.length]; [lia |].
  specialize (IH s). lia.
Qed.

Lemma len_slice_to (s : string) (stop : Z) : 0 <= stop -> len (slice_to s stop) <= stop.
Proof.
  intros Hs. unfold slice_to, len.
  pose proof (length_str_firstn (slice_index (Z.of_nat (String.length s)) stop) s) as H.
  unfold slice_index in *. destruct (stop <? 0) eqn:Hneg; [apply Z.ltb_lt in Hneg; lia |].
  lia.
Qed.

Lemma rfind_from_bound (c : ascii) (s : string) (i : Z) :
  0 <= i -> rfind_from c s i < i + len s.
Proof.
  revert i. unfold len.
  induction s as [| d s IH]; intros i Hi; cbn [rfind_from String.length]; [lia |].
  specialize (IH (i + 1) ltac:(lia)).
  destruct (0 <=? rfind_from c s (i + 1)); [lia |].
  destruct (Ascii.eqb c d); lia.
Qed.

Lemma total_len_drop_trailing_blank (l : list string) :
  total_len (Textwrap.drop_trailing_blank l) <= total_len l.
Proof.
  destruct l as [| x l'] using rev_ind; [reflexivity |].
  rewrite drop_trailing_blank_snoc.
  destruct (Textwrap.is_blank x); [| lia].
  rewrite total_len_app. pose proof (total_len_nonneg [x]). lia.
Qed.

Section LinesFit.

Variable width : Z.
Hypothesis width_pos : 0 < width.

Lemma fill_line_fits (chunks : list string) :
  forall cur_line cur_len,
    total_len cur_line = cur_len -> cur_len <= width ->
    let '(cl, n, _) := Textwrap.fill_line width cur_len cur_line chunks in
    total_len cl = n /\ n <= width.
Proof.
  induction chunks as [| c rest IH]; intros cur_line cur_len Hsum Hle;
    cbn [Textwrap.fill_line]; [auto |].
  destruct (cur_len + len c <=? width) eqn:Hfit; [| auto].
  apply Z.leb_le in Hfit. apply IH; [| exact Hfit].
  rewrite total_len_app. unfold total_len at 2. cbn [fold_right]. lia.
Qed.

Lemma handle_long_word_fits (c : string) (rest cur_line : list string) (cur_len : Z) :
  total_len cur_line = cur_len -> cur_len <= width ->
  total_len (fst (Textwrap.handle_long_word c rest cur_line cur_len width)) <= width.
Proof.
  intros Hsum Hle. unfold Textwrap.handle_long_word.
  destruct (width <? 1) eqn:Hw1; [apply Z.ltb_lt in Hw1; lia |].
  set (space_left := width - cur_len).
  set (stop := if space_left <? len c then _ else space_left).
  assert (Hstop : 0 <= stop <= space_left).
  { subst stop. destruct (space_left <? len c); [| subst space_left; lia].
    destruct ((0 <? rfind c "-" space_left) && _) eqn:Hh; [| subst space_left; lia].
    apply andb_true_iff in Hh as [Hh _]. apply Z.ltb_lt in Hh.
    unfold rfind in *.
    pose proof (rfind_from_bound "-" (slice_to c space_left) 0 ltac:(lia)) as Hb.
    pose proof (len_slice_to c space_left ltac:(subst space_left; lia)). lia. }
  cbn [fst]. rewrite total_len_app. unfold total_len at 2. cbn [fold_right].
  pose proof (len_slice_to c stop ltac:(lia)). subst space_left. lia.
Qed.

Lemma end_line_fits (cur_line chunks2 : list string) (cur_len : Z) (line : string) :
  total_len cur_line = cur_len -> cur_len <= width ->
  fst (Textwrap.end_line width (cur_line, cur_len, chunks2)) = Some line ->
  len line <= width.
Proof.
  intros Hsum Hle. unfold Textwrap.end_line.
  assert (Hcl1 : total_len
            (fst match chunks2 with
                 | c :: rest =>
                     if Z.ltb width (len c)
                     then Textwrap.handle_long_word c rest cur_line cur_len width
                     else (cur_line, chunks2)
                 | [] => (cur_line, chunks2)
                 end) <= width).
  { destruct chunks2 as [| c rest]; [cbn [fst]; lia |].
    destruct (Z.ltb width (len c)); [| cbn [fst]; lia].
    apply handle_long_word_fits; assumption. }
  destruct (match chunks2 with [] => _ | _ => _ end) as [cl1 ch3]. cbn [fst] in Hcl1.
  pose proof (total_len_drop_trailing_blank cl1) as Hdrop.
  destruct (Textwrap.drop_trailing_blank cl1) as [| x l] eqn:Hd; cbn [fst]; [discriminate |].
  intros H. injection H as <-.
  change (len (join "" (x :: l)) <= width). rewrite len_join_empty. lia.
Qed.

Lemma wrap_step_fits (have_lines : bool) (chunks : list string) (line : string) :
  fst (Textwrap.wrap_step width have_lines chunks) = Some line -> len line <= width.
Proof.
  unfold Textwrap.wrap_step.
  set (chunks1 := match chunks with [] => _ | _ => _ end).
  pose proof (fill_line_fits chunks1 [] 0 eq_refl ltac:(lia)) as Hfl.
  destruct (Textwrap.fill_line width 0 [] chunks1) as [[cl n] ch].
  destruct Hfl as [Hsum Hle]. apply end_line_fits; assumption.
Qed.

Lemma wrap_loop_fits (fuel : nat) :
  forall lines chunks out,
    Forall (fun l => len l <= width) lines ->
    Textwrap.wrap_loop fuel width lines chunks = Some out ->
    Forall (fun l => len l <= width) out.
Proof.
  induction fuel as [| fuel IH]; intros lines chunks out Hlines Hloop.
  - destruct chunks; [inversion Hloop; now subst | discriminate].
  - destruct chunks as [| c rest]; [inversion Hloop; now subst |].
    cbn [Textwrap.wrap_loop] in Hloop.
    pose proof (wrap_step_fits (negb match lines with [] => true | _ => false end)
                  (c :: rest)) as Hstep.
    destruct (Textwrap.wrap_step width _ (c :: rest)) as [line chunks'].
    cbn [fst] in Hstep. refine (IH _ _ _ _ Hloop).
    destruct line as [l |]; [| exact Hlines].
    apply Forall_app. split; [exact Hlines |]. constructor; [| constructor].
    apply Hstep. reflexivity.
Qed.

End LinesFit.

(** The lines of [textwrap.wrap] are no longer than the width. *)
Lemma wrap_lines_fit (text : string) (width : Z) (lines : list string) :
  Textwrap.wrap text width = Some (Ok lines) ->
  0 < width /\ Forall (fun l => len l <= width) lines.
Proof.
  unfold Textwrap.wrap, Textwrap.wrap_chunks.
  destruct (width <=? 0) eqn:Hw; [discriminate |].
  apply Z.leb_gt in Hw.
  destruct (Textwrap.wrap_loop _ width [] _) as [out |] eqn:Hloop; [| discriminate].
  cbn [option_map]. intros H. inversion H; subst out. split; [exact Hw |].
  exact (wrap_loop_fits width Hw _ _ _ _ (Forall_nil _) Hloop).
Qed.

Lemma fill_is_joined_wrap (text : string) (width : Z) (wrapped : string) :
  Textwrap.fill text width = Some (Ok wrapped) ->
  exists lines, Textwrap.wrap text width = Some (Ok lines) /\
                wrapped = join (String "010" "") lines.
Proof.
  unfold Textwrap.fill. destruct (Textwrap.wrap text width) as [[lines | e] |];
    intros H; inversion H. eauto.
Qed.

(** C6 (as amended): a successful render lays out the upper-cased caption.
    The font is loaded at size [int(image_width / 18)], the division being
    the float division of Python; for a width below 2^51 this is the floor
    of the quotient.  The average glyph width is the sum of the right edges
    of the boxes measured for the 26 letters A, B, ..., Z, divided by 26; the
    line budget is [int(image_width * 0.9 / average)] in float arithmetic,
    and it is positive.  The text drawn is [textwrap.fill] of the upper-cased
    caption at that budget: lines joined by line feeds, none longer than
    the budget, so that a word longer than the budget is cut.  When the
    upper-cased caption is a list of words without whitespace or hyphens,
    each within the budget, joined by single spaces, that text is the
    greedy fill with whole words: a word goes onto the current line while
    the line with it fits the budget, else a new line starts. *)
Theorem caption_layout
    (w : World) (template_path top_text : string) (img : Image) (t : list event) :
  create_image_with_text w template_path top_text = (Ret (Some img), t) ->
  exists tpl quotient size font boxes avg fw q budget lines,
    image_open w template_path = Ok tpl /\
    int_truediv (im_width tpl) 18 = Ok quotient /\
    int_of_float quotient = Ok size /\
    (0 <= im_width tpl < 2 ^ 51 -> size = im_width tpl / 18) /\
    truetype w FONT_FILE size = Ok font /\
    Forall2 (fun char b => getbbox w font char = Ok b)
      ["A"; "B"; "C"; "D"; "E"; "F"; "G"; "H"; "I"; "J"; "K"; "L"; "M";
       "N"; "O"; "P"; "Q"; "R"; "S"; "T"; "U"; "V"; "W"; "X"; "Y"; "Z"] boxes /\
    int_truediv (sum_of_rights boxes) 26 = Ok avg /\
    float_of_int (im_width tpl) = Ok fw /\
    float_truediv (float_mul fw float_0_9) avg = Ok q /\
    int_of_float q = Ok budget /\
    0 < budget /\
    Textwrap.fill (upper top_text) budget = Some (Ok (join (String "010" "") lines)) /\
    Forall (fun l => len l <= budget) lines /\
    Forall (fun call => tc_text call = join (String "010" "") lines /\ tc_font call = font)
      (text_calls t) /\
    (forall words,
       upper top_text = join " " words ->
       Forall (fits budget) words ->
       join (String "010" "") lines = greedy_fill words budget).
Proof.
  intros Hrun.
  apply create_image_success in Hrun
    as (tpl & size & font & avg & budget & wrapped & bb & px & xl & xr &
        Hopen & Hsize & Hfont & Havg & Hcpl & Hfill & _ & _ & _ & _ & _ & Ht).
  unfold avg_char_width in Havg.
  destruct (sum_right w font alphabet 0) as [total | e] eqn:Hsum; [| discriminate].
  apply sum_right_spec in Hsum as (boxes & Hboxes & Htotal).
  rewrite Z.add_0_l in Htotal. subst total.
  unfold chars_per_line in Hcpl.
  destruct (float_of_int (im_width tpl)) as [fw | e] eqn:Hfw; [| discriminate].
  destruct (float_truediv (float_mul fw float_0_9) avg) as [q | e] eqn:Hq; [| discriminate].
  assert (Hfloor : 0 <= im_width tpl < 2 ^ 51 -> size = im_width tpl / 18).
  { intros Hw. rewrite (font_size_floor _ Hw) in Hsize. now inversion Hsize. }
  unfold font_size in Hsize.
  destruct (int_truediv (im_width tpl) 18) as [quotient | e] eqn:Hquotient; [| discriminate].
  destruct (fill_is_joined_wrap _ _ _ Hfill) as (lines & Hwrap & ->).
  apply wrap_lines_fit in Hwrap as [Hpos Hfit].
  exists tpl, quotient, size, font, boxes, avg, fw, q, budget, lines.
  repeat split; try assumption.
  - subst t. cbn [text_calls]. rewrite text_calls_map.
    repeat constructor.
  - intros words Hwords Hfits.
    rewrite Hwords, (fill_plain_words budget Hpos words Hfits) in Hfill.
    now inversion Hfill.
Qed.

Lemma caption_layout_witness :
  Forall (fun call => tc_text call = "COFFEE IS MY LIFELINE")
    (text_calls (snd Demo.coffee_run)) /\
  greedy_fill ["COFFEE"; "IS"; "MY"; "LIFELINE"] 27 = "COFFEE IS MY LIFELINE".
Proof.
  destruct (caption_layout Demo.coffee_world "templates/drake.png"
              "coffee is my lifeline" Demo.coffee_meme (snd Demo.coffee_run))
    as (tpl & quotient & size & font & boxes & avg & fw & q & budget & lines &
        _ & _ & _ & _ & _ & _ & _ & _ & _ & _ & _ & _ & _ & Hcalls & _).
  - vm_compute. reflexivity.
  - split; [| reflexivity].
    assert (Hw : join (String "010" "") lines = "COFFEE IS MY LIFELINE").
    { vm_compute in Hcalls. inversion Hcalls as [| c cs [Hc _] _]. exact (eq_sym Hc). }
    rewrite <- Hw.
    eapply Forall_impl; [| exact Hcalls]. intros c [Hc _]. exact Hc.
Defined.

(** C6 as stated fails: [textwrap.fill] keeps words whole only while they
    fit a line; a word longer than the budget is broken across lines, where
    the fill with whole words leaves it on a line of its own. *)
Lemma long_word_is_broken :
  ~ (forall (w : World) (template_path top_text : string) (img tpl : Image)
            (t : list event) (size : Z) (font : Font) (avg : float) (budget : Z),
       create_image_with_text w template_path top_text = (Ret (Some img), t) ->
       image_open w template_path = Ok tpl ->
       font_size (im_width tpl) = Ok size ->
       truetype w FONT_FILE size = Ok font ->
       avg_char_width w font = Ok avg ->
       chars_per_line (im_width tpl) avg = Ok budget ->
       Forall (fun call => tc_text call = greedy_fill (words (upper top_text)) budget)
         (text_calls t)).
Proof.
  intros H.
  specialize (H Demo.coffee_world "templates/drake.png" Demo.long_word
                Demo.long_word_meme
                {| im_width := 800; im_height := 600; im_texts := [] |}
                (snd Demo.long_word_run) 44
                {| font_file := FONT_FILE; font_size_px := 44 |}
                (S754_finite false 7318349394477056 (-48)) 27).
  assert (Hrun : create_image_with_text Demo.coffee_world "templates/drake.png"
                   Demo.long_word
                 = (Ret (Some Demo.long_word_meme), snd Demo.long_word_run))
    by (vm_compute; reflexivity).
  specialize (H Hrun eq_refl).
  assert (Hsize : font_size 800 = Ok 44) by (vm_compute; reflexivity).
  specialize (H Hsize eq_refl).
  assert (Havg : avg_char_width Demo.coffee_world
                   {| font_file := FONT_FILE; font_size_px := 44 |}
                 = Ok (S754_finite false 7318349394477056 (-48)))
    by (vm_compute; reflexivity).
  specialize (H Havg).
  assert (Hcpl : chars_per_line 800 (S754_finite false 7318349394477056 (-48)) = Ok 27)
    by (vm_compute; reflexivity).
  specialize (H Hcpl).
  vm_compute in H. inversion H as [| c cs Hc _]. discriminate Hc.
Qed.

(** *** The scenarios of the specification, run *)

Lemma template_catalog_witness :
  templates Demo.coffee_world = (Ret ["drake.png"; "cat.jpeg"], [EvListdir TEMPLATE_DIR]) /\
  templates Demo.empty_dir_world =
    (Stopped,
     [EvListdir TEMPLATE_DIR;
      EvError "No templates found in the 'templates' folder. Please add some images."]) /\
  fst (script Demo.no_dir_world (Demo.click "cats")) = Stopped.
Proof.
  destruct (template_catalog Demo.coffee_world) as (_ & Hsome & _).
  destruct (template_catalog Demo.empty_dir_world) as (_ & _ & Hnone & _).
  destruct (template_catalog Demo.no_dir_world) as (_ & _ & _ & Habsent & Hstop).
  split; [| split].
  - destruct (Hsome ["drake.png"; "notes.txt"; "cat.jpeg"; "README"] eq_refl)
      as (ts & Hrun & _).
    + exists "drake.png". split; [left; reflexivity |].
      apply endswith_any_image. reflexivity.
    + rewrite Hrun. vm_compute in Hrun. inversion Hrun. reflexivity.
  - apply (Hnone ["notes.txt"; "photo.PNG"]); [reflexivity |].
    intros f Hin Hsuf. apply endswith_any_image in Hsuf.
    destruct Hin as [<- | [<- | []]]; vm_compute in Hsuf; discriminate Hsuf.
  - apply (Hstop (Demo.click "cats") _
             (Habsent (Exn FileNotFoundError
                         "[Errno 2] No such file or directory: 'templates'")
                eq_refl eq_refl)).
Defined.

(** A template whose line budget is zero: [textwrap.fill] raises, the
    renderer shows the error and returns [None]. *)
Example zero_budget_returns_none :
  create_image_with_text Demo.narrow_world "templates/drake.png" "x" =
    (Ret None,
     [EvImageOpen "templates/drake.png";
      EvTruetype FONT_FILE 2;
      EvError "An error occurred during image creation: invalid width 0 (must be > 0)"]).
Proof.
  vm_compute. reflexivity.
Qed.

(** A word longer than the budget of 27 characters is broken after 27. *)
Example long_word_wrapped :
  Textwrap.fill (upper Demo.long_word) 27 =
    Some (Ok ("SUPERCALIFRAGILISTICEXPIALI" ++ String "010" "DOCIOUS")).
Proof.
  vm_compute. reflexivity.
Qed.

(** A hyphenated word is broken after its hyphen. *)
Example hyphenated_word_wrapped :
  Textwrap.fill "WELL-KNOWN FACT" 7 =
    Some (Ok ("WELL-" ++ String "010" "KNOWN" ++ String "010" "FACT")).
Proof.
  vm_compute. reflexivity.
Qed.

(** The 800x600 template with the topic "monday mornings": one line,
    "COFFEE IS MY LIFELINE", on an image of 800x600. *)
Example monday_mornings :
  exists img t,
    script Demo.coffee_world (Demo.click "monday mornings") = (Ret tt, t) /\
    shown t = [EvShowFile "templates/drake.png"; EvShowImage img] /\
    im_width img = 800 /\ im_height img = 600 /\
    map tc_text (im_texts img) =
      ["COFFEE IS MY LIFELINE"; "COFFEE IS MY LIFELINE"; "COFFEE IS MY LIFELINE";
       "COFFEE IS MY LIFELINE"; "COFFEE IS MY LIFELINE"] /\
    map tc_fill (im_texts img) = ["black"; "black"; "black"; "black"; "white"] /\
    map tc_y (im_texts img) = [13; 17; 13; 17; 15].
Proof.
  exists Demo.coffee_meme. eexists. split; [vm_compute; reflexivity |].
  vm_compute. repeat split.
Qed.

(** Beyond the range of [font_size_floor] the float quotient can round up to
    the next integer: for this width of 2^54 + 7, [int(image_width / 18)] is
    one more than the floor. *)
Example font_size_above_floor :
  font_size 18014398509481991 = Ok 1000799917193444 /\
  18014398509481991 / 18 = 1000799917193443.
Proof.
  split; vm_compute; reflexivity.
Qed.

(** The literal [0.9] is the float nearest to 9/10. *)
Example float_0_9_is_nine_tenths : int_truediv 9 10 = Ok float_0_9.
Proof.
  vm_compute. reflexivity.
Qed.

(** ** Further properties of the script *)

(** *** Trimming *)

Lemma rstrip_idempotent (s : string) : rstrip (rstrip s) = rstrip s.
Proof.
  induction s as [| x s IH]; [reflexivity |].
  cbn [rstrip]. destruct (isspace x && is_empty (rstrip s)) eqn:Hx; [reflexivity |].
  cbn [rstrip]. rewrite IH, Hx. reflexivity.
Qed.

Lemma lstrip_head (s : string) :
  lstrip s = "" \/ exists c r, lstrip s = String c r /\ isspace c = false.
Proof.
  induction s as [| x s IH]; [left; reflexivity |].
  cbn [lstrip]. destruct (isspace x) eqn:Hx; [exact IH | right; eauto].
Qed.

Lemma strip_idempotent (s : string) : strip (strip s) = strip s.
Proof.
  unfold strip. destruct (lstrip_head s) as [-> | (c & r & -> & Hc)]; [reflexivity |].
  cbn [rstrip]. rewrite Hc. cbn [andb lstrip]. rewrite Hc.
  cbn [rstrip]. rewrite Hc, rstrip_idempotent. reflexivity.
Qed.

Lemma lstrip_spaces (s : string) : forall_chars isspace s = true -> lstrip s = "".
Proof.
  induction s as [| x s IH]; [reflexivity |].
  cbn [forall_chars lstrip]. intros H. apply andb_true_iff in H as [-> Hs]. exact (IH Hs).
Qed.

Lemma clean_up_is_stripped (sequences : list dict) (prompt txt : string) :
  clean_up sequences prompt = Ok txt -> strip txt = txt.
Proof.
  unfold clean_up. destruct (first sequences) as [d | e]; [| discriminate].
  destruct (dict_get d "generated_text") as [raw | e]; [| discriminate].
  intros H. inversion H. apply strip_idempotent.
Qed.

(** X1: whatever the pipeline does, [generate_caption] returns a caption,
    the caption is not empty and has no whitespace around it, and the
    pipeline has been called once at most. *)
Theorem caption_is_never_empty
    (text_generator : string -> gen_config -> result (list dict)) (prompt_text : string) :
  exists caption t,
    generate_caption text_generator prompt_text = (Ret caption, t) /\
    caption <> "" /\
    strip caption = caption /\
    (generator_calls t <= 1)%nat.
Proof.
  unfold generate_caption. destruct (is_empty prompt_text).
  - exists "Please enter a topic!", []. repeat split; [discriminate | cbn; lia].
  - rewrite bind_emit.
    destruct (text_generator (full_prompt prompt_text) generation_config) as [seqs | e];
      cbn [lift ret bind try_except fst snd].
    + destruct (clean_up seqs (full_prompt prompt_text)) as [txt | e] eqn:Hclean;
        cbn [lift ret bind try_except fst snd app emit].
      * eexists. eexists. split; [reflexivity |].
        destruct txt as [| c txt'] eqn:Htxt; cbn [is_empty].
        -- repeat split; [discriminate | cbn; lia].
        -- rewrite <- Htxt in *. repeat split.
           ++ rewrite Htxt. discriminate.
           ++ exact (clean_up_is_stripped _ _ _ Hclean).
           ++ cbn. lia.
      * eexists. eexists. split; [reflexivity |].
        repeat split; [discriminate | cbn; lia].
    + eexists. eexists. split; [reflexivity |].
      repeat split; [discriminate | cbn; lia].
Qed.

(** *** Malformed responses *)

Lemma dict_get_missing (d : dict) (key : string) :
  (forall v, ~ In (key, v) d) ->
  dict_get d key = Raise (Exn KeyError ("'" ++ key ++ "'")).
Proof.
  induction d as [| [k v] d IH]; intros Hmiss; [reflexivity |].
  cbn [dict_get]. destruct (String.eqb k key) eqn:Hk.
  - apply String.eqb_eq in Hk. subst k. elim (Hmiss v). left. reflexivity.
  - apply IH. intros v' Hin. apply (Hmiss v'). right. exact Hin.
Qed.

(** X2: when the pipeline returns no sequence, or a first sequence without
    the key 'generated_text', [generate_caption] treats it as a failure: it
    shows the [IndexError] or [KeyError] with [st.error] and returns "Error
    generating text."; the pipeline has been called once. *)
Theorem malformed_response_is_failure
    (text_generator : string -> gen_config -> result (list dict))
    (topic : string) (sequences : list dict) :
  topic <> "" ->
  text_generator (full_prompt topic) generation_config = Ok sequences ->
  (sequences = [] \/
   exists d others, sequences = d :: others /\ forall v, ~ In ("generated_text", v) d) ->
  generate_caption text_generator topic =
    (Ret "Error generating text.",
     [EvGenerate (full_prompt topic) generation_config;
      EvError ("Error during AI caption generation: " ++
               match sequences with
               | [] => "list index out of range"
               | _ => "'generated_text'"
               end)]).
Proof.
  intros Hne Hgen Hbad. unfold generate_caption.
  destruct topic as [| c topic']; [congruence |]. cbn [is_empty].
  rewrite bind_emit, Hgen. cbn [lift ret bind]. unfold clean_up.
  destruct Hbad as [-> | (d & others & -> & Hmiss)].
  - reflexivity.
  - cbn [first]. rewrite (dict_get_missing d "generated_text" Hmiss). reflexivity.
Qed.

Lemma malformed_response_is_failure_witness :
  generate_caption Demo.empty_generator "cats" =
    (Ret "Error generating text.",
     [EvGenerate (full_prompt "cats") generation_config;
      EvError "Error during AI caption generation: list index out of range"]).
Proof.
  apply (malformed_response_is_failure Demo.empty_generator "cats" []);
    [discriminate | reflexivity | left; reflexivity].
Defined.

(** *** A pipeline that only echoes, fails, or does not echo *)

Lemma prompt_not_in_spaces (topic ws : string) :
  forall_chars isspace ws = true -> str_contains (full_prompt topic) ws = false.
Proof.
  induction ws as [| c ws IH]; intros H; [reflexivity |].
  cbn [forall_chars] in H. apply andb_true_iff in H as [Hc Hws].
  cbn [str_contains]. rewrite (IH Hws), orb_false_r.
  unfold full_prompt. cbn [append String.prefix].
  destruct (ascii_dec "A" c) as [<- | _]; [discriminate Hc | reflexivity].
Qed.

(** X3: when the pipeline returns the prompt followed by nothing but
    whitespace, the caption is "AI could not generate a caption."; this
    caption passes the gate of the shell, so the renderer is invoked with it
    and no error is shown for the caption. *)
Theorem echo_only_gives_fallback_and_is_rendered
    (text_generator : string -> gen_config -> result (list dict))
    (topic : string) (d : dict) (others : list dict) (ws : string) :
  topic <> "" ->
  text_generator (full_prompt topic) generation_config = Ok (d :: others) ->
  dict_get d "generated_text" = Ok (full_prompt topic ++ ws) ->
  forall_chars isspace ws = true ->
  generate_caption text_generator topic =
    (Ret "AI could not generate a caption.",
     [EvGenerate (full_prompt topic) generation_config]) /\
  forall (w : World) (template_path : string),
    exists r t2 t3,
      create_image_with_text w template_path "AI could not generate a caption." =
        (Ret r, t2) /\
      snd (generate_clicked w text_generator template_path topic) =
        (EvSpinner "AI is thinking..."
         :: EvGenerate (full_prompt topic) generation_config :: t2 ++ t3)%list /\
      renderer_invoked t2 = true.
Proof.
  intros Hne Hgen Hraw Hws.
  assert (Hcap : generate_caption text_generator topic =
                 (Ret "AI could not generate a caption.",
                  [EvGenerate (full_prompt topic) generation_config])).
  { unfold generate_caption. destruct topic as [| c topic']; [congruence |].
    cbn [is_empty]. rewrite bind_emit, Hgen. cbn [lift ret bind].
    unfold clean_up. cbn [first]. rewrite Hraw. unfold replace.
    destruct (is_empty (full_prompt (String c topic'))) eqn:He; [discriminate He |].
    rewrite replace_scan_head by apply full_prompt_nonempty.
    rewrite replace_scan_absent by (apply prompt_not_in_spaces; exact Hws).
    cbn [append]. unfold strip. rewrite (lstrip_spaces ws Hws). reflexivity. }
  split; [exact Hcap |]. intros w template_path.
  destruct (generate_clicked_run w text_generator template_path topic _ _ Hcap)
    as [_ Hgood].
  destruct (create_image_opens_first w template_path "AI could not generate a caption.")
    as (r & t2 & Hrun).
  specialize (Hgood eq_refl r _ Hrun).
  exists r, (EvImageOpen template_path :: t2).
  destruct r as [img |].
  - destruct Hgood as (o & t3 & ->). cbn [snd app].
    eexists. split; [exact Hrun |]. split; reflexivity.
  - rewrite Hgood. cbn [snd app].
    eexists. split; [exact Hrun |]. split; reflexivity.
Qed.

Lemma echo_only_gives_fallback_and_is_rendered_witness :
  generate_caption (Demo.echo_generator "   ") "cats" =
    (Ret "AI could not generate a caption.",
     [EvGenerate (full_prompt "cats") generation_config]).
Proof.
  apply (echo_only_gives_fallback_and_is_rendered (Demo.echo_generator "   ") "cats"
           [("generated_text", full_prompt "cats" ++ "   ")] [] "   ");
    [discriminate | reflexivity | reflexivity | reflexivity].
Defined.

(** X4: when the pipeline raises on a non-empty topic, a click shows two
    error banners, the exception of the pipeline and then the fixed string,
    and nothing else: no image is opened, drawn, shown or saved. *)
Theorem generation_failure_shows_two_errors
    (w : World) (text_generator : string -> gen_config -> result (list dict))
    (template_path topic : string) (e : exn) :
  topic <> "" ->
  text_generator (full_prompt topic) generation_config = Raise e ->
  generate_clicked w text_generator template_path topic =
    (Ret tt,
     [EvSpinner "AI is thinking...";
      EvGenerate (full_prompt topic) generation_config;
      EvError ("Error during AI caption generation: " ++ exn_msg e);
      EvError "Error generating text."]).
Proof.
  intros Hne Hraise. unfold generate_clicked, generate_caption.
  destruct topic as [| c topic']; [congruence |].
  cbn [is_empty]. rewrite !bind_emit, Hraise. reflexivity.
Qed.

Lemma generation_failure_shows_two_errors_witness :
  generate_clicked Demo.coffee_world Demo.failing_generator "templates/drake.png" "cats" =
    (Ret tt,
     [EvSpinner "AI is thinking...";
      EvGenerate (full_prompt "cats") generation_config;
      EvError "Error during AI caption generation: CUDA out of memory";
      EvError "Error generating text."]).
Proof.
  apply (generation_failure_shows_two_errors Demo.coffee_world Demo.failing_generator
           "templates/drake.png" "cats" (Exn RuntimeError "CUDA out of memory"));
    [discriminate | reflexivity].
Defined.

(** X5: when the raw output does not contain the prompt (the pipeline did
    not echo it), nothing is removed: the caption is the trimmed raw output,
    or the fallback when that is empty. *)
Theorem caption_without_echo_is_trimmed_output
    (text_generator : string -> gen_config -> result (list dict))
    (topic : string) (d : dict) (others : list dict) (raw : string) :
  topic <> "" ->
  text_generator (full_prompt topic) generation_config = Ok (d :: others) ->
  dict_get d "generated_text" = Ok raw ->
  str_contains (full_prompt topic) raw = false ->
  generate_caption text_generator topic =
    (Ret (if is_empty (strip raw) then "AI could not generate a caption." else strip raw),
     [EvGenerate (full_prompt topic) generation_config]).
Proof.
  intros Hne Hgen Hraw Habsent. unfold generate_caption.
  destruct topic as [| c topic']; [congruence |].
  cbn [is_empty]. rewrite bind_emit, Hgen. cbn [lift ret bind].
  unfold clean_up. cbn [first]. rewrite Hraw. unfold replace.
  destruct (is_empty (full_prompt (String c topic'))) eqn:He; [discriminate He |].
  rewrite replace_scan_absent by exact Habsent. reflexivity.
Qed.

Lemma caption_without_echo_is_trimmed_output_witness :
  generate_caption Demo.plain_generator "cats" =
    (Ret "so true", [EvGenerate (full_prompt "cats") generation_config]).
Proof.
  apply (caption_without_echo_is_trimmed_output Demo.plain_generator "cats"
           [("generated_text", "  so true  ")] [] "  so true  ");
    [discriminate | reflexivity | reflexivity | vm_compute; reflexivity].
Defined.

(** *** The script around the click *)

(** X6: when the model cannot be loaded, the run shows the failure and stops
    there: no title, no listing of the templates, no control. *)
Theorem model_load_failure_stops_the_script (w : World) (ui : UI) (e : exn) :
  load_model w = Raise e ->
  script w ui =
    (Stopped,
     [EvError ("Failed to load the model. Please check your internet connection. Error: "
               ++ exn_msg e)]).
Proof.
  intros Hload. unfold script, startup_model. rewrite Hload. reflexivity.
Qed.

Lemma model_load_failure_stops_the_script_witness :
  script Demo.offline_world (Demo.click "cats") =
    (Stopped,
     [EvError "Failed to load the model. Please check your internet connection. Error: We couldn't connect to 'https://huggingface.co'"]).
Proof.
  apply (model_load_failure_stops_the_script Demo.offline_world (Demo.click "cats")
           (Exn OSError "We couldn't connect to 'https://huggingface.co'")).
  reflexivity.
Defined.

(** X7: an exception of [os.listdir] other than [FileNotFoundError] is not
    caught: it ends the script, after the title and without an error
    banner. *)
Theorem listdir_error_is_not_caught
    (w : World) (ui : UI) (text_generator : string -> gen_config -> result (list dict))
    (e : exn) :
  load_model w = Ok text_generator ->
  listdir w TEMPLATE_DIR = Raise e ->
  is_FileNotFoundError e = false ->
  exists t,
    script w ui = (Exc e, t) /\
    error_count t = 0%nat /\
    ~ In (EvHeader "Controls") t.
Proof.
  intros Hload Hdir Hfnf. unfold script, startup_model.
  rewrite Hload. cbn [bind ret]. rewrite !bind_emit.
  rewrite templates_run, Hdir, Hfnf. cbn [bind fst snd].
  eexists. split; [reflexivity |]. split; [reflexivity |].
  intros [H | [H | [H | []]]]; discriminate H.
Qed.

Lemma listdir_error_is_not_caught_witness :
  fst (script Demo.locked_dir_world (Demo.click "cats")) =
    Exc (Exn OSError "[Errno 13] Permission denied: 'templates'").
Proof.
  destruct (listdir_error_is_not_caught Demo.locked_dir_world (Demo.click "cats")
              (Demo.echo_generator " coffee is my lifeline")
              (Exn OSError "[Errno 13] Permission denied: 'templates'"))
    as (t & Hrun & _); [reflexivity | reflexivity | reflexivity |].
  rewrite Hrun. reflexivity.
Defined.

(** X8: without a click the script calls neither the pipeline nor the
    renderer and saves nothing.  It lists the templates and passes the
    selected one to [st.image]; when that call returns, the run completes
    and ends with the hint to click the button; when it raises (a file that
    Streamlit cannot read as an image), the exception is not caught and ends
    the run before the hint. *)
Theorem no_click_no_generation
    (w : World) (ui : UI) (text_generator : string -> gen_config -> result (list dict))
    (ts : list string) (tl : list event) :
  load_model w = Ok text_generator ->
  templates w = (Ret ts, tl) ->
  ui_generate_button ui = false ->
  exists o t,
    script w ui = (o, t) /\
    shown t = [EvShowFile (path_join TEMPLATE_DIR (selectbox ts (ui_template ui)))] /\
    generator_calls t = 0%nat /\
    renderer_invoked t = false /\
    filter is_save t = [] /\
    match show_file w (path_join TEMPLATE_DIR (selectbox ts (ui_template ui))) with
    | Ok _ =>
        o = Ret tt /\
        last t (EvTitle "") =
          EvInfo "Click the 'Generate Meme!' button to create your masterpiece."
    | Raise e =>
        o = Exc e /\
        ~ In (EvInfo "Click the 'Generate Meme!' button to create your masterpiece.") t
    end.
Proof.
  intros Hload Htpl Hclick.
  rewrite (script_run w ui text_generator ts tl Hload Htpl), Hclick. cbv zeta.
  assert (Htl : tl = [EvListdir TEMPLATE_DIR]).
  { rewrite templates_run in Htpl.
    destruct (listdir w TEMPLATE_DIR) as [names | e'].
    - destruct (filter _ names); inversion Htpl; reflexivity.
    - destruct (is_FileNotFoundError e'); discriminate. }
  subst tl.
  destruct (show_file w (path_join TEMPLATE_DIR (selectbox ts (ui_template ui))))
    as [[] | e]; cbn [emit app]; eexists; eexists; (split; [reflexivity |]).
  - repeat split.
  - repeat split. intros [H | [H | [H | [H | [H | [H | []]]]]]]; discriminate H.
Qed.

Lemma no_click_no_generation_witness :
  (exists t,
     script Demo.coffee_world (Demo.idle "cats") = (Ret tt, t) /\
     shown t = [EvShowFile "templates/cat.jpeg"] /\
     generator_calls t = 0%nat) /\
  fst (script Demo.unshowable_world (Demo.idle "cats")) =
    Exc (Exn OSError "cannot identify image file 'templates/cat.jpeg'").
Proof.
  split.
  - destruct (no_click_no_generation Demo.coffee_world (Demo.idle "cats")
                (Demo.echo_generator " coffee is my lifeline")
                ["drake.png"; "cat.jpeg"] [EvListdir TEMPLATE_DIR])
      as (o & t & Hrun & Hshown & Hcalls & _ & _ & Hend);
      [reflexivity | vm_compute; reflexivity | reflexivity |].
    destruct Hend as [-> _]. exists t. repeat split; assumption.
  - destruct (no_click_no_generation Demo.unshowable_world (Demo.idle "cats")
                (Demo.echo_generator " coffee is my lifeline")
                ["drake.png"; "cat.jpeg"] [EvListdir TEMPLATE_DIR])
      as (o & t & Hrun & _ & _ & _ & _ & Hend);
      [reflexivity | vm_compute; reflexivity | reflexivity |].
    destruct Hend as [-> _]. rewrite Hrun. reflexivity.
Defined.

(** X9: the save of the rendered image is not guarded: when it raises, the
    exception is not caught and ends the script; the image has been shown
    before, and no download button is offered. *)
Theorem save_failure_is_not_caught
    (w : World) (text_generator : string -> gen_config -> result (list dict))
    (template_path prompt caption : string) (img : Image) (t1 t2 : list event)
    (e : exn) :
  generate_caption text_generator prompt = (Ret caption, t1) ->
  caption_ok caption = true ->
  create_image_with_text w template_path caption = (Ret (Some img), t2) ->
  save w img "meme_output.png" = Raise e ->
  generate_clicked w text_generator template_path prompt =
    (Exc e,
     EvSpinner "AI is thinking..." :: t1 ++ t2 ++
     [EvShowImage img; EvSave img "meme_output.png"])%list.
Proof.
  intros Hcap Hok Hrun Hsave. unfold generate_clicked.
  rewrite bind_emit, Hcap. cbn [bind fst snd]. rewrite Hok, Hrun.
  cbn [bind fst snd emit app]. rewrite Hsave. reflexivity.
Qed.

Lemma save_failure_is_not_caught_witness :
  generate_clicked Demo.full_disk_world (Demo.echo_generator " coffee is my lifeline")
    "templates/drake.png" "monday mornings" =
    (Exc (Exn OSError "[Errno 28] No space left on device"),
     EvSpinner "AI is thinking..."
     :: [EvGenerate (full_prompt "monday mornings") generation_config]
     ++ snd Demo.coffee_run
     ++ [EvShowImage Demo.coffee_meme; EvSave Demo.coffee_meme "meme_output.png"])%list.
Proof.
  apply (save_failure_is_not_caught Demo.full_disk_world
           (Demo.echo_generator " coffee is my lifeline")
           "templates/drake.png" "monday mornings" "coffee is my lifeline"
           Demo.coffee_meme
           [EvGenerate (full_prompt "monday mornings") generation_config]
           (snd Demo.coffee_run)
           (Exn OSError "[Errno 28] No space left on device"));
    vm_compute; reflexivity.
Defined.

(** *** Failures of the renderer *)

(** Proof steps for the run of the renderer in the goal: [run] evaluates it
    as far as the next library call, [next r] splits on the result [r] of
    that call and closes the branch in which it has raised with [done]. *)
Ltac run :=
  cbn [bind lift emit ret try_except draw_text draw_outline outline_offsets
       fst snd app].

Ltac raised done :=
  run;
  repeat match goal with
         | |- context [is_FileNotFoundError ?e] => destruct (is_FileNotFoundError e); run
         | |- context [is_OSError ?e] => destruct (is_OSError e); run
         end;
  done.

Ltac next r x done := destruct r as [x | ?] eqn:?; run; [| raised done].

Ltac one_error :=
  eexists; eexists; split; [reflexivity |];
  cbn [error_count filter is_error List.length last];
  split; [reflexivity | eexists; reflexivity].

(** X10: a render that fails shows exactly one error banner, as the last thing
    it does, and returns [None]; a render that succeeds shows none. *)
Theorem failed_render_shows_one_error (w : World) (template_path top_text : string) :
  exists r t,
    create_image_with_text w template_path top_text = (Ret r, t) /\
    match r with
    | Some _ => error_count t = 0%nat
    | None => error_count t = 1%nat /\ exists msg, last t (EvInfo "") = EvError msg
    end.
Proof.
  unfold create_image_with_text, overlay. run.
  next (image_open w template_path) tpl one_error.
  next (image_draw w tpl) u one_error.
  next (font_size (im_width tpl)) size one_error.
  next (truetype w FONT_FILE size) font one_error.
  next (avg_char_width w font) avg one_error.
  next (chars_per_line (im_width tpl) avg) budget one_error.
  unfold wrapped_text.
  destruct (fill_total (upper top_text) budget) as [[_ [e ->]] | [_ [wrapped ->]]];
    [raised one_error | run].
  next (textbbox w tpl wrapped font) bb one_error.
  next (position_x (im_width tpl) (bbox_right bb - bbox_left bb)) x one_error.
  next (shift_x x (-2)) xl one_error.
  match goal with |- context [text w ?i ?c] => next (text w i c) u1 one_error end.
  match goal with |- context [text w ?i ?c] => next (text w i c) u2 one_error end.
  next (shift_x x 2) xr one_error.
  match goal with |- context [text w ?i ?c] => next (text w i c) u3 one_error end.
  match goal with |- context [text w ?i ?c] => next (text w i c) u4 one_error end.
  match goal with |- context [text w ?i ?c] => next (text w i c) u5 one_error end.
  eexists. eexists. split; [reflexivity |]. reflexivity.
Qed.

(** X11: when the template cannot be opened, the renderer shows "Template
    image not found at" with the path for a [FileNotFoundError], and the
    text of the exception for any other one, and returns [None]; the font
    is not loaded and nothing is drawn. *)
Theorem unreadable_template_gives_no_image
    (w : World) (template_path top_text : string) (e : exn) :
  image_open w template_path = Raise e ->
  create_image_with_text w template_path top_text =
    (Ret None,
     [EvImageOpen template_path;
      EvError (if is_FileNotFoundError e
               then "Template image not found at " ++ template_path
               else "An error occurred during image creation: " ++ exn_msg e)]) /\
  font_loads (snd (create_image_with_text w template_path top_text)) = 0%nat /\
  text_calls (snd (create_image_with_text w template_path top_text)) = [].
Proof.
  intros Hopen.
  assert (Hrun : create_image_with_text w template_path top_text =
    (Ret None,
     [EvImageOpen template_path;
      EvError (if is_FileNotFoundError e
               then "Template image not found at " ++ template_path
               else "An error occurred during image creation: " ++ exn_msg e)])).
  { unfold create_image_with_text, overlay. rewrite bind_emit, Hopen. run.
    destruct (is_FileNotFoundError e); reflexivity. }
  rewrite Hrun. repeat split.
Qed.

Lemma unreadable_template_gives_no_image_witness :
  create_image_with_text Demo.no_template_world "templates/drake.png" "x" =
    (Ret None,
     [EvImageOpen "templates/drake.png";
      EvError "Template image not found at templates/drake.png"]).
Proof.
  apply (unreadable_template_gives_no_image Demo.no_template_world
           "templates/drake.png" "x"
           (Exn FileNotFoundError
              "[Errno 2] No such file or directory: 'templates/drake.png'")).
  reflexivity.
Defined.

(** X12: when the 26 measured widths sum to zero, the division by the
    average raises [ZeroDivisionError]; the renderer shows "float division
    by zero" and returns [None] without drawing. *)
Theorem zero_glyph_width_gives_no_image
    (w : World) (template_path top_text : string) (tpl : Image) (size : Z) (font : Font)
    (fw : float) :
  image_open w template_path = Ok tpl ->
  image_draw w tpl = Ok tt ->
  font_size (im_width tpl) = Ok size ->
  truetype w FONT_FILE size = Ok font ->
  sum_right w font alphabet 0 = Ok 0 ->
  float_of_int (im_width tpl) = Ok fw ->
  create_image_with_text w template_path top_text =
    (Ret None,
     [EvImageOpen template_path;
      EvTruetype FONT_FILE size;
      EvError "An error occurred during image creation: float division by zero"]).
Proof.
  intros Hopen Hdraw Hsize Hfont Hsum Hfw.
  unfold create_image_with_text, overlay.
  rewrite bind_emit, Hopen. run. rewrite Hdraw. run. rewrite Hsize. run.
  rewrite Hfont. run.
  unfold avg_char_width. rewrite Hsum.
  change (int_truediv 0 26) with (@Ok float (S754_zero false)). run.
  unfold chars_per_line. rewrite Hfw. reflexivity.
Qed.

Lemma zero_glyph_width_gives_no_image_witness :
  create_image_with_text Demo.zero_width_world "templates/drake.png" "x" =
    (Ret None,
     [EvImageOpen "templates/drake.png";
      EvTruetype FONT_FILE 44;
      EvError "An error occurred during image creation: float division by zero"]).
Proof.
  apply (zero_glyph_width_gives_no_image Demo.zero_width_world "templates/drake.png" "x"
           {| im_width := 800; im_height := 600; im_texts := [] |} 44
           {| font_file := FONT_FILE; font_size_px := 44 |}
           (match float_of_int 800 with Ok f => f | Raise _ => S754_zero false end));
    vm_compute; reflexivity.
Defined.

(** X13: when the line budget is zero or negative, [textwrap.fill] raises
    [ValueError]; the renderer shows "invalid width" with the budget and
    returns [None] without drawing. *)
Theorem no_room_for_a_character_gives_no_image
    (w : World) (template_path top_text : string) (tpl : Image) (size : Z) (font : Font)
    (avg : float) (budget : Z) :
  image_open w template_path = Ok tpl ->
  image_draw w tpl = Ok tt ->
  font_size (im_width tpl) = Ok size ->
  truetype w FONT_FILE size = Ok font ->
  avg_char_width w font = Ok avg ->
  chars_per_line (im_width tpl) avg = Ok budget ->
  budget <= 0 ->
  create_image_with_text w template_path top_text =
    (Ret None,
     [EvImageOpen template_path;
      EvTruetype FONT_FILE size;
      EvError ("An error occurred during image creation: invalid width "
               ++ repr_int budget ++ " (must be > 0)")]).
Proof.
  intros Hopen Hdraw Hsize Hfont Havg Hcpl Hle.
  unfold create_image_with_text, overlay.
  rewrite bind_emit, Hopen. run. rewrite Hdraw. run. rewrite Hsize. run.
  rewrite Hfont. run. rewrite Havg. run. rewrite Hcpl. run.
  unfold wrapped_text, Textwrap.fill, Textwrap.wrap, Textwrap.wrap_chunks.
  destruct (budget <=? 0) eqn:Hb; [| apply Z.leb_gt in Hb; lia].
  reflexivity.
Qed.

Lemma no_room_for_a_character_gives_no_image_witness :
  create_image_with_text Demo.narrow_world "templates/drake.png" "x" =
    (Ret None,
     [EvImageOpen "templates/drake.png";
      EvTruetype FONT_FILE 2;
      EvError "An error occurred during image creation: invalid width 0 (must be > 0)"]).
Proof.
  apply (no_room_for_a_character_gives_no_image Demo.narrow_world
           "templates/drake.png" "x"
           {| im_width := 40; im_height := 30; im_texts := [] |} 2
           {| font_file := FONT_FILE; font_size_px := 2 |}
           (match avg_char_width Demo.narrow_world
                    {| font_file := FONT_FILE; font_size_px := 2 |} with
            | Ok a => a
            | Raise _ => S754_zero false
            end) 0);
    try (vm_compute; reflexivity).
  lia.
Defined.

(** *** The lines drawn *)

(** X14: the text of a successful render is made of lines of at most
    [chars_per_line] characters each, joined by line feeds: no line is
    longer than the budget, whatever the caption. *)
Theorem drawn_lines_fit_the_budget
    (w : World) (template_path top_text : string) (img : Image) (t : list event) :
  create_image_with_text w template_path top_text = (Ret (Some img), t) ->
  exists tpl size font avg budget lines,
    image_open w template_path = Ok tpl /\
    font_size (im_width tpl) = Ok size /\
    truetype w FONT_FILE size = Ok font /\
    avg_char_width w font = Ok avg /\
    chars_per_line (im_width tpl) avg = Ok budget /\
    0 < budget /\
    Forall (fun l => len l <= budget) lines /\
    Forall (fun call => tc_text call = join (String "010" "") lines) (text_calls t).
Proof.
  intros Hrun.
  apply create_image_success in Hrun
    as (tpl & size & font & avg & budget & wrapped & bb & px & xl & xr &
        Hopen & Hsize & Hfont & Havg & Hcpl & Hfill & _ & _ & _ & _ & _ & Ht).
  apply fill_is_joined_wrap in Hfill as (lines & Hwrap & ->).
  apply wrap_lines_fit in Hwrap as [Hpos Hfit].
  exists tpl, size, font, avg, budget, lines.
  repeat split; try assumption.
  subst t. cbn [text_calls]. rewrite text_calls_map. repeat constructor.
Qed.

Lemma drawn_lines_fit_the_budget_witness :
  exists lines,
    Forall (fun l => len l <= 27) lines /\
    Forall (fun call => tc_text call = join (String "010" "") lines)
           (text_calls (snd Demo.long_word_run)).
Proof.
  destruct (drawn_lines_fit_the_budget Demo.coffee_world "templates/drake.png"
              Demo.long_word Demo.long_word_meme (snd Demo.long_word_run))
    as (tpl & size & font & avg & budget & lines &
        Hopen & Hsize & Hfont & Havg & Hcpl & _ & Hfit & Hcalls).
  - vm_compute. reflexivity.
  - exists lines. split; [| exact Hcalls].
    inversion Hopen; subst tpl. vm_compute in Hsize. inversion Hsize; subst size.
    vm_compute in Hfont. inversion Hfont; subst font.
    vm_compute in Havg. inversion Havg; subst avg.
    vm_compute in Hcpl. inversion Hcpl; subst budget. exact Hfit.
Defined.

(** *** textwrap: the characters that are not whitespace are kept, in order *)

Lemma drop_spaces_append (a b : string) :
  drop_spaces (a ++ b) = drop_spaces a ++ drop_spaces b.
Proof.
  induction a as [| c a IH]; cbn [append drop_spaces]; [reflexivity |].
  destruct (isspace c); cbn [append]; now rewrite IH.
Qed.

Lemma drop_spaces_spaces (n : nat) : drop_spaces (spaces n) = "".
Proof.
  induction n as [| n IH]; [reflexivity | exact IH].
Qed.

Lemma whitespace_isspace (c : ascii) :
  Textwrap.is_whitespace c = true -> isspace c = true.
Proof.
  destruct c as [[] [] [] [] [] [] [] []]; vm_compute; intros H;
    try discriminate H; reflexivity.
Qed.

Lemma tab_isspace (c : ascii) : Ascii.eqb c "009" = true -> isspace c = true.
Proof.
  intros H. apply Ascii.eqb_eq in H. now subst c.
Qed.

Lemma drop_spaces_expandtabs (tabsize : Z) (s : string) :
  forall col, drop_spaces (expandtabs_from tabsize col s) = drop_spaces s.
Proof.
  induction s as [| c s IH]; intros col; cbn [expandtabs_from drop_spaces]; [reflexivity |].
  destruct (Ascii.eqb c "009") eqn:Htab.
  - rewrite (tab_isspace c Htab).
    destruct (0 <? tabsize); [| apply IH].
    cbv zeta. rewrite drop_spaces_append, drop_spaces_spaces. apply IH.
  - cbn [drop_spaces]. rewrite IH. reflexivity.
Qed.

Lemma drop_spaces_translate (s : string) :
  drop_spaces (Textwrap.translate_whitespace s) = drop_spaces s.
Proof.
  induction s as [| c s IH]; cbn [Textwrap.translate_whitespace drop_spaces]; [reflexivity |].
  destruct (Textwrap.is_whitespace c) eqn:Hws.
  - rewrite (whitespace_isspace c Hws). exact IH.
  - rewrite IH. reflexivity.
Qed.

Lemma drop_spaces_munge (text : string) :
  drop_spaces (Textwrap.munge_whitespace text) = drop_spaces text.
Proof.
  unfold Textwrap.munge_whitespace, expandtabs.
  now rewrite drop_spaces_translate, drop_spaces_expandtabs.
Qed.

Lemma string_of_list_ascii_app (a b : list ascii) :
  string_of_list_ascii (a ++ b) = string_of_list_ascii a ++ string_of_list_ascii b.
Proof.
  induction a as [| x a IH]; cbn [app string_of_list_ascii append]; [reflexivity |].
  now rewrite IH.
Qed.

(** The chunks of [wordsep_re.split] tile the text. *)
Lemma split_scan_tiles (rest : list ascii) :
  forall before cur st,
    join "" (Textwrap.split_scan before cur st rest) =
    string_of_list_ascii (rev cur ++ rest).
Proof.
  induction rest as [| c rest IH]; intros before cur st.
  - cbn [Textwrap.split_scan]. rewrite app_nil_r.
    destruct cur as [| x cur]; reflexivity.
  - rewrite split_scan_step. cbv zeta.
    assert (Hstart :
      join "" (string_of_list_ascii (rev (c :: cur)) ::
               Textwrap.split_scan (c :: before) [] Textwrap.AtStart rest) =
      string_of_list_ascii (rev cur ++ c :: rest)).
    { rewrite join_empty_cons, IH. cbn [rev app].
      rewrite <- string_of_list_ascii_app, <- app_assoc. reflexivity. }
    assert (Hgo : forall st2,
      join "" (Textwrap.split_scan (c :: before) (c :: cur) st2 rest) =
      string_of_list_ascii (rev cur ++ c :: rest)).
    { intros st2. rewrite IH. cbn [rev]. rewrite <- app_assoc. reflexivity. }
    match goal with
    | |- join "" (match ?st2 with Textwrap.AtStart => _ | _ => _ end) = _ =>
        destruct st2
    end; first [exact Hstart | apply Hgo].
Qed.

Lemma split_tiles (text : string) : join "" (Textwrap.split text) = text.
Proof.
  unfold Textwrap.split. rewrite split_scan_tiles. cbn [rev app].
  apply string_of_list_ascii_of_string.
Qed.

Lemma firstn_skipn_str (n : nat) (s : string) : str_firstn n s ++ str_skipn n s = s.
Proof.
  revert s. induction n as [| n IH]; intros s; [destruct s; reflexivity |].
  destruct s as [| c s]; cbn [str_firstn str_skipn append]; [reflexivity |].
  now rewrite IH.
Qed.

Lemma slice_to_from (s : string) (k : Z) : slice_to s k ++ slice_from s k = s.
Proof.
  apply firstn_skipn_str.
Qed.

Lemma join_empty_app (a b : list string) : join "" (a ++ b) = join "" a ++ join "" b.
Proof.
  induction a as [| x a IH]; [reflexivity |].
  change ((x :: a) ++ b)%list with (x :: (a ++ b))%list.
  rewrite !join_empty_cons, IH, append_assoc. reflexivity.
Qed.

Lemma is_empty_eq (s : string) : is_empty s = true -> s = "".
Proof.
  destruct s; [reflexivity | discriminate].
Qed.

Lemma drop_spaces_lstrip (s : string) : drop_spaces (lstrip s) = drop_spaces s.
Proof.
  induction s as [| c s IH]; [reflexivity |].
  cbn [lstrip]. destruct (isspace c) eqn:Hc; [| reflexivity].
  cbn [drop_spaces]. rewrite Hc. exact IH.
Qed.

Lemma rstrip_empty_drop_spaces (s : string) : rstrip s = "" -> drop_spaces s = "".
Proof.
  induction s as [| c s IH]; [reflexivity |].
  cbn [rstrip drop_spaces]. cbv zeta.
  destruct (isspace c) eqn:Hc; [| discriminate].
  destruct (is_empty (rstrip s)) eqn:He; cbn [andb]; [| discriminate].
  intros _. apply IH, is_empty_eq, He.
Qed.

Lemma blank_drop_spaces (c : string) : Textwrap.is_blank c = true -> drop_spaces c = "".
Proof.
  unfold Textwrap.is_blank, strip. intros H. apply is_empty_eq in H.
  rewrite <- drop_spaces_lstrip. apply rstrip_empty_drop_spaces, H.
Qed.

(** What a list of chunks holds besides whitespace. *)
Lemma drop_trailing_blank_content (l : list string) :
  drop_spaces (join "" (Textwrap.drop_trailing_blank l)) = drop_spaces (join "" l).
Proof.
  destruct l as [| x l' _] using rev_ind; [reflexivity |].
  rewrite drop_trailing_blank_snoc.
  destruct (Textwrap.is_blank x) eqn:Hb; [| reflexivity].
  rewrite join_empty_snoc, drop_spaces_append, (blank_drop_spaces x Hb).
  now rewrite append_empty_r.
Qed.

Lemma fill_line_content (width : Z) (chunks : list string) :
  forall cur_line cur_len,
    let '(cl, _, ch) := Textwrap.fill_line width cur_len cur_line chunks in
    join "" cl ++ join "" ch = join "" cur_line ++ join "" chunks.
Proof.
  induction chunks as [| c rest IH]; intros cur_line cur_len;
    cbn [Textwrap.fill_line]; [reflexivity |].
  cbv zeta. destruct (cur_len + len c <=? width); [| reflexivity].
  specialize (IH (cur_line ++ [c])%list (cur_len + len c)).
  destruct (Textwrap.fill_line width (cur_len + len c) (cur_line ++ [c]) rest)
    as [[cl n] ch].
  rewrite IH, join_empty_snoc, join_empty_cons, append_assoc. reflexivity.
Qed.

Lemma handle_long_word_content (c : string) (rest cur_line : list string)
    (cur_len width : Z) :
  let '(cl, ch) := Textwrap.handle_long_word c rest cur_line cur_len width in
  join "" cl ++ join "" ch = join "" cur_line ++ join "" (c :: rest).
Proof.
  unfold Textwrap.handle_long_word. cbv zeta.
  rewrite join_empty_snoc, !join_empty_cons, append_assoc.
  rewrite <- (append_assoc (slice_to c _)), slice_to_from. reflexivity.
Qed.

Lemma end_line_content (width : Z) (cur_line chunks2 : list string) (cur_len : Z) :
  let '(line, ch) := Textwrap.end_line width (cur_line, cur_len, chunks2) in
  drop_spaces (match line with Some l => l | None => "" end) ++ drop_spaces (join "" ch) =
  drop_spaces (join "" cur_line ++ join "" chunks2).
Proof.
  unfold Textwrap.end_line.
  assert (H1 :
    let '(cl1, ch3) :=
      match chunks2 with
      | c :: rest =>
          if Z.ltb width (len c)
          then Textwrap.handle_long_word c rest cur_line cur_len width
          else (cur_line, chunks2)
      | [] => (cur_line, chunks2)
      end in
    join "" cl1 ++ join "" ch3 = join "" cur_line ++ join "" chunks2).
  { destruct chunks2 as [| c rest]; [reflexivity |].
    destruct (Z.ltb width (len c)); [| reflexivity].
    apply handle_long_word_content. }
  destruct (match chunks2 with [] => _ | _ => _ end) as [cl1 ch3].
  rewrite <- H1, drop_spaces_append, <- (drop_trailing_blank_content cl1).
  destruct (Textwrap.drop_trailing_blank cl1) as [| x l]; reflexivity.
Qed.

Lemma wrap_step_content (width : Z) (have_lines : bool) (chunks : list string) :
  let '(line, ch) := Textwrap.wrap_step width have_lines chunks in
  drop_spaces (match line with Some l => l | None => "" end) ++ drop_spaces (join "" ch) =
  drop_spaces (join "" chunks).
Proof.
  unfold Textwrap.wrap_step.
  set (chunks1 := match chunks with [] => _ | _ => _ end).
  assert (H1 : drop_spaces (join "" chunks1) = drop_spaces (join "" chunks)).
  { subst chunks1. destruct chunks as [| c rest]; [reflexivity |].
    destruct (Textwrap.is_blank c) eqn:Hb; cbn [andb]; [| reflexivity].
    destruct have_lines; [| reflexivity].
    now rewrite join_empty_cons, drop_spaces_append, (blank_drop_spaces c Hb). }
  pose proof (fill_line_content width chunks1 [] 0) as Hfl.
  destruct (Textwrap.fill_line width 0 [] chunks1) as [[cl n] ch].
  pose proof (end_line_content width cl ch n) as Hend.
  destruct (Textwrap.end_line width (cl, n, ch)) as [line ch'].
  rewrite Hend, Hfl. exact H1.
Qed.

Lemma wrap_loop_content (width : Z) (fuel : nat) :
  forall lines chunks out,
    Textwrap.wrap_loop fuel width lines chunks = Some out ->
    drop_spaces (join "" out) = drop_spaces (join "" lines) ++ drop_spaces (join "" chunks).
Proof.
  induction fuel as [| fuel IH]; intros lines chunks out Hloop.
  - destruct chunks; [| discriminate]. inversion Hloop; subst out.
    now rewrite append_empty_r.
  - destruct chunks as [| c rest].
    { inversion Hloop; subst out. now rewrite append_empty_r. }
    cbn [Textwrap.wrap_loop] in Hloop.
    pose proof (wrap_step_content width
                  (negb match lines with [] => true | _ => false end) (c :: rest)) as Hstep.
    destruct (Textwrap.wrap_step width _ (c :: rest)) as [line chunks'].
    rewrite (IH _ _ _ Hloop), <- Hstep.
    destruct line as [l |]; [| reflexivity].
    now rewrite join_empty_snoc, drop_spaces_append, append_assoc.
Qed.

Lemma drop_spaces_join_lines (lines : list string) :
  drop_spaces (join (String "010" "") lines) = drop_spaces (join "" lines).
Proof.
  induction lines as [| x l IH]; [reflexivity |].
  rewrite join_empty_cons. destruct l as [| y l]; [now rewrite append_empty_r |].
  change (join (String "010" "") (x :: y :: l))
    with (x ++ String "010" "" ++ join (String "010" "") (y :: l)).
  rewrite !drop_spaces_append, IH. reflexivity.
Qed.

(** [textwrap.fill] changes the whitespace of a text and nothing else. *)
Lemma fill_content (text : string) (width : Z) (wrapped : string) :
  Textwrap.fill text width = Some (Ok wrapped) ->
  drop_spaces wrapped = drop_spaces text.
Proof.
  intros Hfill. apply fill_is_joined_wrap in Hfill as (lines & Hwrap & ->).
  unfold Textwrap.wrap, Textwrap.wrap_chunks in Hwrap.
  destruct (width <=? 0); [discriminate |].
  destruct (Textwrap.wrap_loop _ width [] _) as [out |] eqn:Hloop; [| discriminate].
  cbn [option_map] in Hwrap. inversion Hwrap; subst out.
  rewrite drop_spaces_join_lines, (wrap_loop_content _ _ _ _ _ Hloop).
  unfold Textwrap.split_chunks. rewrite split_tiles. apply drop_spaces_munge.
Qed.

(** X15: a successful render draws every character of the upper-cased
    caption that is not whitespace, in the caption's order, and adds nothing
    but whitespace: breaking long words and wrapping never drop, repeat or
    insert a visible character (no hyphen is added where a word is cut). *)
Theorem drawn_text_keeps_the_caption
    (w : World) (template_path top_text : string) (img : Image) (t : list event) :
  create_image_with_text w template_path top_text = (Ret (Some img), t) ->
  text_calls t <> [] /\
  Forall (fun call => drop_spaces (tc_text call) = drop_spaces (upper top_text))
         (text_calls t).
Proof.
  intros Hrun.
  apply create_image_success in Hrun
    as (tpl & size & font & avg & budget & wrapped & bb & px & xl & xr &
        _ & _ & _ & _ & _ & Hfill & _ & _ & _ & _ & _ & Ht).
  apply fill_content in Hfill.
  subst t. cbn [text_calls]. rewrite text_calls_map.
  split; [discriminate |]. repeat constructor; exact Hfill.
Qed.

Lemma drawn_text_keeps_the_caption_witness :
  Forall (fun call => drop_spaces (tc_text call) = "SUPERCALIFRAGILISTICEXPIALIDOCIOUS")
         (text_calls (snd Demo.long_word_run)).
Proof.
  apply (drawn_text_keeps_the_caption Demo.coffee_world "templates/drake.png"
           Demo.long_word Demo.long_word_meme (snd Demo.long_word_run)).
  vm_compute. reflexivity.
Defined.

(** *** upper(): no lower-case letter is left *)

Lemma upper_char_not_lower (c : ascii) : is_lower (upper_char c) = false.
Proof.
  destruct c as [[] [] [] [] [] [] [] []]; vm_compute; reflexivity.
Qed.

Lemma isspace_not_lower (c : ascii) : isspace c = true -> is_lower c = false.
Proof.
  destruct c as [[] [] [] [] [] [] [] []]; vm_compute; intros H;
    try discriminate H; reflexivity.
Qed.

Lemma no_lower_drop_spaces (s : string) :
  forall_chars (fun c => negb (is_lower c)) s =
  forall_chars (fun c => negb (is_lower c)) (drop_spaces s).
Proof.
  induction s as [| c s IH]; [reflexivity |].
  cbn [forall_chars drop_spaces].
  destruct (isspace c) eqn:Hc.
  - rewrite (isspace_not_lower c Hc). exact IH.
  - cbn [forall_chars]. now rewrite IH.
Qed.

Lemma upper_no_lower (s : string) :
  forall_chars (fun c => negb (is_lower c)) (upper s) = true.
Proof.
  induction s as [| c s IH]; [reflexivity |].
  cbn [upper forall_chars]. now rewrite upper_char_not_lower, IH.
Qed.

(** X16: whatever the caption, no text drawn by a successful render holds a
    lower-case ASCII letter: the outline and the white text are in capitals. *)
Theorem drawn_text_has_no_lower_case
    (w : World) (template_path top_text : string) (img : Image) (t : list event) :
  create_image_with_text w template_path top_text = (Ret (Some img), t) ->
  Forall (fun call => forall_chars (fun c => negb (is_lower c)) (tc_text call) = true)
         (text_calls t).
Proof.
  intros Hrun.
  apply create_image_success in Hrun
    as (tpl & size & font & avg & budget & wrapped & bb & px & xl & xr &
        _ & _ & _ & _ & _ & Hfill & _ & _ & _ & _ & _ & Ht).
  apply fill_content in Hfill.
  assert (Hw : forall_chars (fun c => negb (is_lower c)) wrapped = true)
    by (rewrite no_lower_drop_spaces, Hfill, <- no_lower_drop_spaces; apply upper_no_lower).
  subst t. cbn [text_calls]. rewrite text_calls_map.
  repeat constructor; exact Hw.
Qed.

Lemma drawn_text_has_no_lower_case_witness :
  Forall (fun call => forall_chars (fun c => negb (is_lower c)) (tc_text call) = true)
         (text_calls (snd Demo.coffee_run)).
Proof.
  apply (drawn_text_has_no_lower_case Demo.coffee_world "templates/drake.png"
           "coffee is my lifeline" Demo.coffee_meme (snd Demo.coffee_run)).
  vm_compute. reflexivity.
Defined.

(** *** A caption that fits one line *)

Lemma len_join_space_head (v : string) (ws : list string) :
  len v <= len (join " " (v :: ws)).
Proof.
  destruct ws as [| x ws]; [cbn [join]; lia |].
  change (join " " (v :: x :: ws)) with (v ++ " " ++ join " " (x :: ws)).
  rewrite len_append. pose proof (len_nonneg (" " ++ join " " (x :: ws))). lia.
Qed.

Lemma len_join_space_tail (v : string) (ws : list string) :
  len (join " " ws) <= len (join " " (v :: ws)).
Proof.
  destruct ws as [| x ws]; [cbn [join]; apply len_nonneg |].
  change (join " " (v :: x :: ws)) with (v ++ " " ++ join " " (x :: ws)).
  rewrite !len_append. pose proof (len_nonneg v). pose proof (len_nonneg " "). lia.
Qed.

Lemma len_join_space_member (ws : list string) (v : string) :
  In v ws -> len v <= len (join " " ws).
Proof.
  induction ws as [| x ws IH]; intros Hin; [contradiction |].
  destruct Hin as [-> | Hin]; [apply len_join_space_head |].
  pose proof (len_join_space_tail x ws). specialize (IH Hin). lia.
Qed.

Lemma join_space_merge (cur v : string) (ws : list string) :
  join " " ((cur ++ " " ++ v) :: ws) = join " " (cur :: v :: ws).
Proof.
  change (join " " (cur :: v :: ws)) with (cur ++ " " ++ join " " (v :: ws)).
  destruct ws as [| x ws]; [reflexivity |].
  change (join " " ((cur ++ " " ++ v) :: x :: ws))
    with ((cur ++ " " ++ v) ++ " " ++ join " " (x :: ws)).
  change (join " " (v :: x :: ws)) with (v ++ " " ++ join " " (x :: ws)).
  now rewrite !append_assoc.
Qed.

(** Words that fit one line together are not split by the greedy fill. *)
Lemma greedy_lines_one_line (width : Z) (ws : list string) :
  forall cur,
    len (join " " (cur :: ws)) <= width ->
    greedy_lines width cur ws = [join " " (cur :: ws)].
Proof.
  induction ws as [| v ws IH]; intros cur Hlen; [reflexivity |].
  cbn [greedy_lines]. rewrite <- join_space_merge in Hlen.
  assert (Hfit : len cur + 1 + len v <= width).
  { pose proof (len_join_space_head (cur ++ " " ++ v) ws) as Hh.
    rewrite !len_append in Hh. change (len " ") with 1 in Hh. lia. }
  apply Z.leb_le in Hfit. rewrite Hfit, (IH _ Hlen). now rewrite join_space_merge.
Qed.

(** X17: a caption whose upper-cased form is made of words without
    whitespace or hyphens, joined by single spaces, and is no longer than
    the line budget is drawn as it is, upper-cased, on one line: every
    [draw.text] call of a successful render has exactly that text. *)
Theorem short_caption_is_one_line
    (w : World) (template_path top_text : string) (img tpl : Image) (t : list event)
    (size : Z) (font : Font) (avg : float) (budget : Z) (words : list string) :
  create_image_with_text w template_path top_text = (Ret (Some img), t) ->
  image_open w template_path = Ok tpl ->
  font_size (im_width tpl) = Ok size ->
  truetype w FONT_FILE size = Ok font ->
  avg_char_width w font = Ok avg ->
  chars_per_line (im_width tpl) avg = Ok budget ->
  upper top_text = join " " words ->
  Forall (fun v => plain_word v = true) words ->
  len (upper top_text) <= budget ->
  text_calls t <> [] /\
  Forall (fun call => tc_text call = upper top_text) (text_calls t).
Proof.
  intros Hrun Hopen Hsize Hfont Havg Hcpl Hwords Hplain Hshort.
  apply create_image_success in Hrun
    as (tpl' & size' & font' & avg' & budget' & wrapped & bb & px & xl & xr &
        Hopen' & Hsize' & Hfont' & Havg' & Hcpl' & Hfill & _ & _ & _ & _ & _ & Ht).
  rewrite Hopen in Hopen'. inversion Hopen'; subst tpl'.
  rewrite Hsize in Hsize'. inversion Hsize'; subst size'.
  rewrite Hfont in Hfont'. inversion Hfont'; subst font'.
  rewrite Havg in Havg'. inversion Havg'; subst avg'.
  rewrite Hcpl in Hcpl'. inversion Hcpl'; subst budget'.
  assert (Hpos : 0 < budget).
  { destruct (fill_total (upper top_text) budget) as [[_ [e He]] | [Hpos _]];
      [rewrite Hfill in He; discriminate | exact Hpos]. }
  assert (Hfits : Forall (fits budget) words).
  { apply Forall_forall. intros v Hin. split.
    - exact (proj1 (Forall_forall _ _) Hplain v Hin).
    - pose proof (len_join_space_member words v Hin). rewrite <- Hwords in *. lia. }
  rewrite Hwords, (fill_plain_words budget Hpos words Hfits) in Hfill.
  assert (Hw : wrapped = join " " words).
  { inversion Hfill as [Hg]. unfold greedy_fill.
    destruct words as [| v ws]; [reflexivity |].
    rewrite greedy_lines_one_line by (rewrite <- Hwords; exact Hshort).
    reflexivity. }
  subst t. cbn [text_calls]. rewrite text_calls_map, Hwords, Hw.
  split; [discriminate |]. repeat constructor.
Qed.

Lemma short_caption_is_one_line_witness :
  Forall (fun call => tc_text call = "COFFEE IS MY LIFELINE")
         (text_calls (snd Demo.coffee_run)).
Proof.
  apply (short_caption_is_one_line Demo.coffee_world "templates/drake.png"
           "coffee is my lifeline" Demo.coffee_meme
           {| im_width := 800; im_height := 600; im_texts := [] |}
           (snd Demo.coffee_run) 44 {| font_file := FONT_FILE; font_size_px := 44 |}
           Demo.coffee_avg 27 ["COFFEE"; "IS"; "MY"; "LIFELINE"]);
    try (vm_compute; reflexivity).
  - repeat constructor.
  - vm_compute. discriminate.
Defined.
